(** * BlockSim (mini_blockchain.py, blockchain_explorer.py): a shallow embedding

    The ledger core of the repository: [Block] (hashing, proof of work),
    [Blockchain] (genesis, append, validation, balances, tampering, export)
    and the two explorer commands that create and load a chain; then the
    callers of the core: the other commands of the explorer and its menu
    loop ([Explorer]), the nodes and the network of advanced_features.py
    ([Network]) and the requests of the web application app.py ([Web]).

    Python values are modelled as follows.
    - [int] is [Z]; [str] is [string], one character per code point below 256;
      [float] amounts are binary64 values ([PrimFloat.float]).
    - A method that mutates [self] returns the new object.
    - An exception is an [outcome]: [Raise e].  The proof-of-work loop has no
      bound in the source; it runs here on a loop budget and yields
      [OutOfFuel] when the budget is spent before the loop exits.
    - [time.time()] is an explicit argument [now] of every operation that
      builds a block.
    - Console output is not modelled, except that [tamper_with_block],
      [create_blockchain] and [load_blockchain] return a report of the
      branch taken.  Files are not modelled: an export is the list handed to
      [json.dump], a load starts from the list [json.load] returned, whose
      entries may lack keys.
    - What the interpreter supplies (SHA-256, the JSON text of a timestamp,
      [float()], [int()]) is the interface [PyRuntime]; [Reference] gives
      an executable instance of it.  [str()] of a float, which the explorer
      and the network write into entries, is the interface [PyFormat], with
      the instance [Repr]. *)

From Stdlib Require Import ZArith Ascii String List Lia DecimalString PrimFloat.
From Stdlib Require FloatOps SpecFloat.
From stdpp Require Import base tactics option list.
Import ListNotations.

Local Open Scope string_scope.
Local Open Scope list_scope.
Local Open Scope Z_scope.

Local Infix "+:+" := String.append (at level 60, right associativity).

(** ** Outcomes of a call *)

Inductive PyError : Type :=
| IndexError
| ValueError.

Inductive outcome (A : Type) : Type :=
| Ok (a : A)
| Raise (e : PyError)
| OutOfFuel.

Arguments Ok {A} a.
Arguments Raise {A} e.
Arguments OutOfFuel {A}.

(** Sequencing: the first exception (or a spent loop budget) ends the call. *)
#[global]
Instance outcome_bind : MBind outcome := fun A B k m =>
  match m with
  | Ok a => k a
  | Raise e => Raise e
  | OutOfFuel => OutOfFuel
  end.

(** ** Python strings *)

Definition dquote : string := String (ascii_of_nat 34) EmptyString.
Definition backslash : string := String (ascii_of_nat 92) EmptyString.

(** [s[:n]] for a natural [n]. *)
Fixpoint str_take (n : nat) (s : string) : string :=
  match n, s with
  | S n', String c s' => String c (str_take n' s')
  | _, _ => EmptyString
  end.

(** [s[:n]] for any integer [n]: a negative bound counts from the end, and
    both are clamped to the string. *)
Definition slice_to (s : string) (n : Z) : string :=
  if 0 <=? n then str_take (Z.to_nat n) s
  else str_take (String.length s - Z.to_nat (- n)) s.

(** [s * n]: the empty string when [n <= 0]. *)
Fixpoint str_repeat (s : string) (n : nat) : string :=
  match n with
  | O => EmptyString
  | S n' => s +:+ str_repeat s n'
  end.

Definition str_mul (s : string) (n : Z) : string := str_repeat s (Z.to_nat n).

(** [p in s]: [p] occurs in [s] as a substring. *)
Fixpoint contains (p s : string) : bool :=
  String.prefix p s ||
  match s with
  | EmptyString => false
  | String _ s' => contains p s'
  end.

(** [str.isspace] on one character (code points below 256). *)
Definition isspace (c : ascii) : bool :=
  let n := nat_of_ascii c in
  ((9 <=? n)%nat && (n <=? 13)%nat) || ((28 <=? n)%nat && (n <=? 32)%nat)
  || (n =? 133)%nat || (n =? 160)%nat.

Definition rev_string (s : string) : string :=
  string_of_list_ascii (rev (list_ascii_of_string s)).

(** [s.split()]: the maximal runs of non-space characters.  [cur] is the
    current run, last character first. *)
Fixpoint split_ws_from (cur : string) (s : string) : list string :=
  match s with
  | EmptyString =>
      match cur with EmptyString => [] | _ => [rev_string cur] end
  | String c s' =>
      if isspace c then
        match cur with
        | EmptyString => split_ws_from EmptyString s'
        | _ => rev_string cur :: split_ws_from EmptyString s'
        end
      else split_ws_from (String c cur) s'
  end.

Definition split_ws (s : string) : list string := split_ws_from EmptyString s.

(** [s.split(sep)] for a non-empty [sep]: occurrences are taken left to
    right without overlap.  [skip] counts the characters of a separator
    still to be passed over. *)
Fixpoint split_sep_from (sep : string) (skip : nat) (cur : string) (s : string)
  : list string :=
  match s with
  | EmptyString => [rev_string cur]
  | String c s' =>
      match skip with
      | S k => split_sep_from sep k cur s'
      | O =>
          if String.prefix sep s
          then rev_string cur :: split_sep_from sep (String.length sep - 1) EmptyString s'
          else split_sep_from sep O (String c cur) s'
      end
  end.

Definition split_sep (sep s : string) : list string :=
  split_sep_from sep O EmptyString s.

(** [s.strip()]. *)
Fixpoint lstrip (s : string) : string :=
  match s with
  | String c s' => if isspace c then lstrip s' else s
  | EmptyString => EmptyString
  end.

Definition strip (s : string) : string :=
  rev_string (lstrip (rev_string (lstrip s))).

(** [str(n)] for an integer. *)
Definition str_of_int (n : Z) : string := NilZero.string_of_int (Z.to_int n).

(** [l[i]] for a natural index within a list of strings. *)
Definition item (l : list string) (i : nat) : outcome string :=
  match l !! i with
  | Some x => Ok x
  | None => Raise IndexError
  end.

(** [sep.join(l)]. *)
Definition join (sep : string) (l : list string) : string := String.concat sep l.

(** ** What the interpreter supplies *)

Class PyRuntime : Type := {
  (** the values the [timestamp] attribute holds *)
  Stamp : Type;
  (** [bool(t)]: false exactly for a zero timestamp *)
  stamp_truthy : Stamp -> bool;
  (** [json.dumps(t)] *)
  json_stamp : Stamp -> string;
  (** [hashlib.sha256(s.encode()).hexdigest()] *)
  sha256_hexdigest : string -> string;
  (** [float(s)]; [None] stands for [ValueError] *)
  py_float : string -> option float;
  (** [int(s)]; [None] stands for [ValueError] *)
  py_int : string -> option Z
}.

(** ** json.dumps(..., sort_keys=True) on a flat dictionary *)

Definition hex_digit (n : nat) : ascii :=
  nth n (list_ascii_of_string "0123456789abcdef") "0"%char.

(** One character of a JSON string literal, as [ensure_ascii] writes it. *)
Definition json_escape_char (c : ascii) : string :=
  let n := nat_of_ascii c in
  if (n =? 34)%nat then backslash +:+ dquote
  else if (n =? 92)%nat then backslash +:+ backslash
  else if (n =? 10)%nat then backslash +:+ "n"
  else if (n =? 13)%nat then backslash +:+ "r"
  else if (n =? 9)%nat then backslash +:+ "t"
  else if (n =? 12)%nat then backslash +:+ "f"
  else if (n =? 8)%nat then backslash +:+ "b"
  else if (32 <=? n)%nat && (n <=? 126)%nat then String c EmptyString
  else backslash +:+ "u00"
       +:+ String (hex_digit (n / 16)) (String (hex_digit (n mod 16)) EmptyString).

Fixpoint json_escape (s : string) : string :=
  match s with
  | EmptyString => EmptyString
  | String c s' => json_escape_char c +:+ json_escape s'
  end.

Definition json_string (s : string) : string := dquote +:+ json_escape s +:+ dquote.

Fixpoint insert_by_key {V : Type} (kv : string * V) (l : list (string * V))
  : list (string * V) :=
  match l with
  | [] => [kv]
  | kv' :: l' =>
      if String.leb (fst kv) (fst kv') then kv :: l else kv' :: insert_by_key kv l'
  end.

Definition sort_keys {V : Type} (l : list (string * V)) : list (string * V) :=
  foldr insert_by_key [] l.

Section Model.
Context {rt : PyRuntime}.

Inductive JValue : Type :=
| JInt (n : Z)
| JStr (s : string)
| JStamp (t : Stamp).

Definition json_value (v : JValue) : string :=
  match v with
  | JInt n => str_of_int n
  | JStr s => json_string s
  | JStamp t => json_stamp t
  end.

Definition json_dumps_sorted (d : list (string * JValue)) : string :=
  "{" +:+ join ", " (map (fun kv => json_string (fst kv) +:+ ": " +:+ json_value (snd kv))
                         (sort_keys d)) +:+ "}".

(** ** class Block *)

Record Block : Type := mkBlock {
  index : Z;
  timestamp : Stamp;
  data : string;
  previous_hash : string;
  nonce : Z;
  hash : string
}.

Definition set_data (self : Block) (v : string) : Block :=
  mkBlock (index self) (timestamp self) v (previous_hash self) (nonce self) (hash self).

Definition set_nonce (self : Block) (v : Z) : Block :=
  mkBlock (index self) (timestamp self) (data self) (previous_hash self) v (hash self).

Definition set_hash (self : Block) (v : string) : Block :=
  mkBlock (index self) (timestamp self) (data self) (previous_hash self) (nonce self) v.

Definition calculate_hash (self : Block) : string :=
  let block_string :=
    json_dumps_sorted
      [ ("index", JInt (index self));
        ("timestamp", JStamp (timestamp self));
        ("data", JStr (data self));
        ("previous_hash", JStr (previous_hash self));
        ("nonce", JInt (nonce self)) ] in
  sha256_hexdigest block_string.

(** [Block(index, data, previous_hash, timestamp)]; [timestamp = None] is the
    default argument and [now] is what [time.time()] returns. *)
Definition Block_init (index : Z) (data previous_hash : string)
    (timestamp : option Stamp) (now : Stamp) : Block :=
  let ts := match timestamp with
            | Some t => if stamp_truthy t then t else now
            | None => now
            end in
  let self := mkBlock index ts data previous_hash 0 EmptyString in
  set_hash self (calculate_hash self).

(** The [while] loop of [mine_block]; [fuel] bounds the number of passes. *)
Fixpoint mine_loop (fuel : nat) (difficulty : Z) (target : string) (self : Block)
  : outcome Block :=
  if negb (slice_to (hash self) difficulty =? target)%string then
    match fuel with
    | O => OutOfFuel
    | S fuel' =>
        let self := set_nonce self (nonce self + 1) in
        let self := set_hash self (calculate_hash self) in
        mine_loop fuel' difficulty target self
    end
  else Ok self.

Definition mine_block (fuel : nat) (self : Block) (difficulty : Z) : outcome Block :=
  let target := str_mul "0" difficulty in
  mine_loop fuel difficulty target self.

(** A dictionary with keys among the six of [Block.to_dict]: the value under
    each key, [None] for a key the dictionary does not have.  [to_dict]
    builds one with all six; an entry of a document that is loaded may lack
    some of them.  The values have the types [to_dict] writes. *)
Record BlockDict : Type := mkBlockDict {
  d_index : option Z;
  d_timestamp : option Stamp;
  d_data : option string;
  d_previous_hash : option string;
  d_hash : option string;
  d_nonce : option Z
}.

Definition to_dict (self : Block) : BlockDict :=
  mkBlockDict (Some (index self)) (Some (timestamp self)) (Some (data self))
              (Some (previous_hash self)) (Some (hash self)) (Some (nonce self)).

(** ** class Blockchain *)

Record Blockchain : Type := mkBlockchain {
  chain : list Block;
  difficulty : Z;
  pending_transactions : list string;
  mining_reward : Z
}.

Definition set_chain (self : Blockchain) (v : list Block) : Blockchain :=
  mkBlockchain v (difficulty self) (pending_transactions self) (mining_reward self).

Definition set_pending_transactions (self : Blockchain) (v : list string) : Blockchain :=
  mkBlockchain (chain self) (difficulty self) v (mining_reward self).

Definition create_genesis_block (fuel : nat) (self : Blockchain) (now : Stamp)
  : outcome Blockchain :=
  let genesis_block :=
    Block_init 0 "Genesis Block - The beginning of BlockSim" "0" None now in
  genesis_block ← mine_block fuel genesis_block (difficulty self);
  Ok (set_chain self (chain self ++ [genesis_block])).

(** [Blockchain(difficulty)]. *)
Definition Blockchain_init (fuel : nat) (difficulty : Z) (now : Stamp)
  : outcome Blockchain :=
  let self := mkBlockchain [] difficulty [] 100 in
  create_genesis_block fuel self now.

(** [self.chain[-1]]. *)
Definition get_latest_block (self : Blockchain) : outcome Block :=
  match last (chain self) with
  | Some b => Ok b
  | None => Raise IndexError
  end.

Definition add_transaction (self : Blockchain) (transaction : string) : Blockchain :=
  set_pending_transactions self (pending_transactions self ++ [transaction]).

(** With nothing pending the method prints a notice and returns. *)
Definition mine_pending_transactions (fuel : nat) (self : Blockchain)
    (mining_reward_address : string) (now : Stamp) : outcome Blockchain :=
  match pending_transactions self with
  | [] => Ok self
  | _ :: _ =>
      let reward_transaction :=
        "Mining Reward: " +:+ str_of_int (mining_reward self)
        +:+ " coins to " +:+ mining_reward_address in
      let transactions := pending_transactions self ++ [reward_transaction] in
      let transaction_data := join " | " transactions in
      latest ← get_latest_block self;
      let new_block :=
        Block_init (Z.of_nat (length (chain self))) transaction_data (hash latest)
                   None now in
      new_block ← mine_block fuel new_block (difficulty self);
      Ok (set_pending_transactions (set_chain self (chain self ++ [new_block])) [])
  end.

Definition add_block_direct (fuel : nat) (self : Blockchain) (data : string)
    (now : Stamp) : outcome Blockchain :=
  latest ← get_latest_block self;
  let new_block :=
    Block_init (Z.of_nat (length (chain self))) data (hash latest) None now in
  new_block ← mine_block fuel new_block (difficulty self);
  Ok (set_chain self (chain self ++ [new_block])).

(** The [for] loop of [is_chain_valid] over the indices still to visit.  Every
    index of [range(1, len(self.chain))] and its predecessor are within the
    list, so the last case is never taken. *)
Fixpoint valid_loop (blocks : list Block) (indices : list nat) : bool :=
  match indices with
  | [] => true
  | i :: rest =>
      match blocks !! i, blocks !! (i - 1)%nat with
      | Some current_block, Some previous_block =>
          if negb (hash current_block =? calculate_hash current_block)%string
          then false
          else if negb (previous_hash current_block =? hash previous_block)%string
          then false
          else valid_loop blocks rest
      | _, _ => false
      end
  end.

Definition is_chain_valid (self : Blockchain) : bool :=
  valid_loop (chain self) (seq 1 (length (chain self) - 1)).

(** [float(x)]. *)
Definition to_float (x : string) : outcome float :=
  match py_float x with
  | Some a => Ok a
  | None => Raise ValueError
  end.

(** The body of the inner loop of [get_balance] for one transaction. *)
Definition balance_step (address : string) (balance : float) (transaction : string)
  : outcome float :=
  if contains "sends" transaction && contains "to" transaction then
    let parts := split_ws transaction in
    if (5 <=? length parts)%nat then
      sender ← item parts 0;
      amount ← (x ← item parts 2; to_float x);
      recipient ← item parts 5;
      let balance := if (sender =? address)%string then (balance - amount)%float
                     else balance in
      let balance := if (recipient =? address)%string then (balance + amount)%float
                     else balance in
      Ok balance
    else Ok balance
  else if contains "Mining Reward:" transaction && contains address transaction then
    let parts := split_ws transaction in
    if (3 <=? length parts)%nat then
      amount ← (x ← item parts 2; to_float x);
      Ok (balance + amount)%float
    else Ok balance
  else Ok balance.

Fixpoint balance_transactions (address : string) (balance : float)
    (transactions : list string) : outcome float :=
  match transactions with
  | [] => Ok balance
  | transaction :: rest =>
      balance ← balance_step address balance transaction;
      balance_transactions address balance rest
  end.

Fixpoint balance_blocks (address : string) (balance : float) (blocks : list Block)
  : outcome float :=
  match blocks with
  | [] => Ok balance
  | block :: rest =>
      if index block =? 0 then balance_blocks address balance rest
      else
        let transactions := split_sep " | " (data block) in
        balance ← balance_transactions address balance transactions;
        balance_blocks address balance rest
  end.

(** The running balance starts as the integer 0; the first amount added or
    subtracted makes it a float, as if it had started as 0.0. *)
Definition get_balance (self : Blockchain) (address : string) : outcome float :=
  balance_blocks address 0%float (chain self).

(** What [tamper_with_block] prints. *)
Inductive TamperReport : Type :=
| Tampering (block_index : Z) (original_data new_data : string) (valid_after : bool)
| BlockDoesNotExist (block_index : Z).

Definition tamper_with_block (self : Blockchain) (block_index : Z) (new_data : string)
  : Blockchain * TamperReport :=
  if (0 <=? block_index) && (block_index <? Z.of_nat (length (chain self))) then
    let i := Z.to_nat block_index in
    let original_data := default EmptyString (data <$> chain self !! i) in
    let self := set_chain self (alter (fun b => set_data b new_data) i (chain self)) in
    (self, Tampering block_index original_data new_data (is_chain_valid self))
  else (self, BlockDoesNotExist block_index).

(** [export_chain]: the list handed to [json.dump]. *)
Definition export_chain (self : Blockchain) : list BlockDict :=
  map to_dict (chain self).

(** ** class BlockchainExplorer: the commands that build a chain *)

Record BlockchainExplorer : Type := mkExplorer {
  blockchain : option Blockchain
}.

(** What [create_blockchain] prints. *)
Inductive CreateReport : Type :=
| Created (difficulty : Z)
| DifficultyOutOfRange
| InvalidDifficultyValue.

(** [create_blockchain]; [line] is what [input()] returns. *)
Definition create_blockchain (fuel : nat) (self : BlockchainExplorer) (line : string)
    (now : Stamp) : outcome (BlockchainExplorer * CreateReport) :=
  let difficulty := strip line in
  match (if (difficulty =? EmptyString)%string then Some 2 else py_int difficulty) with
  | None => Ok (self, InvalidDifficultyValue)
  | Some difficulty =>
      if (difficulty <? 1) || (difficulty >? 6) then Ok (self, DifficultyOutOfRange)
      else
        bc ← Blockchain_init fuel difficulty now;
        Ok (mkExplorer (Some bc), Created difficulty)
  end.

(** One pass of the loop of [load_blockchain]: the block built from the
    entry [block_data].  [None] stands for the [KeyError] that
    [block_data[key]] raises when the entry lacks one of the six keys. *)
Definition load_block (block_data : BlockDict) (now : Stamp) : option Block :=
  index ← d_index block_data;
  data ← d_data block_data;
  previous_hash ← d_previous_hash block_data;
  timestamp ← d_timestamp block_data;
  let block := Block_init index data previous_hash (Some timestamp) now in
  hash ← d_hash block_data;
  let block := set_hash block hash in
  nonce ← d_nonce block_data;
  Some (set_nonce block nonce).

(** The [for] loop of [load_blockchain] over the entries still to read, with
    whether it came to its end.  An entry that raises ends the loop; the
    blocks appended before it stay in the chain.  [clock k] is the clock
    when the [k]-th of these entries is read. *)
Fixpoint load_loop (self : Blockchain) (chain_data : list BlockDict)
    (clock : nat -> Stamp) : Blockchain * bool :=
  match chain_data with
  | [] => (self, true)
  | block_data :: rest =>
      match load_block block_data (clock 0%nat) with
      | Some block =>
          load_loop (set_chain self (chain self ++ [block])) rest (clock ∘ S)
      | None => (self, false)
      end
  end.

(** What [load_blockchain] prints. *)
Inductive LoadReport : Type :=
| Loaded (blocks : nat)
| LoadFailed.

(** [load_blockchain] once [json.load] has returned the list [chain_data];
    [now] is the clock when the fresh chain is built.  The exception of an
    entry is caught by [except Exception] after [self.blockchain] has been
    replaced: the call reports the failure and returns.  (A document that
    is no list of dictionaries is caught in the same way: it leaves what
    the empty list leaves, or what a list leaves whose first entry has no
    key.) *)
Definition load_blockchain (fuel : nat) (self : BlockchainExplorer)
    (chain_data : list BlockDict) (now : Stamp) (clock : nat -> Stamp)
  : outcome (BlockchainExplorer * LoadReport) :=
  bc ← Blockchain_init fuel 2 now;
  let bc := set_chain bc [] in
  let (bc, completed) := load_loop bc chain_data clock in
  Ok (mkExplorer (Some bc),
      if completed then Loaded (length (chain bc)) else LoadFailed).

End Model.

(** ** Vocabulary of the statements *)

(** Every character of [s] satisfies [P]. *)
Fixpoint all_chars (P : ascii -> bool) (s : string) : bool :=
  match s with
  | EmptyString => true
  | String c s' => P c && all_chars P s'
  end.

(** A character of the decimal text of an integer. *)
Definition decimal_char (c : ascii) : bool :=
  let n := nat_of_ascii c in
  (n =? 45)%nat || ((48 <=? n)%nat && (n <=? 57)%nat).

(** Reading a JSON string literal back, from behind its opening quote up to
    the closing one: what [json_escape] wrote is undone. *)
Definition unescape_letter (x : ascii) : ascii :=
  let n := nat_of_ascii x in
  if (n =? 110)%nat then ascii_of_nat 10
  else if (n =? 114)%nat then ascii_of_nat 13
  else if (n =? 116)%nat then ascii_of_nat 9
  else if (n =? 102)%nat then ascii_of_nat 12
  else if (n =? 98)%nat then ascii_of_nat 8
  else x.

Definition hex_value (c : ascii) : nat :=
  let n := nat_of_ascii c in
  if (97 <=? n)%nat then (n - 87)%nat else (n - 48)%nat.

Fixpoint json_read (s : string) : string :=
  match s with
  | EmptyString => EmptyString
  | String c s' =>
      if (nat_of_ascii c =? 34)%nat then EmptyString
      else if (nat_of_ascii c =? 92)%nat then
        match s' with
        | String x s'' =>
            if (nat_of_ascii x =? 117)%nat then
              match s'' with
              | String _ (String _ (String h (String l rest))) =>
                  String (ascii_of_nat (16 * hex_value h + hex_value l)) (json_read rest)
              | _ => EmptyString
              end
            else String (unescape_letter x) (json_read s'')
        | EmptyString => EmptyString
        end
      else String c (json_read s')
  end.

(** The call returned a value. *)
Definition returned {A : Type} (m : outcome A) : bool :=
  match m with
  | Ok _ => true
  | _ => false
  end.

(** The value a call returned ([dflt] if it did not return one). *)
Definition run {A : Type} (dflt : A) (m : outcome A) : A :=
  match m with
  | Ok a => a
  | _ => dflt
  end.

(** The reward entry [mine_pending_transactions] writes. *)
Definition reward_entry (reward : Z) (address : string) : string :=
  "Mining Reward: " +:+ str_of_int reward +:+ " coins to " +:+ address.

(** The first test of [get_balance] on an entry. *)
Definition transfer_pattern (transaction : string) : bool :=
  contains "sends" transaction && contains "to" transaction.

Section Vocabulary.
Context {rt : PyRuntime}.

(** [calls] in turn: one [add_block_direct(data)] per entry, at clock [now]. *)
Fixpoint add_blocks (fuel : nat) (self : Blockchain) (calls : list (string * Stamp))
  : outcome Blockchain :=
  match calls with
  | [] => Ok self
  | (data, now) :: rest =>
      self ← add_block_direct fuel self data now;
      add_blocks fuel self rest
  end.

(** The text [calculate_hash] digests. *)
Definition block_string (self : Block) : string :=
  json_dumps_sorted
    [ ("index", JInt (index self));
      ("timestamp", JStamp (timestamp self));
      ("data", JStr (data self));
      ("previous_hash", JStr (previous_hash self));
      ("nonce", JInt (nonce self)) ].

(** What [is_chain_valid] checks of the block at index [i]: its stored digest
    is fresh and its link is the stored digest of the block before it. *)
Definition linked (blocks : list Block) (i : nat) : Prop :=
  exists c p, blocks !! i = Some c /\ blocks !! (i - 1)%nat = Some p
              /\ hash c = calculate_hash c /\ previous_hash c = hash p.



(** Every block has a counter whose digest reaches the target of [d]. *)
Definition minable (d : Z) : Prop :=
  forall b : Block, exists n,
    0 <= n /\ slice_to (calculate_hash (set_nonce b n)) d = str_mul "0" d.

End Vocabulary.

(** ** Histories of a chain

    The three methods that extend a chain or its queue, as the calls of a
    history that starts at the constructor. *)

Section History.
Context {rt : PyRuntime}.

Inductive Call : Type :=
| CallAddTransaction (transaction : string)
| CallMinePendingTransactions (mining_reward_address : string) (now : Stamp)
| CallAddBlockDirect (data : string) (now : Stamp).

Definition call (fuel : nat) (self : Blockchain) (c : Call) : outcome Blockchain :=
  match c with
  | CallAddTransaction transaction => Ok (add_transaction self transaction)
  | CallMinePendingTransactions address now =>
      mine_pending_transactions fuel self address now
  | CallAddBlockDirect data now => add_block_direct fuel self data now
  end.

Fixpoint calls (fuel : nat) (self : Blockchain) (cs : list Call) : outcome Blockchain :=
  match cs with
  | [] => Ok self
  | c :: rest =>
      self ← call fuel self c;
      calls fuel self rest
  end.

(** The state a history leaves: the chain validates, block [k] carries the
    index [k], a fresh digest and the zero prefix of difficulty [d], and the
    first block is a genesis block. *)
Definition built (d : Z) (self : Blockchain) : Prop :=
  difficulty self = d /\ mining_reward self = 100
  /\ (exists g rest, chain self = g :: rest /\ previous_hash g = "0"
        /\ data g = "Genesis Block - The beginning of BlockSim")
  /\ is_chain_valid self = true
  /\ forall k b, chain self !! k = Some b ->
       index b = Z.of_nat k /\ hash b = calculate_hash b
       /\ slice_to (hash b) d = str_mul "0" d.

End History.

(** ** class BlockchainExplorer: the other commands

    A command takes the lines its [input()] calls return (all of them, also
    on a branch that returns before reading one) and the clock readings of
    the blocks it builds, and returns the explorer and what it printed of
    its own.  An exception no command catches ends the session. *)

(** [str(x)] for a float, which an f-string writes for [{x}]. *)
Class PyFormat : Type := {
  str_of_float : float -> string
}.

Module Explorer.
Section Commands.
Context {rt : PyRuntime} {fm : PyFormat}.

(** What [show_stats] prints. *)
Record Stats : Type := mkStats {
  total_blocks : nat;
  stats_difficulty : Z;
  stats_mining_reward : Z;
  pending_count : nat;
  chain_valid : bool;
  total_transactions : nat;
  latest_block : option (string * Stamp)
}.

Inductive Notice : Type :=
| CreateABlockchainFirst
| AllFieldsAreRequired
| InvalidAmount
| NoPendingTransactionsToMine
| BlockDataCannotBeEmpty
| AddressCannotBeEmpty
| NewDataCannotBeEmpty
| InvalidBlockIndex
| BalanceFor (address : string) (balance : float)
| ValidationResult (is_valid : bool)
| Exported (filename : string) (chain_data : list BlockDict)
| Statistics (stats : Stats)
| NothingMore.

Definition add_transaction (self : BlockchainExplorer) (sender recipient amount : string)
  : BlockchainExplorer * Notice :=
  match blockchain self with
  | None => (self, CreateABlockchainFirst)
  | Some bc =>
      let sender := strip sender in
      let recipient := strip recipient in
      let amount := strip amount in
      if negb (sender =? EmptyString)%string && negb (recipient =? EmptyString)%string
         && negb (amount =? EmptyString)%string
      then
        match py_float amount with
        | Some amount =>
            let transaction :=
              sender +:+ " sends " +:+ str_of_float amount +:+ " coins to "
              +:+ recipient in
            (mkExplorer (Some (add_transaction bc transaction)), NothingMore)
        | None => (self, InvalidAmount)
        end
      else (self, AllFieldsAreRequired)
  end.

Definition mine_transactions (fuel : nat) (self : BlockchainExplorer) (line : string)
    (now : Stamp) : outcome (BlockchainExplorer * Notice) :=
  match blockchain self with
  | None => Ok (self, CreateABlockchainFirst)
  | Some bc =>
      match pending_transactions bc with
      | [] => Ok (self, NoPendingTransactionsToMine)
      | _ :: _ =>
          let miner_address := strip line in
          let miner_address :=
            if (miner_address =? EmptyString)%string then "Interactive Miner"
            else miner_address in
          bc ← mine_pending_transactions fuel bc miner_address now;
          Ok (mkExplorer (Some bc), NothingMore)
      end
  end.

Definition add_direct_block (fuel : nat) (self : BlockchainExplorer) (line : string)
    (now : Stamp) : outcome (BlockchainExplorer * Notice) :=
  match blockchain self with
  | None => Ok (self, CreateABlockchainFirst)
  | Some bc =>
      let data := strip line in
      if negb (data =? EmptyString)%string then
        bc ← add_block_direct fuel bc data now;
        Ok (mkExplorer (Some bc), NothingMore)
      else Ok (self, BlockDataCannotBeEmpty)
  end.

Definition check_balance (self : BlockchainExplorer) (line : string) : outcome Notice :=
  match blockchain self with
  | None => Ok CreateABlockchainFirst
  | Some bc =>
      let address := strip line in
      if negb (address =? EmptyString)%string then
        balance ← get_balance bc address;
        Ok (BalanceFor address balance)
      else Ok AddressCannotBeEmpty
  end.

Definition validate_chain (self : BlockchainExplorer) : Notice :=
  match blockchain self with
  | None => CreateABlockchainFirst
  | Some bc => ValidationResult (is_chain_valid bc)
  end.

(** [int()] is applied to the first line as it was typed; when it fails the
    second line is not asked for. *)
Definition tamper_block (self : BlockchainExplorer) (index_line data_line : string)
  : BlockchainExplorer * (Notice + TamperReport) :=
  match blockchain self with
  | None => (self, inl CreateABlockchainFirst)
  | Some bc =>
      match py_int index_line with
      | None => (self, inl InvalidBlockIndex)
      | Some block_index =>
          let new_data := strip data_line in
          if negb (new_data =? EmptyString)%string then
            let (bc, report) := tamper_with_block bc block_index new_data in
            (mkExplorer (Some bc), inr report)
          else (self, inl NewDataCannotBeEmpty)
      end
  end.

(** [export_blockchain]: the file name and the list written to it. *)
Definition export_blockchain (self : BlockchainExplorer) (line : string) : Notice :=
  match blockchain self with
  | None => CreateABlockchainFirst
  | Some bc =>
      let filename := strip line in
      let filename :=
        if (filename =? EmptyString)%string then "blockchain_export.json"
        else filename in
      Exported filename (export_chain bc)
  end.

(** The loop of [show_stats] that counts the entries. *)
Definition count_transactions (blocks : list Block) : nat :=
  fold_left
    (fun total block =>
       if 0 <? index block
       then (total + length (split_sep " | " (data block)))%nat
       else total)
    blocks 0%nat.

Definition show_stats (self : BlockchainExplorer) : Notice :=
  match blockchain self with
  | None => CreateABlockchainFirst
  | Some bc =>
      Statistics
        (mkStats (length (chain bc)) (difficulty bc) (mining_reward bc)
                 (length (pending_transactions bc)) (is_chain_valid bc)
                 (count_transactions (chain bc))
                 ((fun latest => (slice_to (hash latest) 20, timestamp latest))
                    <$> last (chain bc)))
  end.

(** One choice of the menu with what the command reads.  [LoadBlockchain]
    is a load whose file was read; one whose file name is blank, or whose
    file is missing or is not JSON, leaves the explorer as it was, as
    [InvalidChoice] does. *)
Inductive Command : Type :=
| CreateNewBlockchain (line : string) (now : Stamp)
| AddTransaction (sender recipient amount : string)
| MinePendingTransactions (line : string) (now : Stamp)
| AddDirectBlock (line : string) (now : Stamp)
| CheckBalance (line : string)
| ValidateChain
| TamperWithBlock (index_line data_line : string)
| ExportBlockchain (line : string)
| LoadBlockchain (chain_data : list BlockDict) (now : Stamp) (clock : nat -> Stamp)
| BlockchainStats
| Exit
| InvalidChoice.

(** The command a choice runs, by the explorer it leaves. *)
Definition command (fuel : nat) (self : BlockchainExplorer) (c : Command)
  : outcome BlockchainExplorer :=
  match c with
  | CreateNewBlockchain line now =>
      result ← create_blockchain fuel self line now; Ok (fst result)
  | AddTransaction sender recipient amount =>
      Ok (fst (add_transaction self sender recipient amount))
  | MinePendingTransactions line now =>
      result ← mine_transactions fuel self line now; Ok (fst result)
  | AddDirectBlock line now =>
      result ← add_direct_block fuel self line now; Ok (fst result)
  | CheckBalance line => _ ← check_balance self line; Ok self
  | ValidateChain => Ok self
  | TamperWithBlock index_line data_line => Ok (fst (tamper_block self index_line data_line))
  | ExportBlockchain line => Ok self
  | LoadBlockchain chain_data now clock =>
      result ← load_blockchain fuel self chain_data now clock; Ok (fst result)
  | BlockchainStats => Ok self
  | Exit => Ok self
  | InvalidChoice => Ok self
  end.

(** The loop of [run] over the choices made, until [Exit] is chosen or an
    exception ends the session. *)
Fixpoint run (fuel : nat) (self : BlockchainExplorer) (session : list Command)
  : outcome BlockchainExplorer :=
  match session with
  | [] => Ok self
  | Exit :: _ => Ok self
  | c :: rest =>
      self ← command fuel self c;
      run fuel self rest
  end.

End Commands.
End Explorer.

(** ** advanced_features.py: NetworkNode and BlockchainNetwork

    Nodes are objects that refer to one another through their [peers]
    lists.  They live here in a store, the list [nodes] of the network they
    were added to, and a reference to a node is its position in the store;
    a method of a node takes the store and the position of [self] and
    returns the store it leaves.  (A block that is broadcast is one object
    in several chains; no method of these classes writes to a block after
    it was appended, so the chains hold it by value.) *)

Module Network.
Section Nodes.
Context {rt : PyRuntime} {fm : PyFormat}.

(** [stake] and [amount] are annotated [float] and are passed integers by
    the demonstration; an f-string writes either with [str]. *)
Inductive Number : Type :=
| Int (n : Z)
| Float (x : float).

Definition str_of_number (a : Number) : string :=
  match a with
  | Int n => str_of_int n
  | Float x => str_of_float x
  end.

Record NetworkNode : Type := mkNode {
  node_id : string;
  stake : Number;
  blockchain : Blockchain;
  peers : list nat;
  is_online : bool
}.

Definition set_blockchain (self : NetworkNode) (v : Blockchain) : NetworkNode :=
  mkNode (node_id self) (stake self) v (peers self) (is_online self).

Definition set_peers (self : NetworkNode) (v : list nat) : NetworkNode :=
  mkNode (node_id self) (stake self) (blockchain self) v (is_online self).

Definition set_is_online (self : NetworkNode) (v : bool) : NetworkNode :=
  mkNode (node_id self) (stake self) (blockchain self) (peers self) v.

(** [NetworkNode(node_id, stake)]. *)
Definition NetworkNode_init (fuel : nat) (node_id : string) (stake : Number)
    (now : Stamp) : outcome NetworkNode :=
  bc ← Blockchain_init fuel 2 now;
  Ok (mkNode node_id stake bc [] true).

(** [self.add_peer(peer)]. *)
Definition add_peer (store : list NetworkNode) (self peer : nat) : list NetworkNode :=
  match store !! self with
  | Some node =>
      if negb (existsb (Nat.eqb peer) (peers node)) then
        let store := alter (fun n => set_peers n (peers n ++ [peer])) self store in
        alter (fun n => set_peers n (peers n ++ [self])) peer store
      else store
  | None => store
  end.

(** [self.validate_and_add_block(block)], with the value it returns. *)
Definition validate_and_add_block (self : NetworkNode) (block : Block)
  : outcome (NetworkNode * bool) :=
  let bc := blockchain self in
  if Z.of_nat (length (chain bc)) =? index block then
    latest ← get_latest_block bc;
    if (hash latest =? previous_hash block)%string
    then Ok (set_blockchain self (set_chain bc (chain bc ++ [block])), true)
    else Ok (self, false)
  else Ok (self, false).

(** The [for] loop of [broadcast_block] over the peers still to visit. *)
Fixpoint broadcast_loop (store : list NetworkNode) (rest : list nat) (block : Block)
  : outcome (list NetworkNode) :=
  match rest with
  | [] => Ok store
  | p :: rest =>
      match store !! p with
      | Some peer =>
          if is_online peer then
            result ← validate_and_add_block peer block;
            broadcast_loop (<[p := fst result]> store) rest block
          else broadcast_loop store rest block
      | None => broadcast_loop store rest block
      end
  end.

Definition broadcast_block (store : list NetworkNode) (self : nat) (block : Block)
  : outcome (list NetworkNode) :=
  match store !! self with
  | Some node =>
      if negb (is_online node) then Ok store
      else broadcast_loop store (peers node) block
  | None => Ok store
  end.

(** [self.mine_block(data)]. *)
Definition mine_block (fuel : nat) (store : list NetworkNode) (self : nat)
    (data : string) (now : Stamp) : outcome (list NetworkNode) :=
  match store !! self with
  | Some node =>
      if negb (is_online node) then Ok store
      else
        let bc := blockchain node in
        latest ← get_latest_block bc;
        let new_block :=
          Block_init (Z.of_nat (length (chain bc)))
                     ("[" +:+ node_id node +:+ "] " +:+ data) (hash latest) None now in
        new_block ← mine_block fuel new_block (difficulty bc);
        let node := set_blockchain node (set_chain bc (chain bc ++ [new_block])) in
        broadcast_block (<[self := node]> store) self new_block
  | None => Ok store
  end.

Record BlockchainNetwork : Type := mkNetwork {
  nodes : list NetworkNode;
  transaction_pool : list string
}.

Definition BlockchainNetwork_init : BlockchainNetwork := mkNetwork [] [].

(** [self.add_node(node_id, stake)]: the network and the node it returns. *)
Definition add_node (fuel : nat) (self : BlockchainNetwork) (node_id : string)
    (stake : Number) (now : Stamp) : outcome (BlockchainNetwork * nat) :=
  node ← NetworkNode_init fuel node_id stake now;
  let me := length (nodes self) in
  let store := nodes self ++ [node] in
  let store := fold_left (fun store existing_node => add_peer store me existing_node)
                         (seq 0 me) store in
  Ok (mkNetwork store (transaction_pool self), me).

Definition simulate_transaction (self : BlockchainNetwork) (sender receiver : string)
    (amount : Number) : BlockchainNetwork :=
  let transaction :=
    sender +:+ " sends " +:+ str_of_number amount +:+ " coins to " +:+ receiver in
  mkNetwork (nodes self) (transaction_pool self ++ [transaction]).

(** [[node for node in self.nodes if node.is_online]], as positions. *)
Definition online_nodes (store : list NetworkNode) : list nat :=
  List.filter (fun i => default false (is_online <$> store !! i))
              (seq 0 (length store)).

(** [self.random_mining_round()]; [choice] is the position [random.choice]
    draws in the list of online nodes, which is always within that list. *)
Definition random_mining_round (fuel : nat) (self : BlockchainNetwork) (choice : nat)
    (now : Stamp) : outcome BlockchainNetwork :=
  match transaction_pool self, nodes self with
  | [], _ | _, [] => Ok self
  | _ :: _, _ :: _ =>
      match online_nodes (nodes self) !! choice with
      | None => Ok self
      | Some miner =>
          let transactions := join " | " (transaction_pool self) in
          store ← mine_block fuel (nodes self) miner transactions now;
          Ok (mkNetwork store [])
      end
  end.

(** The last digest of a chain, [""] for a chain without blocks. *)
Definition tip (self : NetworkNode) : string :=
  match last (chain (blockchain self)) with
  | Some b => hash b
  | None => EmptyString
  end.

(** [self.check_consensus()]. *)
Definition check_consensus (self : BlockchainNetwork) : bool :=
  match nodes self with
  | [] => true
  | _ :: _ =>
      match List.filter is_online (nodes self) with
      | [] => true
      | reference_node :: others =>
          let ref_length := length (chain (blockchain reference_node)) in
          let ref_hash := tip reference_node in
          forallb
            (fun node =>
               negb (negb (length (chain (blockchain node)) =? ref_length)%nat
                     || (negb (length (chain (blockchain node)) =? 0)%nat
                         && negb (tip node =? ref_hash)%string)))
            others
      end
  end.

(** What the statements about a broadcast say of one node: the node with
    [block] appended to its chain, and whether a node takes [block]. *)
Definition append_block (self : NetworkNode) (block : Block) : NetworkNode :=
  set_blockchain self
    (set_chain (blockchain self) (chain (blockchain self) ++ [block])).

Definition accepts (block : Block) (self : NetworkNode) : bool :=
  (Z.of_nat (length (chain (blockchain self))) =? index block)
  && (tip self =? previous_hash block)%string.

Definition deliver (block : Block) (self : NetworkNode) : NetworkNode :=
  if is_online self && accepts block self then append_block self block else self.

(** [add_node] for each entry of [calls] in turn. *)
Fixpoint add_nodes (fuel : nat) (self : BlockchainNetwork)
    (calls : list (string * Number * Stamp)) : outcome BlockchainNetwork :=
  match calls with
  | [] => Ok self
  | (node_id, stake, now) :: rest =>
      result ← add_node fuel self node_id stake now;
      add_nodes fuel (fst result) rest
  end.

End Nodes.
End Network.

(** ** app.py: the web application

    The application keeps one chain in the global [blockchain], [None]
    until the first request that needs it.  A request is modelled by what
    it does to that global; pages and JSON answers are not modelled, except
    the answer of [/validate].  [clock k] is the reading of the clock for
    the [k]-th block the request builds.  An exception raised while a page
    is put together is answered by an error page and leaves the global as
    it is. *)

Module Web.
Section App.
Context {rt : PyRuntime}.

Definition init_blockchain (fuel : nat) (now : Stamp) : outcome Blockchain :=
  Blockchain_init fuel 2 now.

(** [get_blockchain()], with the global it leaves. *)
Definition get_blockchain (fuel : nat) (blockchain : option Blockchain) (now : Stamp)
  : outcome Blockchain :=
  match blockchain with
  | None => init_blockchain fuel now
  | Some bc => Ok bc
  end.

(** [GET /demo]; the calls are those of the chain. *)
Definition demo (fuel : nat) (clock : nat -> Stamp) : outcome (option Blockchain) :=
  bc ← init_blockchain fuel (clock 0%nat);
  let bc := add_transaction bc "Alice sends 50 coins to Bob" in
  let bc := add_transaction bc "Bob sends 25 coins to Charlie" in
  bc ← mine_pending_transactions fuel bc "Miner1" (clock 1%nat);
  let bc := add_transaction bc "Charlie sends 10 coins to Diana" in
  let bc := add_transaction bc "Diana sends 5 coins to Eve" in
  bc ← mine_pending_transactions fuel bc "Miner2" (clock 2%nat);
  Ok (Some bc).

(** [POST /add_transaction] with the three fields of the form. *)
Definition add_transaction (fuel : nat) (blockchain : option Blockchain)
    (sender receiver amount : string) (now : Stamp) : outcome (option Blockchain) :=
  if negb (sender =? EmptyString)%string && negb (receiver =? EmptyString)%string
     && negb (amount =? EmptyString)%string
  then
    let transaction := sender +:+ " sends " +:+ amount +:+ " coins to " +:+ receiver in
    bc ← get_blockchain fuel blockchain now;
    Ok (Some (add_transaction bc transaction))
  else Ok blockchain.

(** [POST /mine]; [miner_address] is the field of the form, if it has one. *)
Definition mine_block (fuel : nat) (blockchain : option Blockchain)
    (miner_address : option string) (clock : nat -> Stamp) : outcome (option Blockchain) :=
  bc ← get_blockchain fuel blockchain (clock 0%nat);
  let miner_address := default "Web Miner" miner_address in
  match pending_transactions bc with
  | _ :: _ =>
      bc ← mine_pending_transactions fuel bc miner_address (clock 1%nat);
      Ok (Some bc)
  | [] => Ok (Some bc)
  end.

(** [GET /validate], with the value of ['valid'] in the answer. *)
Definition validate_chain (fuel : nat) (blockchain : option Blockchain) (now : Stamp)
  : outcome (option Blockchain * bool) :=
  bc ← get_blockchain fuel blockchain now;
  Ok (Some bc, is_chain_valid bc).

Definition reset_blockchain (fuel : nat) (now : Stamp) : outcome (option Blockchain) :=
  bc ← init_blockchain fuel now;
  Ok (Some bc).

(** The requests the application answers. *)
Inductive Request : Type :=
| GetIndex
| GetBlockchain
| GetAddTransaction
| PostAddTransaction (sender receiver amount : string)
| GetTransactions
| PostMine (miner_address : option string)
| GetValidate
| GetReset
| GetApiStats
| GetApiBlocks
| GetApiBalances
| GetDemo.

(** The global after a request. *)
Definition serve (fuel : nat) (blockchain : option Blockchain) (request : Request)
    (clock : nat -> Stamp) : outcome (option Blockchain) :=
  match request with
  | GetAddTransaction => Ok blockchain
  | PostAddTransaction sender receiver amount =>
      add_transaction fuel blockchain sender receiver amount (clock 0%nat)
  | PostMine miner_address => mine_block fuel blockchain miner_address clock
  | GetValidate =>
      answer ← validate_chain fuel blockchain (clock 0%nat); Ok (fst answer)
  | GetReset => reset_blockchain fuel (clock 0%nat)
  | GetDemo => demo fuel clock
  | GetIndex | GetBlockchain | GetTransactions | GetApiStats | GetApiBlocks
  | GetApiBalances =>
      bc ← get_blockchain fuel blockchain (clock 0%nat); Ok (Some bc)
  end.

(** The requests of [session] in turn, from the global [blockchain]. *)
Fixpoint serve_all (fuel : nat) (blockchain : option Blockchain)
    (session : list (Request * (nat -> Stamp))) : outcome (option Blockchain) :=
  match session with
  | [] => Ok blockchain
  | (request, clock) :: rest =>
      blockchain ← serve fuel blockchain request clock;
      serve_all fuel blockchain rest
  end.

End App.
End Web.

(** Entries of a payload.  An entry without the character [|] cannot hold or
    straddle the separator [" | "] that [mine_pending_transactions] joins
    the entries with. *)
Definition no_bar (s : string) : bool :=
  all_chars (fun c => negb (Ascii.eqb c "|")) s.

(** A non-empty run of characters that are neither white space nor [|]. *)
Definition word (s : string) : bool :=
  negb (s =? EmptyString)%string
  && all_chars (fun c => negb (isspace c) && negb (Ascii.eqb c "|")) s.

(** The entry the explorer and the demonstrations write for a transfer:
    [f"{sender} sends {amount} coins to {recipient}"], with the text of the
    amount given. *)
Definition transfer_entry (sender amount recipient : string) : string :=
  sender +:+ " sends " +:+ amount +:+ " coins to " +:+ recipient.

(** ** A reference runtime

    SHA-256 as FIPS 180-4 defines it, over the bytes of the (ASCII) JSON text;
    timestamps that are whole numbers of seconds, so that [json.dumps] writes
    them as the integer followed by [.0]; [float()] and [int()] on plain
    decimal literals.  The theorems below hold for every runtime; this one
    evaluates them on concrete runs. *)

Module Reference.

Definition mask32 : Z := 4294967295.
Definition w32 (x : Z) : Z := Z.land x mask32.

Definition rotr (n x : Z) : Z := w32 (Z.lor (Z.shiftr x n) (Z.shiftl x (32 - n))).
Definition shr (n x : Z) : Z := Z.shiftr x n.

Definition Ch (x y z : Z) : Z := Z.lxor (Z.land x y) (Z.land (Z.lnot x) z).
Definition Maj (x y z : Z) : Z :=
  Z.lxor (Z.lxor (Z.land x y) (Z.land x z)) (Z.land y z).
Definition Sigma0 (x : Z) : Z := Z.lxor (Z.lxor (rotr 2 x) (rotr 13 x)) (rotr 22 x).
Definition Sigma1 (x : Z) : Z := Z.lxor (Z.lxor (rotr 6 x) (rotr 11 x)) (rotr 25 x).
Definition sigma0 (x : Z) : Z := Z.lxor (Z.lxor (rotr 7 x) (rotr 18 x)) (shr 3 x).
Definition sigma1 (x : Z) : Z := Z.lxor (Z.lxor (rotr 17 x) (rotr 19 x)) (shr 10 x).

(** The round constants and the initial state are the leading fractional bits
    of the cube and square roots of the first primes; they are computed here
    rather than tabulated. *)
Definition is_prime (n : nat) : bool :=
  (2 <=? n)%nat && forallb (fun d => negb (n mod d =? 0)%nat) (seq 2 (n - 2)).

Definition first_primes : list Z :=
  Eval vm_compute in map Z.of_nat (filter is_prime (seq 2 310)).

(** The integer cube root, one bit at a time from bit [bits - 1] down. *)
Fixpoint icbrt_from (bits : nat) (n r : Z) : Z :=
  match bits with
  | O => r
  | S b =>
      let r' := r + Z.shiftl 1 (Z.of_nat b) in
      icbrt_from b n (if r' * r' * r' <=? n then r' else r)
  end.

Definition K256 : list Z :=
  Eval vm_compute in
    map (fun p => w32 (icbrt_from 40 (p * Z.shiftl 1 96) 0)) first_primes.

Definition H256 : list Z :=
  Eval vm_compute in
    map (fun p => w32 (Z.sqrt (p * Z.shiftl 1 64))) (take 8 first_primes).

Definition bytes_of_string (s : string) : list Z :=
  map (fun c => Z.of_nat (nat_of_ascii c)) (list_ascii_of_string s).

(** Big-endian bytes of [x], [n] of them. *)
Fixpoint be_bytes (n : nat) (x : Z) : list Z :=
  match n with
  | O => []
  | S n' => Z.land (Z.shiftr x (8 * Z.of_nat n')) 255 :: be_bytes n' x
  end.

Definition pad (msg : list Z) : list Z :=
  let len := Z.of_nat (length msg) in
  msg ++ [128] ++ repeat 0 (Z.to_nat ((55 - len) mod 64)) ++ be_bytes 8 (8 * len).

Fixpoint words_of_bytes (fuel : nat) (bs : list Z) : list Z :=
  match fuel, bs with
  | S fuel', b0 :: b1 :: b2 :: b3 :: rest =>
      (Z.shiftl b0 24 + Z.shiftl b1 16 + Z.shiftl b2 8 + b3)
      :: words_of_bytes fuel' rest
  | _, _ => []
  end.

Fixpoint chunks16 (fuel : nat) (ws : list Z) : list (list Z) :=
  match fuel, ws with
  | S fuel', _ :: _ => take 16 ws :: chunks16 fuel' (drop 16 ws)
  | _, _ => []
  end.

(** The message schedule: [rounds] more words after those of [w]. *)
Fixpoint schedule (rounds : nat) (w : list Z) : list Z :=
  match rounds with
  | O => w
  | S rounds' =>
      let t := length w in
      let at_ (k : nat) := nth (t - k) w 0 in
      schedule rounds'
        (w ++ [w32 (sigma1 (at_ 2%nat) + at_ 7%nat + sigma0 (at_ 15%nat) + at_ 16%nat)])
  end.

Record regs : Type := mkRegs { ra : Z; rb : Z; rc : Z; rd : Z; re : Z; rf : Z; rg : Z; rh : Z }.

Definition round (s : regs) (kw : Z * Z) : regs :=
  let t1 := rh s + Sigma1 (re s) + Ch (re s) (rf s) (rg s) + fst kw + snd kw in
  let t2 := Sigma0 (ra s) + Maj (ra s) (rb s) (rc s) in
  mkRegs (w32 (t1 + t2)) (ra s) (rb s) (rc s) (w32 (rd s + t1)) (re s) (rf s) (rg s).

Definition compress (h : regs) (block : list Z) : regs :=
  let s := fold_left round (combine K256 (schedule 48 block)) h in
  mkRegs (w32 (ra h + ra s)) (w32 (rb h + rb s)) (w32 (rc h + rc s)) (w32 (rd h + rd s))
         (w32 (re h + re s)) (w32 (rf h + rf s)) (w32 (rg h + rg s)) (w32 (rh h + rh s)).

Definition initial_regs : regs :=
  let h (k : nat) := nth k H256 0 in
  mkRegs (h 0%nat) (h 1%nat) (h 2%nat) (h 3%nat) (h 4%nat) (h 5%nat) (h 6%nat) (h 7%nat).

Definition hex_of_byte (b : Z) : string :=
  String (hex_digit (Z.to_nat (b / 16))) (String (hex_digit (Z.to_nat (b mod 16))) EmptyString).

Definition hex_of_word (x : Z) : string :=
  String.concat EmptyString (map hex_of_byte (be_bytes 4 x)).

Definition sha256 (s : string) : string :=
  let bs := pad (bytes_of_string s) in
  let ws := words_of_bytes (length bs) bs in
  let h := fold_left compress (chunks16 (length ws) ws) initial_regs in
  String.concat EmptyString
    (map hex_of_word [ra h; rb h; rc h; rd h; re h; rf h; rg h; rh h]).

(** Decimal literals. *)
Definition digit_of (c : ascii) : option Z :=
  let n := nat_of_ascii c in
  if (48 <=? n)%nat && (n <=? 57)%nat then Some (Z.of_nat (n - 48)) else None.

(** The value of a non-empty run of decimal digits. *)
Fixpoint digits_from (acc : Z) (s : string) : option Z :=
  match s with
  | EmptyString => Some acc
  | String c s' =>
      match digit_of c with
      | Some d => digits_from (10 * acc + d) s'
      | None => None
      end
  end.

Definition digits (s : string) : option Z :=
  match s with
  | EmptyString => None
  | _ => digits_from 0 s
  end.

(** An optional sign, split off. *)
Definition signed (s : string) : bool * string :=
  match s with
  | String "-" s' => (true, s')
  | String "+" s' => (false, s')
  | _ => (false, s)
  end.

(** [int(s)] on an optionally signed run of digits. *)
Definition int_of_string (s : string) : option Z :=
  let (neg, body) := signed s in
  n ← digits body;
  Some (if neg then - n else n).

(** The binary64 value of a natural number below 2^53, digit by digit
    (every intermediate value is exact). *)
Fixpoint float_of_digits (acc : float) (s : string) : float :=
  match s with
  | EmptyString => acc
  | String c s' =>
      let d := match digit_of c with
               | Some 1 => 1 | Some 2 => 2 | Some 3 => 3 | Some 4 => 4 | Some 5 => 5
               | Some 6 => 6 | Some 7 => 7 | Some 8 => 8 | Some 9 => 9 | _ => 0
               end%float in
      float_of_digits (acc * 10 + d)%float s'
  end.

Definition before_dot (s : string) : string :=
  match split_sep "." s with
  | x :: _ => x
  | [] => EmptyString
  end.

Definition after_dot (s : string) : string :=
  match split_sep "." s with
  | [_; y] => y
  | _ => EmptyString
  end.

(** [float(s)] on an optionally signed decimal literal with at most one point
    and at most fifteen digits: numerator and power of ten are exact, so one
    division rounds correctly. *)
Definition float_of_string (s : string) : option float :=
  let (neg, body) := signed s in
  let ip := before_dot body in
  let fp := after_dot body in
  if (2 <? length (split_sep "." body))%nat then None
  else
    _ ← digits (ip +:+ fp);
    if (15 <? String.length (ip +:+ fp))%nat then None
    else
      let num := float_of_digits 0%float (ip +:+ fp) in
      let den := float_of_digits 1%float (str_repeat "0" (String.length fp)) in
      Some (if neg then (- (num / den))%float else (num / den)%float).

#[global]
Instance runtime : PyRuntime := {|
  Stamp := Z;
  stamp_truthy := fun t => negb (t =? 0);
  json_stamp := fun t => str_of_int t +:+ ".0";
  sha256_hexdigest := sha256;
  py_float := float_of_string;
  py_int := int_of_string
|}.

End Reference.

(** ** A reference for str() of a float

    [repr] writes the shortest run of decimal digits that reads back as the
    same binary64 value, the one nearest to the value when several do, in
    positional notation when the decimal exponent is from -3 to 16 and in
    exponent notation otherwise.  The value is [m * 2^e]; it and the two
    halfway points to its neighbours are kept as integer numerators over
    the common denominator [Q]. *)

Module Repr.

(** From a lower estimate [k], the least exponent with [V / Q < 10^k]. *)
Fixpoint raise_exponent (fuel : nat) (V Q k : Z) : Z :=
  match fuel with
  | O => k
  | S fuel' =>
      if 10 ^ Z.max k 0 * Q <=? V * 10 ^ Z.max (- k) 0
      then raise_exponent fuel' V Q (k + 1)
      else k
  end.

Definition decimal_exponent (V Q : Z) : Z :=
  let estimate := (Z.log2 V - Z.log2 Q) * 1233 / 4096 - 2 in
  raise_exponent 8 V Q estimate.

(** The numerator [q] of the text [q * 10^(k - n)] of [n] digits, if one of
    the two such texts around the value rounds to it. *)
Definition candidate (V Q low high : Z) (inclusive : bool) (k n : Z) : option Z :=
  let s := k - n in
  let A := Q * 10 ^ Z.max s 0 in
  let B := 10 ^ Z.max (- s) 0 in
  let inside (q : Z) :=
    if inclusive then (low * B <=? q * A) && (q * A <=? high * B)
    else (low * B <? q * A) && (q * A <? high * B) in
  let q_lo := V * B / A in
  let q_hi := q_lo + 1 in
  let d_lo := V * B - q_lo * A in
  let d_hi := q_hi * A - V * B in
  match inside q_lo, inside q_hi with
  | true, true =>
      if d_lo <? d_hi then Some q_lo
      else if d_hi <? d_lo then Some q_hi
      else Some (if Z.even q_lo then q_lo else q_hi)
  | true, false => Some q_lo
  | false, true => Some q_hi
  | false, false => None
  end.

(** The first number of digits, from [n] on, that has a candidate. *)
Fixpoint shortest (fuel : nat) (V Q low high : Z) (inclusive : bool) (k n : Z)
  : Z * Z :=
  match fuel with
  | O => (0, n)
  | S fuel' =>
      match candidate V Q low high inclusive k n with
      | Some q => (q, n)
      | None => shortest fuel' V Q low high inclusive k (n + 1)
      end
  end.

Fixpoint strip_zeros (fuel : nat) (q : Z) : Z :=
  match fuel with
  | O => q
  | S fuel' =>
      if (q mod 10 =? 0) && negb (q =? 0) then strip_zeros fuel' (q / 10) else q
  end.

Fixpoint str_drop (n : nat) (s : string) : string :=
  match n, s with
  | S n', String _ s' => str_drop n' s'
  | _, _ => s
  end.

(** The text of the positive value [m * 2^e]. *)
Definition repr_finite (m e : Z) : string :=
  let U := 2 ^ Z.max e 0 in
  let Q := 4 * 2 ^ Z.max (- e) 0 in
  let V := 4 * m * U in
  let boundary := (m =? 2 ^ 52) && (-1074 <? e) in
  let high := V + 2 * U in
  let low := V - (if boundary then U else 2 * U) in
  let k := decimal_exponent V Q in
  let (q, n) := shortest 17 V Q low high (Z.even m) k 1 in
  let ds := str_of_int (strip_zeros 17 q) in
  let decpt := k + (Z.of_nat (String.length (str_of_int q)) - n) in
  let L := Z.of_nat (String.length ds) in
  if (-4 <? decpt) && (decpt <=? 16) then
    if decpt <=? 0 then "0." +:+ str_repeat "0" (Z.to_nat (- decpt)) +:+ ds
    else if L <=? decpt then ds +:+ str_repeat "0" (Z.to_nat (decpt - L)) +:+ ".0"
    else str_take (Z.to_nat decpt) ds +:+ "." +:+ str_drop (Z.to_nat decpt) ds
  else
    let x := decpt - 1 in
    str_take 1 ds
    +:+ (if 1 <? L then "." +:+ str_drop 1 ds else EmptyString)
    +:+ "e" +:+ (if x <? 0 then "-" else "+")
    +:+ (if Z.abs x <? 10 then "0" else EmptyString) +:+ str_of_int (Z.abs x).

Definition float_repr (x : float) : string :=
  match FloatOps.Prim2SF x with
  | SpecFloat.S754_nan => "nan"
  | SpecFloat.S754_infinity false => "inf"
  | SpecFloat.S754_infinity true => "-inf"
  | SpecFloat.S754_zero false => "0.0"
  | SpecFloat.S754_zero true => "-0.0"
  | SpecFloat.S754_finite s m e =>
      (if s then "-" else EmptyString) +:+ repr_finite (Zpos m) e
  end.

#[global]
Instance format : PyFormat := {| str_of_float := float_repr |}.

End Repr.

(** ** Strings *)

Section Strings.

Lemma append_nil_r (s : string) : s +:+ EmptyString = s.
Proof. induction s as [|c s IH]; simpl; [done | by rewrite IH]. Qed.

Lemma append_assoc (s1 s2 s3 : string) : (s1 +:+ s2) +:+ s3 = s1 +:+ (s2 +:+ s3).
Proof. induction s1 as [|c s1 IH]; simpl; [done | by rewrite IH]. Qed.

Lemma string_of_list_ascii_snoc (l : list ascii) (c : ascii) :
  string_of_list_ascii (l ++ [c]) = string_of_list_ascii l +:+ String c EmptyString.
Proof. induction l as [|a l IH]; simpl; [done | by rewrite IH]. Qed.

Lemma rev_string_cons (c : ascii) (s : string) :
  rev_string (String c s) = rev_string s +:+ String c EmptyString.
Proof. unfold rev_string. simpl. apply string_of_list_ascii_snoc. Qed.

Lemma prefix_refl_app (p s : string) : String.prefix p (p +:+ s) = true.
Proof.
  induction p as [|a p IH]; simpl; [by destruct s|].
  by destruct (ascii_dec a a).
Qed.

Lemma contains_of_prefix (p s : string) : String.prefix p s = true -> contains p s = true.
Proof. intros H. destruct s; simpl in *; by rewrite H. Qed.

Lemma contains_app_r (p s1 s2 : string) :
  contains p s2 = true -> contains p (s1 +:+ s2) = true.
Proof.
  intros H. induction s1 as [|c s1 IH]; simpl; [done|].
  rewrite IH. apply orb_true_r.
Qed.

(** A pattern without the character [c] cannot straddle an occurrence of [c]. *)
Lemma prefix_app_sep (p s1 s2 : string) (c : ascii) :
  all_chars (fun a => negb (Ascii.eqb a c)) p = true ->
  String.prefix p (s1 +:+ String c s2) = String.prefix p s1.
Proof.
  revert p. induction s1 as [|b s1 IH]; intros [|a p] Hp; simpl in *; try done.
  - apply andb_true_iff in Hp as [Ha _]. destruct (ascii_dec a c) as [->|]; [|done].
    by rewrite Ascii.eqb_refl in Ha.
  - apply andb_true_iff in Hp as [_ Hp]. destruct (ascii_dec a b); [by apply IH | done].
Qed.

Lemma contains_app_sep (p s1 s2 : string) (c : ascii) :
  all_chars (fun a => negb (Ascii.eqb a c)) p = true ->
  contains p (s1 +:+ String c s2) = contains p s1 || contains p s2.
Proof.
  intros Hp. induction s1 as [|b s1 IH].
  - change (contains p (EmptyString +:+ String c s2))
      with (String.prefix p (EmptyString +:+ String c s2) || contains p s2).
    rewrite prefix_app_sep by done. simpl. by rewrite orb_false_r.
  - change (contains p (String b s1 +:+ String c s2))
      with (String.prefix p (String b s1 +:+ String c s2)
            || contains p (s1 +:+ String c s2)).
    rewrite prefix_app_sep, IH by done. simpl. by rewrite orb_assoc.
Qed.

(** A pattern that starts with a character foreign to [s] does not occur in [s]. *)
Lemma contains_foreign (P : ascii -> bool) (a : ascii) (p s : string) :
  P a = false -> all_chars P s = true -> contains (String a p) s = false.
Proof.
  intros Ha. induction s as [|b s IH]; simpl; [done|].
  intros [Hb Hs]%andb_true_iff. rewrite IH by done.
  destruct (ascii_dec a b) as [->|]; [congruence | done].
Qed.

Lemma string_of_uint_chars (d : Decimal.uint) :
  all_chars decimal_char (NilEmpty.string_of_uint d) = true.
Proof. induction d; simpl; done. Qed.

Lemma str_of_int_chars (n : Z) : all_chars decimal_char (str_of_int n) = true.
Proof.
  unfold str_of_int, NilZero.string_of_int, NilZero.string_of_uint.
  destruct (Z.to_int n) as [d|d]; destruct d; simpl;
    rewrite ?string_of_uint_chars; done.
Qed.

Lemma str_of_int_nonempty (n : Z) : str_of_int n <> EmptyString.
Proof.
  unfold str_of_int, NilZero.string_of_int, NilZero.string_of_uint.
  destruct (Z.to_int n) as [d|d]; destruct d; done.
Qed.

Lemma all_chars_impl (P Q : ascii -> bool) (s : string) :
  (forall c, P c = true -> Q c = true) -> all_chars P s = true -> all_chars Q s = true.
Proof.
  intros HPQ. induction s as [|c s IH]; simpl; [done|].
  intros [Hc Hs]%andb_true_iff. by rewrite HPQ, IH.
Qed.

Lemma decimal_char_not_space (c : ascii) : decimal_char c = true -> negb (isspace c) = true.
Proof. destruct c as [[|] [|] [|] [|] [|] [|] [|] [|]]; done. Qed.

(** A run of non-space characters followed by a space is one word. *)
Lemma split_ws_from_word (w rest cur : string) :
  all_chars (fun c => negb (isspace c)) w = true ->
  w <> EmptyString \/ cur <> EmptyString ->
  split_ws_from cur (w +:+ String " " rest)
  = (rev_string cur +:+ w) :: split_ws_from EmptyString rest.
Proof.
  revert cur. induction w as [|c w IH]; intros cur Hw Hne.
  - destruct Hne as [|Hne]; [done|]. simpl. rewrite append_nil_r.
    by destruct cur.
  - simpl in Hw. apply andb_true_iff in Hw as [Hc Hw]. simpl.
    destruct (isspace c); [done|].
    rewrite IH by (done || by right). by rewrite rev_string_cons, append_assoc.
Qed.

Lemma split_ws_word (w rest : string) :
  all_chars (fun c => negb (isspace c)) w = true ->
  w <> EmptyString ->
  split_ws (w +:+ String " " rest) = w :: split_ws rest.
Proof.
  intros Hw Hne. unfold split_ws. rewrite split_ws_from_word by (done || by left). done.
Qed.

(** The reward entry has the words [Mining], [Reward:] and the amount first,
    and contains [sends] only if the address does. *)
Lemma reward_entry_words (reward : Z) (address : string) :
  exists more, split_ws (reward_entry reward address)
               = "Mining" :: "Reward:" :: str_of_int reward :: more.
Proof.
  unfold reward_entry.
  change ("Mining Reward: " +:+ str_of_int reward +:+ " coins to " +:+ address)
    with ("Mining" +:+ String " " ("Reward:" +:+ String " "
            (str_of_int reward +:+ String " " ("coins to " +:+ address)))).
  rewrite (split_ws_word "Mining"), (split_ws_word "Reward:") by done.
  rewrite (split_ws_word (str_of_int reward)).
  - by eexists.
  - apply (all_chars_impl decimal_char); [apply decimal_char_not_space|].
    apply str_of_int_chars.
  - apply str_of_int_nonempty.
Qed.

Lemma reward_entry_sends (reward : Z) (address : string) :
  contains "sends" (reward_entry reward address) = contains "sends" address.
Proof.
  unfold reward_entry.
  change ("Mining Reward: " +:+ str_of_int reward +:+ " coins to " +:+ address)
    with ("Mining" +:+ String " " ("Reward:" +:+ String " "
            (str_of_int reward +:+ String " " ("coins" +:+ String " "
               ("to" +:+ String " " address))))).
  rewrite !contains_app_sep by done.
  rewrite (contains_foreign decimal_char _ _ (str_of_int reward))
    by (done || apply str_of_int_chars).
  done.
Qed.

Lemma reward_entry_marker (reward : Z) (address : string) :
  contains "Mining Reward:" (reward_entry reward address) = true.
Proof.
  apply contains_of_prefix. unfold reward_entry.
  change ("Mining Reward: " +:+ str_of_int reward +:+ " coins to " +:+ address)
    with ("Mining Reward:" +:+ (" " +:+ str_of_int reward +:+ " coins to " +:+ address)).
  apply prefix_refl_app.
Qed.

Lemma append_inv_head (p s t : string) : p +:+ s = p +:+ t -> s = t.
Proof. induction p as [|c p IH]; simpl; [done|]. intros [= H]. by apply IH. Qed.

(** A character as [json_escape] wrote it is read back as it was. *)
Lemma json_read_char (c : ascii) (rest : string) :
  json_read (json_escape_char c +:+ rest) = String c (json_read rest).
Proof. destruct c as [[] [] [] [] [] [] [] []]; reflexivity. Qed.

(** ... and so is a string, up to the quote that closes its literal. *)
Lemma json_read_escape (s rest : string) :
  json_read (json_escape s +:+ dquote +:+ rest) = s.
Proof.
  induction s as [|c s IH]; [done|].
  cbn [json_escape]. rewrite append_assoc, json_read_char. by rewrite IH.
Qed.

End Strings.

(** ** The proof-of-work loop *)

Section Mining.
Context {rt : PyRuntime}.

Lemma calculate_hash_set_hash (b : Block) (h : string) :
  calculate_hash (set_hash b h) = calculate_hash b.
Proof. reflexivity. Qed.

Lemma calculate_hash_nonce_irrel (b : Block) (h : string) (m n : Z) :
  calculate_hash (set_nonce (set_hash (set_nonce b m) h) n)
  = calculate_hash (set_nonce b n).
Proof. reflexivity. Qed.

Lemma set_nonce_same (b : Block) : set_nonce b (nonce b) = b.
Proof. by destruct b. Qed.

Lemma calculate_hash_block_string (b : Block) :
  calculate_hash b = sha256_hexdigest (block_string b).
Proof. reflexivity. Qed.

(** The digested text starts with the payload, written as a JSON string
    under the key that sorts first. *)
Lemma block_string_shape (b : Block) :
  exists rest,
    block_string b
    = ("{" +:+ dquote +:+ "data" +:+ dquote +:+ ": " +:+ dquote)
      +:+ json_escape (data b) +:+ dquote +:+ rest.
Proof.
  eexists. unfold block_string, json_dumps_sorted, join.
  change (sort_keys _)
    with [ ("data", JStr (data b)); ("index", JInt (index b));
           ("nonce", JInt (nonce b)); ("previous_hash", JStr (previous_hash b));
           ("timestamp", JStamp (timestamp b)) ].
  cbn [map String.concat fst snd json_value]. unfold json_string.
  change (json_escape "data") with "data".
  rewrite !append_assoc. reflexivity.
Qed.

(** So the digested text determines the payload. *)
Lemma block_string_data (b1 b2 : Block) :
  block_string b1 = block_string b2 -> data b1 = data b2.
Proof.
  destruct (block_string_shape b1) as [r1 ->], (block_string_shape b2) as [r2 ->].
  intros H%append_inv_head. apply (f_equal json_read) in H.
  by rewrite !json_read_escape in H.
Qed.

Lemma mine_loop_unfold (fuel : nat) (d : Z) (target : string) (b : Block) :
  mine_loop fuel d target b =
  if negb (slice_to (hash b) d =? target)%string then
    match fuel with
    | O => OutOfFuel
    | S fuel' =>
        mine_loop fuel' d target
          (set_hash (set_nonce b (nonce b + 1))
                    (calculate_hash (set_nonce b (nonce b + 1))))
    end
  else Ok b.
Proof. by destruct fuel. Qed.

(** Mining raises nothing. *)
Lemma mine_loop_no_raise (fuel : nat) (d : Z) (target : string) (b : Block) (e : PyError) :
  mine_loop fuel d target b <> Raise e.
Proof.
  revert b. induction fuel as [|fuel IH]; intros b; rewrite mine_loop_unfold;
    destruct (negb _); done.
Qed.

(** Only the search counter and the stored digest change, and the loop exits
    on a digest with the target prefix. *)
Lemma mine_loop_fields (fuel : nat) (d : Z) (target : string) (b b' : Block) :
  mine_loop fuel d target b = Ok b' ->
  index b' = index b /\ timestamp b' = timestamp b /\ data b' = data b
  /\ previous_hash b' = previous_hash b /\ slice_to (hash b') d = target.
Proof.
  revert b. induction fuel as [|fuel IH]; intros b; rewrite mine_loop_unfold;
    destruct (slice_to (hash b) d =? target)%string eqn:E; simpl; try done.
  - intros [= <-]. by apply String.eqb_eq in E.
  - intros [= <-]. by apply String.eqb_eq in E.
  - intros H. by apply IH in H.
Qed.

(** From a block whose stored digest is fresh, the loop ends on a fresh
    digest at the first counter, from the starting one on, that reaches the
    target. *)
Lemma mine_loop_sealed (fuel : nat) (d : Z) (target : string) (b b' : Block) :
  hash b = calculate_hash b ->
  mine_loop fuel d target b = Ok b' ->
  hash b' = calculate_hash b' /\ nonce b <= nonce b'
  /\ forall n, nonce b <= n < nonce b' ->
       slice_to (calculate_hash (set_nonce b n)) d <> target.
Proof.
  revert b. induction fuel as [|fuel IH]; intros b Hfresh; rewrite mine_loop_unfold;
    destruct (slice_to (hash b) d =? target)%string eqn:E; simpl; try done.
  - intros [= <-]. repeat split; [done | lia | lia].
  - intros [= <-]. repeat split; [done | lia | lia].
  - intros H. apply IH in H as (Hf & Hle & Hmin); [|done].
    simpl in Hle. repeat split; [done | lia |].
    intros n Hn. destruct (decide (n = nonce b)) as [->|Hne].
    + rewrite set_nonce_same, <- Hfresh. by apply String.eqb_neq.
    + specialize (Hmin n). rewrite calculate_hash_nonce_irrel in Hmin.
      apply Hmin. simpl. lia.
Qed.

(** A larger loop budget does not change a finished search. *)
Lemma mine_loop_mono (fuel k : nat) (d : Z) (target : string) (b b' : Block) :
  mine_loop fuel d target b = Ok b' -> mine_loop (fuel + k) d target b = Ok b'.
Proof.
  revert b. induction fuel as [|fuel IH]; intros b.
  - rewrite (mine_loop_unfold 0), (mine_loop_unfold (0 + k)).
    by destruct (negb _).
  - rewrite (mine_loop_unfold (S fuel)), (mine_loop_unfold (S fuel + k)).
    destruct (negb _); [apply IH | done].
Qed.

(** If some counter from the starting one on reaches the target, the loop
    exits within that many passes. *)
Lemma mine_loop_complete (d : Z) (target : string) (k : nat) (b : Block) :
  hash b = calculate_hash b ->
  slice_to (calculate_hash (set_nonce b (nonce b + Z.of_nat k))) d = target ->
  exists b', mine_loop k d target b = Ok b'.
Proof.
  revert b. induction k as [|k IH]; intros b Hfresh Hk; rewrite mine_loop_unfold.
  - replace (nonce b + Z.of_nat 0) with (nonce b) in Hk by lia.
    rewrite set_nonce_same, <- Hfresh in Hk.
    apply String.eqb_eq in Hk. rewrite Hk. simpl. by eexists.
  - destruct (negb _); [|by eexists]. apply IH; [done|].
    simpl. rewrite calculate_hash_nonce_irrel.
    by replace (nonce b + 1 + Z.of_nat k) with (nonce b + Z.of_nat (S k)) by lia.
Qed.

Lemma str_get_zero_prefix (n : nat) (h : string) :
  str_take n h = str_repeat "0" n ->
  forall i, (i < n)%nat -> String.get i h = Some "0"%char.
Proof.
  revert h. induction n as [|n IH]; intros h Heq i Hi; [lia|].
  destruct h as [|c h]; [done|]. simpl in Heq. injection Heq as -> Heq.
  destruct i as [|i]; [done|]. simpl. apply IH; [done | lia].
Qed.

End Mining.

(** ** Chains *)

Section Chains.
Context {rt : PyRuntime}.

Lemma Block_init_nonce i d p ts now : nonce (Block_init i d p ts now) = 0.
Proof. reflexivity. Qed.

Lemma Block_init_fresh i d p ts now :
  hash (Block_init i d p ts now) = calculate_hash (Block_init i d p ts now).
Proof. reflexivity. Qed.

(** What a finished [mine_block] on a new block yields. *)
Lemma mine_new_block (fuel : nat) (d : Z) i dt p now (b : Block) :
  mine_block fuel (Block_init i dt p None now) d = Ok b ->
  index b = i /\ timestamp b = now /\ data b = dt /\ previous_hash b = p
  /\ hash b = calculate_hash b.
Proof.
  intros H. unfold mine_block in H.
  pose proof (mine_loop_fields _ _ _ _ _ H) as (? & ? & ? & ? & _).
  pose proof (mine_loop_sealed _ _ _ _ _ (Block_init_fresh _ _ _ _ _) H) as (? & _).
  done.
Qed.

(** The loop is not entered when the stored digest has the target prefix. *)
Lemma mine_block_immediate (fuel : nat) (d : Z) (b : Block) :
  (slice_to (hash b) d =? str_mul "0" d)%string = true -> mine_block fuel b d = Ok b.
Proof. intros H. unfold mine_block. rewrite mine_loop_unfold. by rewrite H. Qed.

Lemma mine_block_mono (fuel fuel' : nat) (d : Z) (b b' : Block) :
  (fuel <= fuel')%nat -> mine_block fuel b d = Ok b' -> mine_block fuel' b d = Ok b'.
Proof.
  intros Hle H. replace fuel' with (fuel + (fuel' - fuel))%nat by lia.
  by apply mine_loop_mono.
Qed.

Lemma mine_new_block_total (d : Z) i dt p now :
  minable d -> exists fuel b, mine_block fuel (Block_init i dt p None now) d = Ok b.
Proof.
  intros Hm. destruct (Hm (Block_init i dt p None now)) as (n & Hn & Hreach).
  exists (Z.to_nat n). unfold mine_block. apply mine_loop_complete; [done|].
  rewrite Block_init_nonce. by replace (0 + Z.of_nat (Z.to_nat n)) with n by lia.
Qed.

(** The validation loop visits exactly the given indices. *)
Lemma valid_loop_spec (blocks : list Block) (indices : list nat) :
  valid_loop blocks indices = true <-> forall i, i ∈ indices -> linked blocks i.
Proof.
  induction indices as [|i rest IH]; simpl.
  - split; [|done]. intros _ i Hi. by apply elem_of_nil in Hi.
  - destruct (blocks !! i) as [c|] eqn:Hc; [destruct (blocks !! (i - 1)%nat) as [p|] eqn:Hp|].
    + destruct (hash c =? calculate_hash c)%string eqn:E1; simpl;
        [destruct (previous_hash c =? hash p)%string eqn:E2; simpl|].
      * apply String.eqb_eq in E1, E2. rewrite IH. split.
        -- intros H j [->|Hj]%elem_of_cons; [by exists c, p | by apply H].
        -- intros H j Hj. apply H. by right.
      * apply String.eqb_neq in E2. split; [done|]. intros H.
        destruct (H i) as (c' & p' & ? & ? & ? & ?); [by left|]. congruence.
      * apply String.eqb_neq in E1. split; [done|]. intros H.
        destruct (H i) as (c' & p' & ? & ? & ? & ?); [by left|]. congruence.
    + split; [done|]. intros H.
      destruct (H i) as (c' & p' & ? & ? & ? & ?); [by left|]. congruence.
    + split; [done|]. intros H.
      destruct (H i) as (c' & p' & ? & ? & ? & ?); [by left|]. congruence.
Qed.

Lemma is_chain_valid_spec (self : Blockchain) :
  is_chain_valid self = true
  <-> forall i, (1 <= i < length (chain self))%nat -> linked (chain self) i.
Proof.
  unfold is_chain_valid. rewrite valid_loop_spec. split.
  - intros H i Hi. apply H, elem_of_seq. lia.
  - intros H i Hi%elem_of_seq. apply H. lia.
Qed.

(** Validation reads of each block before the last visited one only through
    the loop's two comparisons: two chains that agree on every block from
    index 1 on and on the stored digest of block 0 validate alike. *)
Lemma linked_head (g g' : Block) (rest : list Block) (i : nat) :
  hash g = hash g' -> (1 <= i)%nat -> linked (g :: rest) i -> linked (g' :: rest) i.
Proof.
  intros Hh Hi (c & p & Hc & Hp & Hf & Hl).
  destruct i as [|i]; [lia|]. simpl in *. rewrite Nat.sub_0_r in *.
  destruct i as [|i]; simpl in *.
  - injection Hp as <-. exists c, g'. simpl. by rewrite <- Hh.
  - by exists c, p.
Qed.

Lemma is_chain_valid_head (self : Blockchain) (g g' : Block) (rest : list Block) :
  hash g = hash g' ->
  is_chain_valid (set_chain self (g :: rest)) = is_chain_valid (set_chain self (g' :: rest)).
Proof.
  intros Hh. apply eq_true_iff_eq. rewrite !is_chain_valid_spec. simpl.
  split; intros H i Hi; eapply linked_head; try apply H; try done; lia.
Qed.

(** Appending a fresh block linked to the last one keeps a valid chain valid. *)
Lemma is_chain_valid_snoc (self : Blockchain) (latest b : Block) :
  last (chain self) = Some latest ->
  hash b = calculate_hash b ->
  previous_hash b = hash latest ->
  is_chain_valid self = true ->
  is_chain_valid (set_chain self (chain self ++ [b])) = true.
Proof.
  intros Hlast Hf Hl. rewrite !is_chain_valid_spec. simpl.
  rewrite length_app. simpl. intros H i Hi.
  rewrite last_lookup in Hlast.
  destruct (decide (i < length (chain self))%nat) as [Hlt|Hge].
  - destruct (H i) as (c & p & Hc & Hp & ? & ?); [lia|].
    exists c, p. rewrite !lookup_app_l by lia. done.
  - assert (i = length (chain self)) as -> by lia.
    exists b, latest.
    replace (length (chain self) - 1)%nat with (pred (length (chain self))) by lia.
    rewrite list_lookup_middle by done.
    rewrite lookup_app_l by lia. done.
Qed.

(** [Blockchain(difficulty)] once genesis mining has finished. *)
Lemma Blockchain_init_Ok (fuel : nat) (d : Z) (now : Stamp) (bc : Blockchain) :
  Blockchain_init fuel d now = Ok bc ->
  exists g, chain bc = [g] /\ index g = 0 /\ previous_hash g = "0"
            /\ data g = "Genesis Block - The beginning of BlockSim"
            /\ timestamp g = now /\ hash g = calculate_hash g
            /\ difficulty bc = d /\ pending_transactions bc = []
            /\ mining_reward bc = 100.
Proof.
  unfold Blockchain_init, create_genesis_block. simpl.
  destruct (mine_block _ _ _) as [g| |] eqn:Hg; simpl; try done.
  intros [= <-]. apply mine_new_block in Hg as (? & ? & ? & ? & ?).
  by exists g.
Qed.

Lemma add_block_direct_Ok (fuel : nat) (self self' : Blockchain) (dt : string) (now : Stamp) :
  add_block_direct fuel self dt now = Ok self' ->
  exists latest b, last (chain self) = Some latest
    /\ chain self' = chain self ++ [b]
    /\ index b = Z.of_nat (length (chain self)) /\ data b = dt
    /\ timestamp b = now
    /\ previous_hash b = hash latest /\ hash b = calculate_hash b
    /\ difficulty self' = difficulty self
    /\ pending_transactions self' = pending_transactions self
    /\ mining_reward self' = mining_reward self.
Proof.
  unfold add_block_direct, get_latest_block.
  destruct (last (chain self)) as [latest|] eqn:Hlast; simpl; [|done].
  destruct (mine_block _ _ _) as [b| |] eqn:Hb; simpl; try done.
  intros [= <-]. apply mine_new_block in Hb as (? & ? & ? & ? & ?).
  by exists latest, b.
Qed.

Lemma add_block_direct_mono (fuel fuel' : nat) (self self' : Blockchain) dt now :
  (fuel <= fuel')%nat ->
  add_block_direct fuel self dt now = Ok self' ->
  add_block_direct fuel' self dt now = Ok self'.
Proof.
  intros Hle. unfold add_block_direct.
  destruct (get_latest_block self) as [latest| |]; simpl; try done.
  destruct (mine_block fuel _ _) as [b| |] eqn:Hb; simpl; try done.
  by rewrite (mine_block_mono _ _ _ _ _ Hle Hb).
Qed.

Lemma add_block_direct_total (self : Blockchain) dt now :
  minable (difficulty self) -> chain self <> [] ->
  exists fuel self', add_block_direct fuel self dt now = Ok self'.
Proof.
  intros Hm Hne. unfold add_block_direct, get_latest_block.
  destruct (last (chain self)) as [latest|] eqn:Hlast; simpl.
  - destruct (mine_new_block_total (difficulty self)
                (Z.of_nat (length (chain self))) dt (hash latest) now Hm)
      as (fuel & b & Hb).
    exists fuel. rewrite Hb. simpl. by eexists.
  - by apply last_None in Hlast.
Qed.

Lemma add_blocks_valid (fuel : nat) (calls : list (string * Stamp)) :
  forall self self',
    is_chain_valid self = true ->
    add_blocks fuel self calls = Ok self' ->
    length (chain self') = (length (chain self) + length calls)%nat
    /\ is_chain_valid self' = true.
Proof.
  induction calls as [|[dt now] rest IH]; intros self self' Hv; simpl.
  - intros [= <-]. split; [lia | done].
  - destruct (add_block_direct fuel self dt now) as [self1| |] eqn:H1; simpl; try done.
    intros Hrest.
    pose proof H1 as (latest & b & Hlast & Hchain & _ & _ & _ & Hl & Hf & _)%add_block_direct_Ok.
    assert (is_chain_valid self1 = true) as Hv1.
    { pose proof (is_chain_valid_snoc self latest b Hlast Hf Hl Hv) as Hs.
      unfold is_chain_valid in *. by rewrite Hchain. }
    destruct (IH _ _ Hv1 Hrest) as [Hlen ?]. split; [|done].
    rewrite Hlen, Hchain, length_app. simpl. lia.
Qed.

Lemma add_blocks_no_raise (fuel : nat) (calls : list (string * Stamp)) (e : PyError) :
  forall self, chain self <> [] -> add_blocks fuel self calls <> Raise e.
Proof.
  induction calls as [|[dt now] rest IH]; intros self Hne; simpl; [done|].
  destruct (add_block_direct fuel self dt now) as [self1| |] eqn:H1; simpl; try done.
  - apply IH. apply add_block_direct_Ok in H1 as (? & b & _ & -> & _).
    by destruct (chain self).
  - revert H1. unfold add_block_direct, get_latest_block.
    destruct (last (chain self)) eqn:Hlast; simpl.
    + destruct (mine_block _ _ _) eqn:Hb; simpl; try done.
      by apply mine_loop_no_raise in Hb.
    + by apply last_None in Hlast.
Qed.

Lemma add_blocks_mono (fuel fuel' : nat) (calls : list (string * Stamp)) :
  (fuel <= fuel')%nat ->
  forall self self', add_blocks fuel self calls = Ok self' ->
                     add_blocks fuel' self calls = Ok self'.
Proof.
  intros Hle. induction calls as [|[dt now] rest IH]; intros self self'; simpl; [done|].
  destruct (add_block_direct fuel self dt now) as [self1| |] eqn:H1; simpl; try done.
  rewrite (add_block_direct_mono _ _ _ _ _ _ Hle H1). simpl. apply IH.
Qed.

Lemma add_blocks_total (calls : list (string * Stamp)) :
  forall self, minable (difficulty self) -> chain self <> [] ->
               exists fuel self', add_blocks fuel self calls = Ok self'.
Proof.
  induction calls as [|[dt now] rest IH]; intros self Hm Hne; simpl.
  - exists 0%nat. by eexists.
  - destruct (add_block_direct_total self dt now Hm Hne) as (fuel1 & self1 & H1).
    pose proof H1 as (? & b & _ & Hchain & _ & _ & _ & _ & _ & Hd & _)%add_block_direct_Ok.
    destruct (IH self1) as (fuel2 & self2 & H2).
    { by rewrite Hd. }
    { rewrite Hchain. by destruct (chain self). }
    exists (Nat.max fuel1 fuel2), self2.
    rewrite (add_block_direct_mono fuel1 _ _ _ _ _ (Nat.le_max_l _ _) H1). simpl.
    by apply (add_blocks_mono fuel2 _ _ (Nat.le_max_r _ _)).
Qed.

Lemma Blockchain_init_mono (fuel fuel' : nat) (d : Z) (now : Stamp) (bc : Blockchain) :
  (fuel <= fuel')%nat ->
  Blockchain_init fuel d now = Ok bc -> Blockchain_init fuel' d now = Ok bc.
Proof.
  intros Hle. unfold Blockchain_init, create_genesis_block. simpl.
  destruct (mine_block fuel _ _) as [g| |] eqn:Hg; simpl; try done.
  by rewrite (mine_block_mono _ _ _ _ _ Hle Hg).
Qed.

Lemma Blockchain_init_no_raise (fuel : nat) (d : Z) (now : Stamp) (e : PyError) :
  Blockchain_init fuel d now <> Raise e.
Proof.
  unfold Blockchain_init, create_genesis_block. simpl.
  destruct (mine_block _ _ _) eqn:Hg; simpl; try done.
  by apply mine_loop_no_raise in Hg.
Qed.

Lemma Blockchain_init_total (d : Z) (now : Stamp) :
  minable d -> exists fuel bc, Blockchain_init fuel d now = Ok bc.
Proof.
  intros Hm. unfold Blockchain_init, create_genesis_block. simpl.
  destruct (mine_new_block_total d 0 "Genesis Block - The beginning of BlockSim"
              "0" now Hm) as (fuel & g & Hg).
  exists fuel. rewrite Hg. simpl. by eexists.
Qed.

Lemma Blockchain_init_valid (fuel : nat) (d : Z) (now : Stamp) (bc : Blockchain) :
  Blockchain_init fuel d now = Ok bc -> is_chain_valid bc = true.
Proof.
  intros (g & Hchain & _)%Blockchain_init_Ok.
  unfold is_chain_valid. by rewrite Hchain.
Qed.

(** What [tamper_with_block] does to the list of blocks when the index is
    within it. *)
Lemma tamper_in_range (self : Blockchain) (i : Z) (new_data : string) :
  0 <= i < Z.of_nat (length (chain self)) ->
  tamper_with_block self i new_data
  = (set_chain self (alter (fun b => set_data b new_data) (Z.to_nat i) (chain self)),
     Tampering i (default EmptyString (data <$> chain self !! Z.to_nat i)) new_data
       (is_chain_valid
          (set_chain self (alter (fun b => set_data b new_data) (Z.to_nat i)
                                 (chain self))))).
Proof.
  intros Hi. unfold tamper_with_block.
  destruct (0 <=? i) eqn:E1; [|lia]. destruct (i <? _) eqn:E2; [done|lia].
Qed.

Lemma tamper_out_of_range (self : Blockchain) (i : Z) (new_data : string) :
  ~ (0 <= i < Z.of_nat (length (chain self))) ->
  tamper_with_block self i new_data = (self, BlockDoesNotExist i).
Proof.
  intros Hi. unfold tamper_with_block.
  destruct (0 <=? i) eqn:E1; destruct (i <? _) eqn:E2; simpl; try done. lia.
Qed.

Lemma mine_pending_transactions_Ok (fuel : nat) (self self' : Blockchain)
    (address : string) (now : Stamp) :
  pending_transactions self <> [] ->
  mine_pending_transactions fuel self address now = Ok self' ->
  exists latest b, last (chain self) = Some latest
    /\ chain self' = chain self ++ [b]
    /\ index b = Z.of_nat (length (chain self))
    /\ data b = join " | " (pending_transactions self
                              ++ [reward_entry (mining_reward self) address])
    /\ previous_hash b = hash latest /\ hash b = calculate_hash b
    /\ pending_transactions self' = [].
Proof.
  unfold mine_pending_transactions, get_latest_block.
  destruct (pending_transactions self) as [|t ts] eqn:Hp; [done|]. intros _.
  destruct (last (chain self)) as [latest|] eqn:Hlast; simpl; [|done].
  destruct (mine_block _ _ _) as [b| |] eqn:Hb; simpl; try done.
  intros [= <-]. apply mine_new_block in Hb as (? & ? & ? & ? & ?).
  by exists latest, b.
Qed.

Lemma run_Ok {A : Type} (dflt : A) (m : outcome A) :
  returned m = true -> m = Ok (run dflt m).
Proof. by destruct m. Qed.

Lemma lookup_default {A : Type} (dflt : A) (l : list A) (i : nat) :
  (i <? length l)%nat = true -> l !! i = Some (default dflt (l !! i)).
Proof.
  intros Hi%Nat.ltb_lt. by destruct (lookup_lt_is_Some_2 l i Hi) as [x ->].
Qed.

Lemma Forall_forallb {A : Type} (P : A -> bool) (l : list A) :
  forallb P l = true -> Forall (fun x => P x = true) l.
Proof.
  induction l as [|x l IH]; simpl; [done|].
  intros [? ?]%andb_true_iff. constructor; [done | by apply IH].
Qed.

Lemma outcome_bind_Ok {A : Type} (m : outcome A) : (m ≫= Ok) = m.
Proof. by destruct m. Qed.

Lemma outcome_bind_Ok_l {A B : Type} (a : A) (k : A -> outcome B) : (Ok a ≫= k) = k a.
Proof. reflexivity. Qed.

(** [get_balance] on a chain of a genesis block and one more block. *)
Lemma get_balance_two_blocks (self : Blockchain) (g b : Block) (address : string) :
  chain self = [g; b] -> index g = 0 -> index b = 1 ->
  get_balance self address
  = balance_transactions address 0%float (split_sep " | " (data b)).
Proof.
  intros Hchain Hg Hb. unfold get_balance. rewrite Hchain.
  cbn [balance_blocks]. rewrite Hg, Hb. cbn. apply outcome_bind_Ok.
Qed.

(** An entry of exactly five words that matches the transfer pattern passes
    the length test and fails on [parts[5]]. *)
Lemma balance_step_five_words (address : string) (balance : float) (t : string)
    (w0 w1 x w3 w4 : string) (amount : float) :
  transfer_pattern t = true ->
  split_ws t = [w0; w1; x; w3; w4] ->
  py_float x = Some amount ->
  balance_step address balance t = Raise IndexError.
Proof.
  unfold balance_step, transfer_pattern, to_float. intros -> -> Hx. simpl.
  by rewrite Hx.
Qed.

(** The three ways [get_balance] treats an entry. *)
Lemma balance_step_ignored (address : string) (balance : float) (t : string) :
  transfer_pattern t = false ->
  contains "Mining Reward:" t && contains address t = false ->
  balance_step address balance t = Ok balance.
Proof. unfold balance_step, transfer_pattern. by intros -> ->. Qed.

Lemma balance_step_transfer (address : string) (balance : float) (t : string)
    (sender w1 x w3 w4 recipient : string) (more : list string) (amount : float) :
  transfer_pattern t = true ->
  split_ws t = sender :: w1 :: x :: w3 :: w4 :: recipient :: more ->
  py_float x = Some amount ->
  balance_step address balance t
  = Ok (let balance := if (sender =? address)%string then (balance - amount)%float
                       else balance in
        if (recipient =? address)%string then (balance + amount)%float else balance).
Proof.
  unfold balance_step, transfer_pattern, to_float. intros -> -> Hx. simpl.
  by rewrite Hx.
Qed.

Lemma balance_step_reward (address : string) (balance : float) (t : string)
    (w0 w1 x : string) (more : list string) (amount : float) :
  transfer_pattern t = false ->
  contains "Mining Reward:" t = true ->
  contains address t = true ->
  split_ws t = w0 :: w1 :: x :: more ->
  py_float x = Some amount ->
  balance_step address balance t = Ok (balance + amount)%float.
Proof.
  unfold balance_step, transfer_pattern, to_float. intros -> -> -> -> Hx. simpl.
  by rewrite Hx.
Qed.

(** The genesis block of a new chain has been mined. *)
Lemma Blockchain_init_mined (fuel : nat) (d : Z) (now : Stamp) (bc : Blockchain) :
  Blockchain_init fuel d now = Ok bc ->
  exists g, chain bc = [g] /\ slice_to (hash g) d = str_mul "0" d /\ 0 <= nonce g.
Proof.
  unfold Blockchain_init, create_genesis_block, mine_block. simpl.
  destruct (mine_loop _ _ _ _) as [g| |] eqn:Hg; simpl; try done.
  intros [= <-]. exists g. split; [done|].
  pose proof (mine_loop_fields _ _ _ _ _ Hg) as (_ & _ & _ & _ & Ht).
  pose proof (mine_loop_sealed _ _ _ _ _ (Block_init_fresh _ _ _ _ _) Hg) as (_ & Hn & _).
  by rewrite Block_init_nonce in Hn.
Qed.




(** What the loop of a load leaves: the blocks of the entries read, in
    order, up to the first entry that lacks a key. *)
Lemma load_loop_spec (self : Blockchain) (chain_data : list BlockDict)
    (clock : nat -> Stamp) :
  exists read,
    fst (load_loop self chain_data clock) = set_chain self (chain self ++ read)
    /\ (forall k b, read !! k = Some b ->
          exists r, chain_data !! k = Some r /\ load_block r (clock k) = Some b)
    /\ (snd (load_loop self chain_data clock) = true ->
          length read = length chain_data)
    /\ (snd (load_loop self chain_data clock) = false ->
          exists r, chain_data !! length read = Some r
                    /\ load_block r (clock (length read)) = None).
Proof.
  revert self clock. induction chain_data as [|r rest IH]; intros self clock.
  - exists []. simpl. rewrite app_nil_r. split; [by destruct self|]. by repeat split.
  - simpl. destruct (load_block r (clock 0%nat)) as [b|] eqn:Hb.
    + destruct (IH (set_chain self (chain self ++ [b])) (clock ∘ S))
        as (read & Hfst & Hread & Htrue & Hfalse).
      exists (b :: read). rewrite Hfst. simpl. rewrite <- app_assoc.
      split; [done|]. split; [|split].
      * intros [|k] b'; simpl; [intros [= <-]; by exists r|]. apply Hread.
      * intros H. by rewrite Htrue.
      * intros H. apply Hfalse, H.
    + exists []. simpl. rewrite app_nil_r. split; [by destruct self|].
      split; [done|]. split; [done|]. intros _. by exists r.
Qed.


(** [load_blockchain] once the mining of the chain it starts from has
    finished. *)
Lemma load_blockchain_Ok (fuel : nat) (self : BlockchainExplorer)
    (chain_data : list BlockDict) (now : Stamp) (clock : nat -> Stamp)
    (result : BlockchainExplorer * LoadReport) :
  load_blockchain fuel self chain_data now clock = Ok result ->
  exists fresh,
    Blockchain_init fuel 2 now = Ok fresh
    /\ fst result
       = mkExplorer (Some (fst (load_loop (set_chain fresh []) chain_data clock)))
    /\ snd result
       = if snd (load_loop (set_chain fresh []) chain_data clock)
         then Loaded (length (chain (fst (load_loop (set_chain fresh [])
                                                    chain_data clock))))
         else LoadFailed.
Proof.
  unfold load_blockchain.
  destruct (Blockchain_init fuel 2 now) as [fresh| |]; simpl; try done.
  destruct (load_loop (set_chain fresh []) chain_data clock) as [bc completed] eqn:E.
  intros [= <-]. exists fresh. by rewrite E.
Qed.









End Chains.

(** ** Claims *)

Section Claims.
Context {rt : PyRuntime}.

(** C3 (as amended).  Take a block whose search counter is 0 and whose stored
    digest is fresh, that is equal to a recomputation, as the constructor
    leaves it, and any difficulty [d].  Whenever [mine_block] returns, the
    stored digest equals a fresh recomputation, its slice [[:d]] is the target
    of [d] zero characters (so each of its first [d] characters is ['0']),
    and the final search counter is non-negative and no smaller non-negative
    counter gives a digest with that prefix.  Moreover [mine_block] does
    return, within a loop budget, as soon as some non-negative counter gives
    such a digest. *)
Theorem mine_block_sealed (b : Block) (d : Z) :
  nonce b = 0 ->
  hash b = calculate_hash b ->
  (forall fuel b', mine_block fuel b d = Ok b' ->
     hash b' = calculate_hash b'
     /\ slice_to (hash b') d = str_mul "0" d
     /\ (forall i, (i < Z.to_nat d)%nat -> String.get i (hash b') = Some "0"%char)
     /\ 0 <= nonce b'
     /\ forall n, 0 <= n < nonce b' ->
          slice_to (calculate_hash (set_nonce b' n)) d <> str_mul "0" d)
  /\ (forall n, 0 <= n ->
       slice_to (calculate_hash (set_nonce b n)) d = str_mul "0" d ->
       exists fuel b', mine_block fuel b d = Ok b').
Proof.
  intros Hnonce Hfresh. split.
  - intros fuel b' Hrun. unfold mine_block in Hrun.
    pose proof (mine_loop_fields _ _ _ _ _ Hrun) as (Hi & Ht & Hd & Hp & Htarget).
    pose proof (mine_loop_sealed _ _ _ _ _ Hfresh Hrun) as (Hf & Hle & Hmin).
    repeat split; [done | done | | lia |].
    + intros i Hi'. apply (str_get_zero_prefix (Z.to_nat d)); [|done].
      revert Htarget. unfold slice_to, str_mul.
      destruct (0 <=? d) eqn:E; [done|]. apply Z.leb_gt in E.
      replace (Z.to_nat d) with 0%nat in Hi' by lia. lia.
    + intros n Hn. replace (calculate_hash (set_nonce b' n))
        with (calculate_hash (set_nonce b n)).
      * apply Hmin. lia.
      * unfold calculate_hash. simpl. by rewrite Hi, Ht, Hd, Hp.
  - intros n Hn Hreach. exists (Z.to_nat n). unfold mine_block.
    apply mine_loop_complete; [done|].
    by replace (nonce b + Z.of_nat (Z.to_nat n)) with n by lia.
Qed.

(** C5.  A chain built by the constructor and then extended by any sequence
    of [add_block_direct] calls, with no tampering: whenever the calls have
    returned, the chain holds one block per call plus the genesis block and
    [is_chain_valid] returns true (with no call at all: one block, valid).
    No call raises an exception, and the calls do return, within a loop
    budget, when every block has a counter that reaches the target. *)
Theorem append_direct_valid (d : Z) (now : Stamp) (calls : list (string * Stamp)) :
  (forall fuel bc,
     (bc0 ← Blockchain_init fuel d now; add_blocks fuel bc0 calls) = Ok bc ->
     length (chain bc) = (length calls + 1)%nat /\ is_chain_valid bc = true)
  /\ (forall fuel e,
        (bc0 ← Blockchain_init fuel d now; add_blocks fuel bc0 calls) <> Raise e)
  /\ (minable d ->
       exists fuel bc,
         (bc0 ← Blockchain_init fuel d now; add_blocks fuel bc0 calls) = Ok bc).
Proof.
  split; [|split].
  - intros fuel bc H.
    destruct (Blockchain_init fuel d now) as [bc0| |] eqn:H0; simpl in H; try done.
    pose proof (Blockchain_init_valid _ _ _ _ H0) as Hv.
    apply Blockchain_init_Ok in H0 as (g & Hchain & _).
    destruct (add_blocks_valid _ _ _ _ Hv H) as [Hlen ?]. split; [|done].
    rewrite Hlen, Hchain. simpl. lia.
  - intros fuel e. destruct (Blockchain_init fuel d now) as [bc0| |] eqn:H0; simpl; try done.
    + apply add_blocks_no_raise.
      apply Blockchain_init_Ok in H0 as (g & -> & _). done.
    + by apply Blockchain_init_no_raise in H0.
  - intros Hm. destruct (Blockchain_init_total d now Hm) as (fuel0 & bc0 & H0).
    pose proof H0 as (g & Hchain & _ & _ & _ & _ & _ & Hd & _)%Blockchain_init_Ok.
    destruct (add_blocks_total calls bc0) as (fuel1 & bc & H1).
    { by rewrite Hd. }
    { by rewrite Hchain. }
    exists (Nat.max fuel0 fuel1), bc.
    rewrite (Blockchain_init_mono fuel0 _ _ _ _ (Nat.le_max_l _ _) H0). simpl.
    by apply (add_blocks_mono fuel1 _ _ (Nat.le_max_r _ _)).
Qed.

(** C1 (as amended).  Take the block at an index [i] with
    [1 <= i < len(chain)], sealed (its stored digest equals a recomputation
    over its fields), and overwrite its payload with a different one, as
    [tamper_with_block] does, leaving the stored digest.  The text that is
    digested changes with the payload; so [is_chain_valid] returns false
    afterwards, unless SHA-256 gives the new text and the old one the same
    digest.  Block 0 is never examined: overwriting its payload leaves the
    result of [is_chain_valid] as it was.  Overwriting a payload with itself
    leaves the chain as it was. *)
Theorem tamper_detected (self : Blockchain) (i : Z) (new_data : string) (b : Block) :
  0 <= i ->
  chain self !! Z.to_nat i = Some b ->
  (1 <= i -> hash b = calculate_hash b -> new_data <> data b ->
   block_string (set_data b new_data) <> block_string b
   /\ (is_chain_valid (fst (tamper_with_block self i new_data)) = false
       \/ sha256_hexdigest (block_string (set_data b new_data))
          = sha256_hexdigest (block_string b)))
  /\ (i = 0 ->
      is_chain_valid (fst (tamper_with_block self i new_data)) = is_chain_valid self)
  /\ (new_data = data b -> fst (tamper_with_block self i new_data) = self).
Proof.
  intros Hi Hb. pose proof (lookup_lt_Some _ _ _ Hb) as Hlt.
  rewrite tamper_in_range by lia. simpl. split; [|split].
  - intros Hi1 Hsealed Hnew. split.
    { intros Heq%block_string_data. by apply Hnew. }
    destruct (String.eqb_spec (hash b) (calculate_hash (set_data b new_data)))
      as [Hsame|Hne].
    + right. rewrite <- !calculate_hash_block_string. by rewrite <- Hsame.
    + left. apply not_true_is_false. rewrite is_chain_valid_spec. simpl.
      rewrite length_alter. intros H.
      destruct (H (Z.to_nat i)) as (c & p & Hc & _ & Hf & _); [lia|].
      rewrite list_lookup_alter_eq, Hb in Hc. simpl in Hc. injection Hc as <-.
      by apply Hne.
  - intros ->. simpl in *. destruct self as [[|g rest] dif pend rew]; [done|].
    simpl in *. injection Hb as ->. by apply (is_chain_valid_head _ _ _ rest).
  - intros ->. destruct self as [blocks dif pend rew]. unfold set_chain. simpl in *.
    f_equal. apply list_eq. intros k.
    destruct (decide (k = Z.to_nat i)) as [->|Hne].
    + rewrite list_lookup_alter_eq, Hb. simpl. by destruct b.
    + by rewrite list_lookup_alter_ne.
Qed.

(** C2 (as amended).  [is_chain_valid] makes no check that is specific to the
    genesis block: whatever [index] and [previous_hash] block 0 holds, the
    result is the same (of block 0 only the stored digest is read, as the
    link of block 1).  That block 0 has [previous_hash == "0"] and
    [index == 0] is established by the constructor, not by validation. *)
Theorem genesis_fields_not_validated :
  (forall (self : Blockchain) (g : Block) (rest : list Block) (i : Z) (p : string),
     is_chain_valid
       (set_chain self
          (mkBlock i (timestamp g) (data g) p (nonce g) (hash g) :: rest))
     = is_chain_valid (set_chain self (g :: rest)))
  /\ (forall fuel d now bc,
        Blockchain_init fuel d now = Ok bc ->
        exists g, chain bc = [g] /\ index g = 0 /\ previous_hash g = "0").
Proof.
  split.
  - intros self g rest i p. by apply is_chain_valid_head.
  - intros fuel d now bc (g & ? & ? & ? & _)%Blockchain_init_Ok. by exists g.
Qed.

(** C7 (as amended).  [tamper_with_block(block_index, new_data)] fails for
    no index: it has one return, taken by both branches.  When
    [block_index] is not in [[0, len(chain))] (a negative index included)
    the call reports that the block does not exist and returns, leaving the
    chain as it was; when it is in range only the [data] field of that block
    is overwritten: the stored digest of the block, its other fields, every
    other block, and the rest of the chain object stay as they were. *)
Theorem tamper_with_block_spec (self : Blockchain) (i : Z) (new_data : string) :
  (~ (0 <= i < Z.of_nat (length (chain self))) ->
   tamper_with_block self i new_data = (self, BlockDoesNotExist i))
  /\ (0 <= i < Z.of_nat (length (chain self)) ->
      let self' := fst (tamper_with_block self i new_data) in
      (exists original valid,
         snd (tamper_with_block self i new_data)
         = Tampering i original new_data valid)
      /\ difficulty self' = difficulty self
      /\ pending_transactions self' = pending_transactions self
      /\ mining_reward self' = mining_reward self
      /\ length (chain self') = length (chain self)
      /\ forall j b, chain self !! j = Some b ->
           exists b', chain self' !! j = Some b'
             /\ index b' = index b /\ timestamp b' = timestamp b
             /\ previous_hash b' = previous_hash b /\ nonce b' = nonce b
             /\ hash b' = hash b
             /\ data b' = if decide (j = Z.to_nat i) then new_data else data b).
Proof.
  split; [apply tamper_out_of_range|].
  intros Hi. rewrite tamper_in_range by done. simpl.
  split; [by eexists _, _|]. repeat split; [apply length_alter|].
  intros j b Hb. destruct (decide (j = Z.to_nat i)) as [->|Hne].
  - exists (set_data b new_data). by rewrite list_lookup_alter_eq, Hb.
  - exists b. by rewrite list_lookup_alter_ne.
Qed.

(** C10 (as amended).  An entry that contains "Mining Reward:" and does not
    match the transfer pattern (it does not contain both "sends" and "to"),
    with at least three words of which the third reads as a number, credits
    that number to every address that occurs in the entry as a substring.
    So the reward entry of a flush with reward amount [reward], to a reward
    address that does not contain "sends", credits [reward] to every address
    occurring in it, and to "Mining" in particular, which is never the
    recipient. *)
Theorem reward_credits_substring :
  (forall address balance transaction w0 w1 x more amount,
     transfer_pattern transaction = false ->
     contains "Mining Reward:" transaction = true ->
     contains address transaction = true ->
     split_ws transaction = w0 :: w1 :: x :: more ->
     py_float x = Some amount ->
     balance_step address balance transaction = Ok (balance + amount)%float)
  /\ (forall reward recipient address balance amount,
        contains "sends" recipient = false ->
        py_float (str_of_int reward) = Some amount ->
        contains address (reward_entry reward recipient) = true ->
        balance_step address balance (reward_entry reward recipient)
        = Ok (balance + amount)%float)
  /\ (forall reward recipient balance amount,
        contains "sends" recipient = false ->
        py_float (str_of_int reward) = Some amount ->
        balance_step "Mining" balance (reward_entry reward recipient)
        = Ok (balance + amount)%float).
Proof.
  assert (forall reward recipient address balance amount,
            contains "sends" recipient = false ->
            py_float (str_of_int reward) = Some amount ->
            contains address (reward_entry reward recipient) = true ->
            balance_step address balance (reward_entry reward recipient)
            = Ok (balance + amount)%float) as Hflush.
  { intros reward recipient address balance amount Hs Hf Ha.
    destruct (reward_entry_words reward recipient) as (more & Hw).
    eapply balance_step_reward; [| apply reward_entry_marker | done | done | done].
    unfold transfer_pattern. by rewrite reward_entry_sends, Hs. }
  split; [|split].
  - intros. by eapply balance_step_reward.
  - done.
  - intros reward recipient balance amount Hs Hf. apply Hflush; [done | done |].
    apply contains_of_prefix. unfold reward_entry.
    change ("Mining Reward: " +:+ str_of_int reward +:+ " coins to " +:+ recipient)
      with ("Mining" +:+ (" Reward: " +:+ str_of_int reward +:+ " coins to " +:+ recipient)).
    apply prefix_refl_app.
Qed.

(** C8 (as amended).  The range check is made by the explorer command
    [create_blockchain], not by the constructor.  The command reads a
    difficulty (2 for an empty line): one that is not an integer, or is
    outside 1..6, is reported and no chain is built (the explorer keeps what
    it had).  One in 1..6 is handed to the constructor: the command raises
    nothing, it returns, within a loop budget, when every block has a
    counter that reaches the target, and what it returns is the explorer
    holding a chain of that difficulty whose only block is the genesis
    block, mined: index 0, link "0", a fresh digest whose first [d]
    characters are zeros.  The constructor itself rejects no difficulty: it
    raises nothing, and with difficulty 0 it returns a chain at once. *)
Theorem create_blockchain_checks_range
    (fuel : nat) (self : BlockchainExplorer) (line : string) (now : Stamp) :
  ((if (strip line =? EmptyString)%string then Some 2 else py_int (strip line)) = None ->
   create_blockchain fuel self line now = Ok (self, InvalidDifficultyValue))
  /\ (forall d,
        (if (strip line =? EmptyString)%string then Some 2 else py_int (strip line)) = Some d ->
        d < 1 \/ 6 < d ->
        create_blockchain fuel self line now = Ok (self, DifficultyOutOfRange))
  /\ (forall d,
        (if (strip line =? EmptyString)%string then Some 2 else py_int (strip line)) = Some d ->
        1 <= d <= 6 ->
        (forall bc, Blockchain_init fuel d now = Ok bc ->
           create_blockchain fuel self line now = Ok (mkExplorer (Some bc), Created d))
        /\ (forall result, create_blockchain fuel self line now = Ok result ->
              exists bc g,
                result = (mkExplorer (Some bc), Created d)
                /\ chain bc = [g] /\ difficulty bc = d
                /\ pending_transactions bc = [] /\ mining_reward bc = 100
                /\ index g = 0 /\ previous_hash g = "0"
                /\ data g = "Genesis Block - The beginning of BlockSim"
                /\ timestamp g = now /\ 0 <= nonce g
                /\ hash g = calculate_hash g
                /\ slice_to (hash g) d = str_mul "0" d
                /\ (forall k, (k < Z.to_nat d)%nat ->
                      String.get k (hash g) = Some "0"%char)
                /\ is_chain_valid bc = true)
        /\ (forall e, create_blockchain fuel self line now <> Raise e)
        /\ (minable d ->
             exists fuel' bc,
               create_blockchain fuel' self line now
               = Ok (mkExplorer (Some bc), Created d)))
  /\ (forall d e, Blockchain_init fuel d now <> Raise e)
  /\ (exists bc, Blockchain_init fuel 0 now = Ok bc
                 /\ length (chain bc) = 1%nat /\ difficulty bc = 0).
Proof.
  unfold create_blockchain. split; [by intros ->|]. split; [|split; [|split]].
  - intros d -> Hd. destruct (d <? 1) eqn:E1; [done|].
    destruct (d >? 6) eqn:E2; [done|]. lia.
  - intros d -> Hd.
    destruct (d <? 1) eqn:E1; [lia|]. destruct (d >? 6) eqn:E2; [lia|]. simpl.
    split; [|split; [|split]].
    + by intros bc ->.
    + intros result.
      destruct (Blockchain_init fuel d now) as [bc| |] eqn:Hinit; simpl; try done.
      intros [= <-].
      pose proof (Blockchain_init_valid _ _ _ _ Hinit) as Hvalid.
      destruct (Blockchain_init_mined _ _ _ _ Hinit) as (g' & Hchain' & Hzeros & Hnonce).
      apply Blockchain_init_Ok in Hinit
        as (g & Hchain & Hi & Hp & Hdt & Ht & Hf & Hdif & Hpend & Hrew).
      rewrite Hchain in Hchain'. injection Hchain' as <-.
      exists bc, g. repeat (split; [done|]). split; [|done].
      intros k Hk. apply (str_get_zero_prefix (Z.to_nat d)); [|done].
      revert Hzeros. unfold slice_to, str_mul.
      destruct (0 <=? d) eqn:E; [done|lia].
    + intros e. destruct (Blockchain_init fuel d now) as [bc| |] eqn:Hinit; simpl; try done.
      by apply Blockchain_init_no_raise in Hinit.
    + intros Hm. destruct (Blockchain_init_total d now Hm) as (fuel' & bc & Hinit).
      exists fuel', bc. by rewrite Hinit.
  - intros d e. apply Blockchain_init_no_raise.
  - unfold Blockchain_init, create_genesis_block, mine_block. simpl.
    rewrite mine_loop_unfold. simpl. by eexists.
Qed.

End Claims.

(** ** Histories: what every chain built through the methods satisfies *)

Section Histories.
Context {rt : PyRuntime}.

(** A finished search leaves a digest with the target prefix. *)
Lemma mine_block_target (fuel : nat) (d : Z) (b b' : Block) :
  mine_block fuel b d = Ok b' -> slice_to (hash b') d = str_mul "0" d.
Proof. intros H. by apply mine_loop_fields in H as (_ & _ & _ & _ & ?). Qed.

Lemma mine_block_no_raise (fuel : nat) (d : Z) (b : Block) (e : PyError) :
  mine_block fuel b d <> Raise e.
Proof. apply mine_loop_no_raise. Qed.

(** The two methods that append a block, in one statement: [pending] is the
    queue the method leaves. *)
Lemma call_appends (fuel : nat) (self self' : Blockchain) (c : Call) :
  call fuel self c = Ok self' ->
  difficulty self' = difficulty self /\ mining_reward self' = mining_reward self
  /\ (chain self' = chain self
      \/ exists latest b,
           last (chain self) = Some latest /\ chain self' = chain self ++ [b]
           /\ index b = Z.of_nat (length (chain self))
           /\ previous_hash b = hash latest /\ hash b = calculate_hash b
           /\ slice_to (hash b) (difficulty self) = str_mul "0" (difficulty self)).
Proof.
  destruct c as [t|address now|dt now]; simpl.
  - intros [= <-]. split; [done|]. split; [done|]. by left.
  - unfold mine_pending_transactions, get_latest_block.
    destruct (pending_transactions self) as [|t ts].
    { intros [= <-]. split; [done|]. split; [done|]. by left. }
    destruct (last (chain self)) as [latest|] eqn:Hlast; simpl; [|done].
    destruct (mine_block _ _ _) as [b| |] eqn:Hb; simpl; try done.
    intros [= <-]. split; [done|]. split; [done|]. right.
    pose proof (mine_block_target _ _ _ _ Hb) as Ht.
    apply mine_new_block in Hb as (? & ? & ? & ? & ?). by exists latest, b.
  - unfold add_block_direct, get_latest_block.
    destruct (last (chain self)) as [latest|] eqn:Hlast; simpl; [|done].
    destruct (mine_block _ _ _) as [b| |] eqn:Hb; simpl; try done.
    intros [= <-]. split; [done|]. split; [done|]. right.
    pose proof (mine_block_target _ _ _ _ Hb) as Ht.
    apply mine_new_block in Hb as (? & ? & ? & ? & ?). by exists latest, b.
Qed.

Lemma is_chain_valid_chain (self self' : Blockchain) :
  chain self = chain self' -> is_chain_valid self = is_chain_valid self'.
Proof. unfold is_chain_valid. by intros ->. Qed.

Lemma built_init (fuel : nat) (d : Z) (now : Stamp) (bc : Blockchain) :
  Blockchain_init fuel d now = Ok bc -> built d bc.
Proof.
  intros H. pose proof (Blockchain_init_valid _ _ _ _ H) as Hv.
  unfold Blockchain_init, create_genesis_block in H. simpl in H.
  destruct (mine_block _ _ _) as [g| |] eqn:Hg; simpl in H; try done.
  injection H as <-.
  pose proof (mine_block_target _ _ _ _ Hg) as Ht.
  apply mine_new_block in Hg as (Hi & _ & Hd & Hp & Hf).
  split; [done|]. split; [done|]. split; [by exists g, []|]. split; [done|].
  intros [|k] b; simpl; [|done]. intros [= <-]. by rewrite Hi.
Qed.

Lemma built_call (fuel : nat) (d : Z) (self self' : Blockchain) (c : Call) :
  built d self -> call fuel self c = Ok self' -> built d self'.
Proof.
  intros (Hd & Hr & (g & rest & Hg & Hgp & Hgd) & Hv & Hb) Hc.
  apply call_appends in Hc as (Hd' & Hr' & [Hsame|Hnew]).
  - split; [congruence|]. split; [congruence|].
    split; [rewrite Hsame; by exists g, rest|].
    split; [by rewrite (is_chain_valid_chain self' self)|].
    by rewrite Hsame.
  - destruct Hnew as (latest & b & Hlast & Hchain & Hi & Hl & Hf & Ht).
    split; [congruence|]. split; [congruence|].
    split; [rewrite Hchain, Hg; by exists g, (rest ++ [b])|].
    split.
    + rewrite (is_chain_valid_chain self' (set_chain self (chain self ++ [b]))) by done.
      by apply (is_chain_valid_snoc self latest b).
    + intros k b'. rewrite Hchain. intros Hk.
      apply lookup_app_Some in Hk as [Hk|[Hge Hk]]; [by apply Hb|].
      apply list_lookup_singleton_Some in Hk as [Hk <-].
      rewrite <- Hd. split; [|done]. rewrite Hi. f_equal. lia.
Qed.

Lemma built_calls (fuel : nat) (d : Z) (cs : list Call) :
  forall self self', built d self -> calls fuel self cs = Ok self' -> built d self'.
Proof.
  induction cs as [|c cs IH]; intros self self' Hb; simpl.
  - by intros [= <-].
  - destruct (call fuel self c) as [self1| |] eqn:H1; simpl; try done.
    apply IH. by apply (built_call fuel d self self1 c).
Qed.

(** X1.  Every chain built by the constructor and any sequence of
    [add_transaction], [mine_pending_transactions] and [add_block_direct]
    calls that returned validates, holds at position [k] a block whose index
    is [k], and keeps the difficulty it was constructed with and the reward
    100. *)
Theorem history_valid (fuel fuel' : nat) (d : Z) (now : Stamp) (cs : list Call)
    (bc0 bc : Blockchain) :
  Blockchain_init fuel d now = Ok bc0 ->
  calls fuel' bc0 cs = Ok bc ->
  is_chain_valid bc = true
  /\ (forall k b, chain bc !! k = Some b -> index b = Z.of_nat k)
  /\ difficulty bc = d /\ mining_reward bc = 100.
Proof.
  intros H0%built_init Hcs.
  destruct (built_calls _ _ _ _ _ H0 Hcs) as (Hd & Hr & _ & Hv & Hb).
  split; [done|]. split; [|done]. intros k b Hk. by apply Hb in Hk as (? & _).
Qed.

(** X2.  In such a chain every block, the genesis block included, stores a
    digest that is a recomputation over its fields and meets the difficulty:
    the slice [[:d]] is ["0" * d], so for a positive [d] each of the first
    [d] characters is ['0']. *)
Theorem history_proof_of_work (fuel fuel' : nat) (d : Z) (now : Stamp) (cs : list Call)
    (bc0 bc : Blockchain) :
  Blockchain_init fuel d now = Ok bc0 ->
  calls fuel' bc0 cs = Ok bc ->
  forall b, b ∈ chain bc ->
    hash b = calculate_hash b
    /\ slice_to (hash b) d = str_mul "0" d
    /\ forall i, (i < Z.to_nat d)%nat -> String.get i (hash b) = Some "0"%char.
Proof.
  intros H0%built_init Hcs b Hin.
  destruct (built_calls _ _ _ _ _ H0 Hcs) as (_ & _ & _ & _ & Hb).
  apply list_elem_of_lookup in Hin as [k Hk].
  apply Hb in Hk as (_ & Hf & Ht). split; [done|]. split; [done|].
  intros i Hi. apply (str_get_zero_prefix (Z.to_nat d)); [|done].
  unfold slice_to, str_mul in Ht. destruct (0 <=? d) eqn:E; [done | lia].
Qed.

(** The chain only grows: a call leaves every block in place. *)
Lemma calls_append (fuel : nat) (cs : list Call) :
  forall self self', calls fuel self cs = Ok self' ->
    exists new, chain self' = chain self ++ new /\ (length new <= length cs)%nat.
Proof.
  induction cs as [|c cs IH]; intros self self'; simpl.
  - intros [= <-]. exists []. by rewrite app_nil_r.
  - destruct (call fuel self c) as [self1| |] eqn:H1; simpl; try done.
    intros (new & Hnew & Hlen)%IH.
    apply call_appends in H1 as (_ & _ & [Hsame|(latest & b & _ & Hchain & _)]).
    + exists new. rewrite Hnew, Hsame. split; [done | lia].
    + exists (b :: new). rewrite Hnew, Hchain, <- app_assoc. split; [done|]. simpl. lia.
Qed.

(** X3.  The three methods are append-only on any chain: after any sequence
    of calls that returned, the blocks held before are all still there,
    unchanged and at the same positions, followed by at most one new block
    per call. *)
Theorem history_append_only (fuel : nat) (self self' : Blockchain) (cs : list Call) :
  calls fuel self cs = Ok self' ->
  (length (chain self) <= length (chain self') <= length (chain self) + length cs)%nat
  /\ forall k b, chain self !! k = Some b -> chain self' !! k = Some b.
Proof.
  intros (new & Hnew & Hlen)%calls_append. rewrite Hnew, length_app. split; [lia|].
  intros k b Hk. by apply lookup_app_l_Some.
Qed.

Lemma call_mono (fuel fuel' : nat) (self self' : Blockchain) (c : Call) :
  (fuel <= fuel')%nat -> call fuel self c = Ok self' -> call fuel' self c = Ok self'.
Proof.
  intros Hle. destruct c as [t|address now|dt now]; simpl; [done| |].
  - unfold mine_pending_transactions.
    destruct (pending_transactions self); [done|].
    destruct (get_latest_block self) as [latest| |]; simpl; try done.
    destruct (mine_block fuel _ _) as [b| |] eqn:Hb; simpl; try done.
    by rewrite (mine_block_mono _ _ _ _ _ Hle Hb).
  - by apply add_block_direct_mono.
Qed.

Lemma calls_mono (fuel fuel' : nat) (cs : list Call) :
  (fuel <= fuel')%nat ->
  forall self self', calls fuel self cs = Ok self' -> calls fuel' self cs = Ok self'.
Proof.
  intros Hle. induction cs as [|c cs IH]; intros self self'; simpl; [done|].
  destruct (call fuel self c) as [self1| |] eqn:H1; simpl; try done.
  rewrite (call_mono _ _ _ _ _ Hle H1). simpl. apply IH.
Qed.

Lemma call_no_raise (fuel : nat) (self : Blockchain) (c : Call) (e : PyError) :
  chain self <> [] -> call fuel self c <> Raise e.
Proof.
  intros Hne. destruct c as [t|address now|dt now]; simpl; [done| |].
  - unfold mine_pending_transactions, get_latest_block.
    destruct (pending_transactions self); [done|].
    destruct (last (chain self)) eqn:Hlast; simpl; [|by apply last_None in Hlast].
    destruct (mine_block _ _ _) eqn:Hb; simpl; try done.
    by apply mine_block_no_raise in Hb.
  - unfold add_block_direct, get_latest_block.
    destruct (last (chain self)) eqn:Hlast; simpl; [|by apply last_None in Hlast].
    destruct (mine_block _ _ _) eqn:Hb; simpl; try done.
    by apply mine_block_no_raise in Hb.
Qed.

Lemma call_total (self : Blockchain) (c : Call) :
  minable (difficulty self) -> chain self <> [] ->
  exists fuel self', call fuel self c = Ok self'.
Proof.
  intros Hm Hne. destruct c as [t|address now|dt now]; simpl.
  - exists 0%nat. by eexists.
  - unfold mine_pending_transactions, get_latest_block.
    destruct (pending_transactions self) as [|t ts]; [exists 0%nat; by eexists|].
    destruct (last (chain self)) as [latest|] eqn:Hlast; simpl;
      [|by apply last_None in Hlast].
    match goal with
    | |- context [mine_block _ (Block_init ?i ?dt ?p None ?n) _] =>
        destruct (mine_new_block_total (difficulty self) i dt p n Hm) as (fuel & b & Hb)
    end.
    exists fuel. rewrite Hb. simpl. by eexists.
  - by apply add_block_direct_total.
Qed.

Lemma nonempty_call (fuel : nat) (self self' : Blockchain) (c : Call) :
  chain self <> [] -> call fuel self c = Ok self' -> chain self' <> [].
Proof.
  intros Hne (_ & _ & [->|(? & b & _ & -> & _)])%call_appends; [done|].
  by destruct (chain self).
Qed.

(** X4.  On a chain that holds at least one block, as every chain does that
    the constructor built, no sequence of the three calls raises an
    exception, and the calls return whenever every block has a counter whose
    digest meets the difficulty. *)
Theorem history_never_raises (self : Blockchain) (cs : list Call) :
  chain self <> [] ->
  (forall fuel e, calls fuel self cs <> Raise e)
  /\ (minable (difficulty self) -> exists fuel self', calls fuel self cs = Ok self').
Proof.
  intros Hne. split.
  - intros fuel e. revert self Hne.
    induction cs as [|c cs IH]; intros self Hne; simpl; [done|].
    destruct (call fuel self c) as [self1| |] eqn:H1; simpl; try done.
    + apply IH. by apply (nonempty_call fuel self self1 c).
    + by apply call_no_raise in H1.
  - revert self Hne. induction cs as [|c cs IH]; intros self Hne Hm; simpl.
    + exists 0%nat. by eexists.
    + destruct (call_total self c Hm Hne) as (fuel1 & self1 & H1).
      destruct (IH self1) as (fuel2 & self2 & H2).
      { by apply (nonempty_call fuel1 self self1 c). }
      { by apply call_appends in H1 as (-> & _). }
      exists (Nat.max fuel1 fuel2), self2.
      rewrite (call_mono fuel1 _ _ _ _ (Nat.le_max_l _ _) H1). simpl.
      by apply (calls_mono fuel2 _ _ (Nat.le_max_r _ _)).
Qed.

(** C4.  A chain created at difficulty 1 (its reward amount is 100), the
    entry "A sends 10 coins to B" queued, and the pending entries flushed
    with reward address "Miner": once both calls have returned, the chain
    has exactly 2 blocks and the balances of "A", "B" and "Miner" are -10,
    10 and 100.  Neither call raises an exception, and both return, within
    a loop budget, when every block has a counter that reaches the target
    of difficulty 1.  The runtime is any in which [float] reads "10" and
    "100" as 10.0 and 100.0. *)
Theorem scenario_balances (now0 now1 : Stamp) :
  py_float "10" = Some 10%float ->
  py_float "100" = Some 100%float ->
  (forall fuel bc0 bc,
     Blockchain_init fuel 1 now0 = Ok bc0 ->
     mine_pending_transactions fuel (add_transaction bc0 "A sends 10 coins to B")
                               "Miner" now1 = Ok bc ->
     mining_reward bc0 = 100
     /\ length (chain bc) = 2%nat
     /\ get_balance bc "A" = Ok (-10)%float
     /\ get_balance bc "B" = Ok 10%float
     /\ get_balance bc "Miner" = Ok 100%float)
  /\ (forall fuel e,
        (bc0 ← Blockchain_init fuel 1 now0;
         mine_pending_transactions fuel (add_transaction bc0 "A sends 10 coins to B")
                                   "Miner" now1) <> Raise e)
  /\ (minable 1 ->
       exists fuel bc0 bc,
         Blockchain_init fuel 1 now0 = Ok bc0
         /\ mine_pending_transactions fuel (add_transaction bc0 "A sends 10 coins to B")
                                      "Miner" now1 = Ok bc).
Proof.
  intros H10 H100. split; [|split].
  - intros fuel bc0 bc.
    intros (g & Hchain0 & Hig & _ & _ & _ & _ & _ & Hpend & Hrew)%Blockchain_init_Ok.
    intros (latest & b & _ & Hchain & Hib & Hdata & _)%mine_pending_transactions_Ok;
      [|simpl; by destruct (pending_transactions bc0)].
    cbn [add_transaction set_pending_transactions pending_transactions mining_reward
         chain] in Hchain, Hib, Hdata.
    rewrite Hpend, Hrew in Hdata. rewrite Hchain0 in Hchain, Hib.
    assert (split_sep " | " (data b)
            = ["A sends 10 coins to B"; "Mining Reward: 100 coins to Miner"]) as Hsplit.
    { by rewrite Hdata. }
    split; [exact Hrew|]. split; [by rewrite Hchain|].
    rewrite !(get_balance_two_blocks bc g b _ Hchain Hig Hib), Hsplit.
    cbn [balance_transactions].
    split; [|split].
    + rewrite (balance_step_transfer "A" _ "A sends 10 coins to B"
                 "A" "sends" "10" "coins" "to" "B" [] 10%float);
        [|reflexivity|reflexivity|exact H10].
      rewrite outcome_bind_Ok_l, balance_step_ignored; reflexivity.
    + rewrite (balance_step_transfer "B" _ "A sends 10 coins to B"
                 "A" "sends" "10" "coins" "to" "B" [] 10%float);
        [|reflexivity|reflexivity|exact H10].
      rewrite outcome_bind_Ok_l, balance_step_ignored; reflexivity.
    + rewrite (balance_step_transfer "Miner" _ "A sends 10 coins to B"
                 "A" "sends" "10" "coins" "to" "B" [] 10%float);
        [|reflexivity|reflexivity|exact H10].
      rewrite outcome_bind_Ok_l.
      rewrite (balance_step_reward "Miner" _ "Mining Reward: 100 coins to Miner"
                 "Mining" "Reward:" "100" ["coins"; "to"; "Miner"] 100%float);
        [reflexivity|reflexivity|reflexivity|reflexivity|reflexivity|exact H100].
  - intros fuel e.
    destruct (Blockchain_init fuel 1 now0) as [bc0| |] eqn:H0; simpl; try done.
    + apply (call_no_raise fuel (add_transaction bc0 "A sends 10 coins to B")
               (CallMinePendingTransactions "Miner" now1)).
      apply Blockchain_init_Ok in H0 as (g & Hchain0 & _). simpl. by rewrite Hchain0.
    + by apply Blockchain_init_no_raise in H0.
  - intros Hm. destruct (Blockchain_init_total 1 now0 Hm) as (fuel0 & bc0 & H0).
    pose proof H0 as (g & Hchain0 & _ & _ & _ & _ & _ & Hd & _)%Blockchain_init_Ok.
    destruct (call_total (add_transaction bc0 "A sends 10 coins to B")
                (CallMinePendingTransactions "Miner" now1)) as (fuel1 & bc & H1).
    { simpl. by rewrite Hd. }
    { simpl. by rewrite Hchain0. }
    exists (Nat.max fuel0 fuel1), bc0, bc. split.
    + exact (Blockchain_init_mono fuel0 _ _ _ _ (Nat.le_max_l _ _) H0).
    + exact (call_mono fuel1 _ _ _ _ (Nat.le_max_r _ _) H1).
Qed.

End Histories.

(** ** The search at the edges of the difficulty *)

Section Search.
Context {rt : PyRuntime}.

Lemma str_take_length (n : nat) (s : string) :
  String.length (str_take n s) = Nat.min n (String.length s).
Proof.
  revert s. induction n as [|n IH]; intros [|c s]; simpl; try done. by rewrite IH.
Qed.

Lemma str_repeat_zero_length (n : nat) : String.length (str_repeat "0" n) = n.
Proof. induction n as [|n IH]; simpl; [done | by rewrite IH]. Qed.

(** The loop only ever moves the counter up. *)
Lemma mine_loop_nonce (fuel : nat) (d : Z) (target : string) (b b' : Block) :
  mine_loop fuel d target b = Ok b' -> nonce b <= nonce b'.
Proof.
  revert b. induction fuel as [|fuel IH]; intros b; rewrite mine_loop_unfold;
    destruct (negb _); try done; try (intros [= <-]; lia).
  intros H%IH. simpl in H. lia.
Qed.

(** X5.  [mine_block] changes nothing but the search counter and the stored
    digest, never moves the counter down (it does not reset it before the
    search), and is idempotent: mining the returned block again at the same
    difficulty returns it unchanged without a single pass of the loop. *)
Theorem mine_block_settles (fuel : nat) (b b' : Block) (d : Z) :
  mine_block fuel b d = Ok b' ->
  index b' = index b /\ timestamp b' = timestamp b /\ data b' = data b
  /\ previous_hash b' = previous_hash b /\ nonce b <= nonce b'
  /\ forall fuel', mine_block fuel' b' d = Ok b'.
Proof.
  intros H. pose proof (mine_loop_nonce _ _ _ _ _ H) as Hn.
  apply mine_loop_fields in H as (? & ? & ? & ? & Ht).
  repeat (split; [done|]). intros fuel'. apply mine_block_immediate.
  by apply String.eqb_eq.
Qed.

Lemma slice_differs (h : string) (d : Z) :
  String.length h = 64%nat -> 64 < d \/ -64 < d < 0 ->
  (slice_to h d =? str_mul "0" d)%string = false.
Proof.
  intros Hh Hd. apply String.eqb_neq. intros Heq.
  apply (f_equal String.length) in Heq. revert Heq.
  unfold slice_to, str_mul. rewrite str_repeat_zero_length.
  destruct (0 <=? d) eqn:E; rewrite str_take_length, Hh; lia.
Qed.

Lemma mine_loop_spins (fuel : nat) (d : Z) (b : Block) :
  (forall s, String.length (sha256_hexdigest s) = 64%nat) ->
  String.length (hash b) = 64%nat -> 64 < d \/ -64 < d < 0 ->
  mine_loop fuel d (str_mul "0" d) b = OutOfFuel.
Proof.
  intros Hlen Hb Hd. revert b Hb.
  induction fuel as [|fuel IH]; intros b Hb; rewrite mine_loop_unfold;
    rewrite slice_differs by done; simpl; [done|].
  apply IH. simpl. apply Hlen.
Qed.

(** X6.  The constructor outside the difficulties a digest of 64 characters
    can meet.  With difficulty 0, or -64 and below, both slices are empty
    and the genesis block is taken at counter 0 without a search.  With a
    difficulty above 64 the target is longer than any digest, and with one
    from -63 to -1 the target is empty while the slice [[:d]] is not: the
    loop of [mine_block] exits on no budget, that is, the constructor never
    returns. *)
Theorem constructor_outside_digest_range (d : Z) (now : Stamp) :
  (forall s, String.length (sha256_hexdigest s) = 64%nat) ->
  (d = 0 \/ d <= -64 ->
   exists bc, Blockchain_init 0 d now = Ok bc /\ map nonce (chain bc) = [0])
  /\ (64 < d \/ -64 < d < 0 -> forall fuel, Blockchain_init fuel d now = OutOfFuel).
Proof.
  intros Hlen. split.
  - intros Hd. unfold Blockchain_init, create_genesis_block. simpl.
    rewrite mine_block_immediate; [by eexists|].
    apply String.eqb_eq. simpl. unfold slice_to, str_mul.
    destruct Hd as [->|Hd]; [done|].
    destruct (0 <=? d) eqn:E; [lia|]. unfold calculate_hash. rewrite Hlen.
    replace (64 - Z.to_nat (- d))%nat with 0%nat by lia.
    by replace (Z.to_nat d) with 0%nat by lia.
  - intros Hd fuel. unfold Blockchain_init, create_genesis_block, mine_block. simpl.
    rewrite mine_loop_spins; [done | done | apply Hlen | done].
Qed.

End Search.

(** ** Payloads: entries joined and split *)

Section Payloads.

Lemma all_chars_app (P : ascii -> bool) (s1 s2 : string) :
  all_chars P (s1 +:+ s2) = all_chars P s1 && all_chars P s2.
Proof. induction s1 as [|c s1 IH]; simpl; [done | by rewrite IH, andb_assoc]. Qed.

(** The separator needs a [|] as the second character. *)
Lemma prefix_sep_second (c : ascii) (s : string) :
  match s with
  | String b _ => Ascii.eqb b "|" = false
  | EmptyString => True
  end ->
  String.prefix " | " (String c s) = false.
Proof.
  destruct s as [|b s]; cbn [String.prefix]; [by destruct (ascii_dec " " c)|].
  intros Hb. destruct (ascii_dec " " c); [|done].
  destruct (ascii_dec "|" b) as [<-|]; [done|done].
Qed.

Lemma split_sep_from_entry (w rest cur : string) :
  no_bar w = true ->
  split_sep_from " | " 0 cur (w +:+ " | " +:+ rest)
  = (rev_string cur +:+ w) :: split_sep_from " | " 0 EmptyString rest.
Proof.
  revert cur. induction w as [|c w IH]; intros cur Hw.
  - rewrite append_nil_r.
    change (EmptyString +:+ " | " +:+ rest) with (String " " ("| " +:+ rest)).
    cbn [split_sep_from].
    replace (String.prefix " | " (String " " ("| " +:+ rest))) with true
      by (symmetry; apply (prefix_refl_app " | " rest)).
    reflexivity.
  - unfold no_bar in Hw. simpl in Hw. apply andb_true_iff in Hw as [Hc Hw].
    change (String c w +:+ " | " +:+ rest) with (String c (w +:+ " | " +:+ rest)).
    cbn [split_sep_from]. rewrite prefix_sep_second.
    + rewrite IH by done. by rewrite rev_string_cons, append_assoc.
    + destruct w as [|b w]; simpl; [done|].
      simpl in Hw. apply andb_true_iff in Hw as [Hb _]. by apply negb_true_iff.
Qed.

Lemma split_sep_from_last (w cur : string) :
  no_bar w = true -> split_sep_from " | " 0 cur w = [rev_string cur +:+ w].
Proof.
  revert cur. induction w as [|c w IH]; intros cur Hw.
  - by rewrite append_nil_r.
  - unfold no_bar in Hw. simpl in Hw. apply andb_true_iff in Hw as [Hc Hw].
    cbn [split_sep_from]. rewrite prefix_sep_second.
    + rewrite IH by done. by rewrite rev_string_cons, append_assoc.
    + destruct w as [|b w]; simpl; [done|].
      simpl in Hw. apply andb_true_iff in Hw as [Hb _]. by apply negb_true_iff.
Qed.

(** Splitting a joined payload gives the entries back. *)
Lemma split_join (entries : list string) :
  entries <> [] ->
  Forall (fun t => no_bar t = true) entries ->
  split_sep " | " (join " | " entries) = entries.
Proof.
  intros Hne H. induction H as [|t rest Ht Hrest IH]; [done|].
  destruct rest as [|t' rest].
  - simpl. unfold split_sep. by rewrite split_sep_from_last.
  - change (join " | " (t :: t' :: rest)) with (t +:+ " | " +:+ join " | " (t' :: rest)).
    unfold split_sep. rewrite split_sep_from_entry by done.
    f_equal. by apply IH.
Qed.

(** X7.  Splitting a joined payload gives the entries back, in order, when
    there is at least one entry and no entry holds the character [|]; so
    two such lists of entries that are joined to the same payload are the
    same list.  (The join of no entries is the empty text, which splits
    into one empty entry.) *)
Theorem payload_roundtrip (entries : list string) :
  entries <> [] ->
  Forall (fun t => no_bar t = true) entries ->
  split_sep " | " (join " | " entries) = entries
  /\ (forall others,
        others <> [] -> Forall (fun t => no_bar t = true) others ->
        join " | " others = join " | " entries -> others = entries)
  /\ split_sep " | " (join " | " []) = [EmptyString].
Proof.
  intros Hne Hbar. split; [by apply split_join|]. split; [|done].
  intros others Hne' Hbar' Heq.
  rewrite <- (split_join others), <- (split_join entries) by done.
  by rewrite Heq.
Qed.

End Payloads.

(** ** The ledger: what a block adds to the balances *)

Section Ledger.
Context {rt : PyRuntime}.

Lemma outcome_bind_assoc {A B C : Type} (m : outcome A) (f : A -> outcome B)
    (g : B -> outcome C) :
  ((m ≫= f) ≫= g) = (m ≫= fun a => f a ≫= g).
Proof. by destruct m. Qed.

Lemma outcome_bind_ext {A B : Type} (m : outcome A) (f g : A -> outcome B) :
  (forall a, f a = g a) -> (m ≫= f) = (m ≫= g).
Proof. intros H. destruct m; simpl; by rewrite ?H. Qed.

Lemma balance_transactions_app (address : string) (l1 l2 : list string) :
  forall balance,
    balance_transactions address balance (l1 ++ l2)
    = (balance_transactions address balance l1
       ≫= fun balance => balance_transactions address balance l2).
Proof.
  induction l1 as [|t l1 IH]; intros balance; simpl; [done|].
  rewrite outcome_bind_assoc. by apply outcome_bind_ext.
Qed.

Lemma balance_blocks_app (address : string) (l1 l2 : list Block) :
  forall balance,
    balance_blocks address balance (l1 ++ l2)
    = (balance_blocks address balance l1
       ≫= fun balance => balance_blocks address balance l2).
Proof.
  induction l1 as [|b l1 IH]; intros balance; simpl; [done|].
  destruct (index b =? 0); [done|].
  rewrite outcome_bind_assoc. by apply outcome_bind_ext.
Qed.

(** The balance after one more block with a non-zero index. *)
Lemma get_balance_snoc (self self' : Blockchain) (b : Block) (address : string) :
  chain self' = chain self ++ [b] -> index b <> 0 ->
  get_balance self' address
  = (get_balance self address
     ≫= fun balance =>
          balance_transactions address balance (split_sep " | " (data b))).
Proof.
  intros Hchain Hi. unfold get_balance. rewrite Hchain, balance_blocks_app.
  apply outcome_bind_ext. intros balance. simpl.
  apply Z.eqb_neq in Hi. rewrite Hi. apply outcome_bind_Ok.
Qed.

Lemma foldl_add_transaction (ts : list string) :
  forall self,
    chain (foldl add_transaction self ts) = chain self
    /\ difficulty (foldl add_transaction self ts) = difficulty self
    /\ mining_reward (foldl add_transaction self ts) = mining_reward self
    /\ pending_transactions (foldl add_transaction self ts)
       = pending_transactions self ++ ts.
Proof.
  induction ts as [|t ts IH]; intros self; simpl.
  - by rewrite app_nil_r.
  - destruct (IH (add_transaction self t)) as (-> & -> & -> & ->). simpl.
    by rewrite <- app_assoc.
Qed.

Lemma no_bar_reward_entry (reward : Z) (address : string) :
  no_bar address = true -> no_bar (reward_entry reward address) = true.
Proof.
  intros Ha. unfold no_bar, reward_entry in *. rewrite !all_chars_app, Ha.
  rewrite (all_chars_impl decimal_char _ (str_of_int reward));
    [done | | apply str_of_int_chars].
  intros [[|] [|] [|] [|] [|] [|] [|] [|]]; done.
Qed.

(** X8.  A flush records the queue.  After [add_transaction] for each entry
    of [ts] in turn and one [mine_pending_transactions] that returned, the
    queue is empty and the chain holds one more block; when no entry and not
    the reward address holds the character [|], the entries read back from
    that block are the queue as it stood, the entries of [ts] in the order
    they were added, and the reward entry last, and every balance is the
    balance before with exactly those entries applied in that order. *)
Theorem flush_records_queue (fuel : nat) (self self' : Blockchain) (ts : list string)
    (miner : string) (now : Stamp) :
  ts <> [] ->
  Forall (fun t => no_bar t = true) (pending_transactions self ++ ts) ->
  no_bar miner = true ->
  mine_pending_transactions fuel (foldl add_transaction self ts) miner now = Ok self' ->
  pending_transactions self' = []
  /\ exists b,
       chain self' = chain self ++ [b]
       /\ split_sep " | " (data b)
          = pending_transactions self ++ ts ++ [reward_entry (mining_reward self) miner]
       /\ forall address,
            get_balance self' address
            = (get_balance self address
               ≫= fun balance =>
                    balance_transactions address balance
                      (pending_transactions self ++ ts
                         ++ [reward_entry (mining_reward self) miner])).
Proof.
  intros Hne Hbar Hminer Hflush.
  destruct (foldl_add_transaction ts self) as (Hc & _ & Hr & Hp).
  apply mine_pending_transactions_Ok in Hflush
    as (latest & b & Hlast & Hchain & Hi & Hdata & _ & _ & Hpend).
  2:{ rewrite Hp. by destruct (pending_transactions self), ts. }
  rewrite Hc in Hlast, Hchain, Hi. rewrite Hr, Hp in Hdata.
  split; [done|]. exists b. split; [done|].
  assert (split_sep " | " (data b)
          = pending_transactions self ++ ts ++ [reward_entry (mining_reward self) miner])
    as Hsplit.
  { rewrite Hdata, <- app_assoc. apply split_join.
    - by destruct (pending_transactions self), ts.
    - rewrite app_assoc. apply Forall_app. split; [done|].
      constructor; [|done]. by apply no_bar_reward_entry. }
  split; [done|]. intros address.
  rewrite (get_balance_snoc self self' b address Hchain), Hsplit; [done|].
  rewrite Hi. destruct (chain self); [done | simpl; lia].
Qed.

Lemma word_spec (s : string) :
  word s = true ->
  s <> EmptyString /\ all_chars (fun c => negb (isspace c)) s = true /\ no_bar s = true.
Proof.
  unfold word, no_bar. intros [Hne Hs]%andb_true_iff. split; [|split].
  - intros ->. done.
  - apply (all_chars_impl _ _ _ (fun c H => proj1 (proj1 (andb_true_iff _ _) H)) Hs).
  - apply (all_chars_impl _ _ _ (fun c H => proj2 (proj1 (andb_true_iff _ _) H)) Hs).
Qed.

(** A run of non-space characters that ends the text is the last word. *)
Lemma split_ws_from_end (w cur : string) :
  all_chars (fun c => negb (isspace c)) w = true ->
  w <> EmptyString \/ cur <> EmptyString ->
  split_ws_from cur w = [rev_string cur +:+ w].
Proof.
  revert cur. induction w as [|c w IH]; intros cur Hw Hne.
  - destruct Hne as [|Hne]; [done|]. simpl. rewrite append_nil_r. by destruct cur.
  - simpl in Hw. apply andb_true_iff in Hw as [Hc Hw]. simpl.
    destruct (isspace c); [done|].
    rewrite IH by (done || by right). by rewrite rev_string_cons, append_assoc.
Qed.

Lemma transfer_entry_words (sender amount recipient : string) :
  word sender = true -> word amount = true -> word recipient = true ->
  split_ws (transfer_entry sender amount recipient)
  = [sender; "sends"; amount; "coins"; "to"; recipient].
Proof.
  intros (Hs0 & Hs & _)%word_spec (Ha0 & Ha & _)%word_spec (Hr0 & Hr & _)%word_spec.
  unfold transfer_entry.
  change (sender +:+ " sends " +:+ amount +:+ " coins to " +:+ recipient)
    with (sender +:+ String " " ("sends" +:+ String " "
            (amount +:+ String " " ("coins" +:+ String " "
               ("to" +:+ String " " recipient))))).
  rewrite (split_ws_word sender), (split_ws_word "sends") by done.
  rewrite (split_ws_word amount), (split_ws_word "coins"), (split_ws_word "to") by done.
  unfold split_ws. rewrite split_ws_from_end by (done || by left). done.
Qed.

Lemma transfer_entry_pattern (sender amount recipient : string) :
  transfer_pattern (transfer_entry sender amount recipient) = true.
Proof.
  unfold transfer_pattern, transfer_entry. apply andb_true_iff. split.
  - apply contains_app_r.
    change (" sends " +:+ amount +:+ " coins to " +:+ recipient)
      with (" " +:+ "sends" +:+ (" " +:+ amount +:+ " coins to " +:+ recipient)).
    apply contains_app_r, contains_of_prefix, prefix_refl_app.
  - do 3 apply contains_app_r.
    change (" coins to " +:+ recipient)
      with (" coins " +:+ "to" +:+ (" " +:+ recipient)).
    apply contains_app_r, contains_of_prefix, prefix_refl_app.
Qed.

Lemma no_bar_transfer_entry (sender amount recipient : string) :
  word sender = true -> word amount = true -> word recipient = true ->
  no_bar (transfer_entry sender amount recipient) = true.
Proof.
  intros (_ & _ & Hs)%word_spec (_ & _ & Ha)%word_spec (_ & _ & Hr)%word_spec.
  unfold no_bar, transfer_entry in *. by rewrite !all_chars_app, Hs, Ha, Hr.
Qed.

(** X9.  A block holding one transfer entry whose sender, amount and
    recipient are single words moves the amount, as [float()] reads it, from
    the sender to the recipient: the sender's balance is the balance before
    less the amount, the recipient's the balance before plus it, and the
    balance of every other address is unchanged.  No balance is checked
    first, so nothing keeps the sender's balance from going below zero. *)
Theorem transfer_block_balances (fuel : nat) (self self' : Blockchain)
    (sender amount recipient : string) (x : float) (now : Stamp) :
  word sender = true -> word amount = true -> word recipient = true ->
  py_float amount = Some x ->
  add_block_direct fuel self (transfer_entry sender amount recipient) now = Ok self' ->
  forall address,
    get_balance self' address
    = (get_balance self address
       ≫= fun balance =>
            let balance := if (sender =? address)%string then (balance - x)%float
                           else balance in
            Ok (if (recipient =? address)%string then (balance + x)%float
                else balance))
    /\ (sender <> address -> recipient <> address ->
        get_balance self' address = get_balance self address).
Proof.
  intros Hs Ha Hr Hx Hadd address.
  apply add_block_direct_Ok in Hadd
    as (latest & b & Hlast & Hchain & Hi & Hdata & _).
  assert (get_balance self' address
          = (get_balance self address
             ≫= fun balance =>
                  let balance := if (sender =? address)%string then (balance - x)%float
                                 else balance in
                  Ok (if (recipient =? address)%string then (balance + x)%float
                      else balance))) as Heq.
  { rewrite (get_balance_snoc self self' b address Hchain).
    2:{ rewrite Hi. destruct (chain self); [done | simpl; lia]. }
    apply outcome_bind_ext. intros balance. rewrite Hdata.
    unfold split_sep. rewrite split_sep_from_last by by apply no_bar_transfer_entry.
    cbn [balance_transactions rev_string list_ascii_of_string rev string_of_list_ascii
         String.append].
    rewrite (balance_step_transfer address balance _ sender "sends" amount "coins" "to"
               recipient [] x (transfer_entry_pattern _ _ _)
               (transfer_entry_words _ _ _ Hs Ha Hr) Hx).
    done. }
  split; [done|]. intros Hns Hnr. rewrite Heq.
  apply String.eqb_neq in Hns, Hnr. rewrite Hns, Hnr. apply outcome_bind_Ok.
Qed.

End Ledger.

(** ** Tampering undone, and what a load trusts *)

Section Documents.
Context {rt : PyRuntime}.

Lemma set_data_restore (b : Block) (new_data : string) :
  set_data (set_data b new_data) (data b) = b.
Proof. by destruct b. Qed.

Lemma alter_restore (blocks : list Block) (i : nat) (b : Block) (new_data : string) :
  blocks !! i = Some b ->
  alter (fun c => set_data c (data b)) i (alter (fun c => set_data c new_data) i blocks)
  = blocks.
Proof.
  intros Hb. apply list_eq. intros j. rewrite list_alter_alter_eq.
  destruct (decide (i = j)) as [<-|Hne].
  - rewrite list_lookup_alter_eq, Hb. simpl. by rewrite set_data_restore.
  - by rewrite list_lookup_alter_ne.
Qed.

(** X10.  Tampering is undone by tampering again with the payload the first
    call reported as the original: the chain is then the one before, block
    for block and field for field (so it validates as it did before), since
    [tamper_with_block] overwrites the payload and touches nothing else. *)
Theorem tamper_restore (self : Blockchain) (i : Z) (new_data : string) (b : Block) :
  0 <= i -> chain self !! Z.to_nat i = Some b ->
  snd (tamper_with_block self i new_data)
  = Tampering i (data b) new_data (is_chain_valid (fst (tamper_with_block self i new_data)))
  /\ tamper_with_block (fst (tamper_with_block self i new_data)) i (data b)
     = (self, Tampering i new_data (data b) (is_chain_valid self)).
Proof.
  intros Hi Hb. pose proof (lookup_lt_Some _ _ _ Hb) as Hlt.
  rewrite (tamper_in_range self i new_data) by lia. simpl. rewrite Hb. simpl.
  split; [done|].
  rewrite tamper_in_range by (simpl; rewrite length_alter; lia). simpl.
  rewrite list_lookup_alter_eq, Hb, alter_restore by done. simpl.
  by destruct self.
Qed.


(** X12.  A document with no records loads into a chain with no blocks, not
    even a genesis block.  That chain validates and gives every address the
    balance zero, but nothing can be added to it: [add_block_direct], and
    [mine_pending_transactions] once an entry is queued, raise [IndexError]
    when they read the latest block. *)
Theorem load_empty_document (fuel : nat) (self : BlockchainExplorer)
    (result : BlockchainExplorer * LoadReport) (now : Stamp) (clock : nat -> Stamp) :
  load_blockchain fuel self [] now clock = Ok result ->
  exists bc,
    blockchain (fst result) = Some bc /\ chain bc = []
    /\ is_chain_valid bc = true
    /\ (forall address, get_balance bc address = Ok 0%float)
    /\ (forall fuel' data now', add_block_direct fuel' bc data now' = Raise IndexError)
    /\ (forall fuel' transaction miner now',
          mine_pending_transactions fuel' (add_transaction bc transaction) miner now'
          = Raise IndexError)
    /\ snd result = Loaded 0.
Proof.
  unfold load_blockchain.
  destruct (Blockchain_init fuel 2 now) as [bc0| |] eqn:H0; simpl; try done.
  intros [= <-]. eexists. split; [done|]. simpl. split; [done|].
  split; [done|]. split; [done|]. split; [done|]. split; [|done].
  intros fuel' t miner now'. unfold mine_pending_transactions. simpl.
  by destruct (pending_transactions bc0).
Qed.

End Documents.

(** ** Sessions of the explorer *)

Section Sessions.
Context {rt : PyRuntime} {fm : PyFormat}.

Lemma lstrip_blank (s : string) : all_chars isspace s = true -> lstrip s = EmptyString.
Proof.
  induction s as [|c s IH]; simpl; [done|].
  intros [Hc Hs]%andb_true_iff. rewrite Hc. by apply IH.
Qed.

Lemma strip_blank (s : string) : all_chars isspace s = true -> strip s = EmptyString.
Proof. intros H. unfold strip. rewrite (lstrip_blank s) by exact H. reflexivity. Qed.

(** What a session keeps true of the chain the explorer holds. *)
Definition in_range (self : BlockchainExplorer) : Prop :=
  forall bc, blockchain self = Some bc -> 1 <= difficulty bc <= 6 /\ mining_reward bc = 100.

Lemma in_range_command (fuel : nat) (self self' : BlockchainExplorer)
    (c : Explorer.Command) :
  in_range self -> Explorer.command fuel self c = Ok self' -> in_range self'.
Proof.
  intros Hin. destruct c as [line now|sender recipient amount|line now|line now|line| |
                             index_line data_line|line|chain_data now clock| | |]; simpl.
  - unfold create_blockchain.
    destruct (if (strip line =? EmptyString)%string then Some 2 else py_int (strip line))
      as [d|]; simpl; [|by intros [= <-]].
    destruct ((d <? 1) || (d >? 6)) eqn:Hd; simpl; [by intros [= <-]|].
    destruct (Blockchain_init fuel d now) as [bc| |] eqn:Hbc; simpl; try done.
    intros [= <-] bc' [= <-].
    apply Blockchain_init_Ok in Hbc as (g & _ & _ & _ & _ & _ & _ & -> & _ & ->).
    apply orb_false_iff in Hd as [H1 H6]. split; [lia | done].
  - intros [= <-]. unfold Explorer.add_transaction.
    destruct (blockchain self) as [bc|] eqn:Hbc; [|exact Hin].
    destruct (_ && _); [|exact Hin]. destruct (py_float _); [|exact Hin].
    intros bc' [= <-]. exact (Hin bc Hbc).
  - unfold Explorer.mine_transactions.
    destruct (blockchain self) as [bc|] eqn:Hbc; [|by intros [= <-]].
    destruct (pending_transactions bc) as [|t ts] eqn:Hp; [by intros [= <-]|].
    destruct (mine_pending_transactions _ _ _ _) as [bc1| |] eqn:H1; simpl; try done.
    intros [= <-] bc' [= <-].
    apply (call_appends fuel bc bc1 (CallMinePendingTransactions _ now)) in H1
      as (-> & -> & _).
    by apply Hin.
  - unfold Explorer.add_direct_block.
    destruct (blockchain self) as [bc|] eqn:Hbc; [|by intros [= <-]].
    destruct (negb _); [|by intros [= <-]].
    destruct (add_block_direct _ _ _ _) as [bc1| |] eqn:H1; simpl; try done.
    intros [= <-] bc' [= <-].
    apply (call_appends fuel bc bc1 (CallAddBlockDirect _ now)) in H1 as (-> & -> & _).
    by apply Hin.
  - destruct (Explorer.check_balance self line); simpl; try done. by intros [= <-].
  - by intros [= <-].
  - intros [= <-]. unfold Explorer.tamper_block.
    destruct (blockchain self) as [bc|] eqn:Hbc; [|exact Hin].
    destruct (py_int index_line) as [i|]; [|exact Hin].
    destruct (negb _); [|exact Hin].
    unfold tamper_with_block. destruct (_ && _); simpl; intros bc' [= <-];
      exact (Hin bc Hbc).
  - by intros [= <-].
  - destruct (load_blockchain fuel self chain_data now clock) as [result| |] eqn:Hload;
      simpl; try done.
    intros [= <-] bc'. apply load_blockchain_Ok in Hload as (fresh & H0 & -> & _).
    intros [= <-].
    destruct (load_loop_spec (set_chain fresh []) chain_data clock) as (read & -> & _).
    simpl. apply Blockchain_init_Ok in H0 as (g & _ & _ & _ & _ & _ & _ & -> & _ & ->).
    split; [lia | done].
  - by intros [= <-].
  - by intros [= <-].
  - by intros [= <-].
Qed.

Lemma run_step (fuel : nat) (self ex : BlockchainExplorer) (c : Explorer.Command)
    (rest : list Explorer.Command) :
  Explorer.run fuel self (c :: rest) = Ok ex ->
  ex = self
  \/ exists self1, Explorer.command fuel self c = Ok self1
                   /\ Explorer.run fuel self1 rest = Ok ex.
Proof.
  destruct c; cbn [Explorer.run];
    try match goal with |- Ok _ = Ok _ -> _ => intros [= <-]; by left end;
    destruct (Explorer.command fuel self _) as [self1| |] eqn:H1;
    cbn [mbind outcome_bind]; try done; intros Hrest; right; by exists self1.
Qed.

(** X13.  Whatever choices are made in a session of the explorer, started
    without a chain, the chain it holds afterwards (created, loaded, extended
    or tampered with) has a difficulty from 1 to 6 and the reward 100: no
    command mines outside the range that [create_blockchain] checks. *)
Theorem explorer_session_difficulty (fuel : nat) (session : list Explorer.Command)
    (ex : BlockchainExplorer) (bc : Blockchain) :
  Explorer.run fuel (mkExplorer None) session = Ok ex ->
  blockchain ex = Some bc ->
  1 <= difficulty bc <= 6 /\ mining_reward bc = 100.
Proof.
  assert (in_range (mkExplorer None)) as H0 by done.
  revert H0. generalize (mkExplorer None). revert ex bc.
  induction session as [|c session IH]; intros ex bc self Hin.
  - intros [= <-]. apply Hin.
  - intros [->|(self1 & H1 & Hrest)]%run_step; [apply Hin|].
    revert Hrest. apply IH. by apply (in_range_command fuel self self1 c).
Qed.





(** X14.  A line of white space only (the empty line included) is no input.
    Given one for the block data, for the new data of a tampering, or for
    the sender, the recipient or the amount of a transaction, the explorer
    is left exactly as it was; given one for the address, [check_balance]
    reports it without reading the chain; given one for the miner, the
    reward goes to ["Interactive Miner"]. *)
Theorem explorer_blank_input (fuel : nat) (self : BlockchainExplorer) (blank : string)
    (now : Stamp) :
  all_chars isspace blank = true ->
  Explorer.add_direct_block fuel self blank now
  = Ok (self, match blockchain self with
              | Some _ => Explorer.BlockDataCannotBeEmpty
              | None => Explorer.CreateABlockchainFirst
              end)
  /\ (forall index_line, fst (Explorer.tamper_block self index_line blank) = self)
  /\ (forall a b,
        fst (Explorer.add_transaction self blank a b) = self
        /\ fst (Explorer.add_transaction self a blank b) = self
        /\ fst (Explorer.add_transaction self a b blank) = self)
  /\ Explorer.check_balance self blank
     = Ok (match blockchain self with
           | Some _ => Explorer.AddressCannotBeEmpty
           | None => Explorer.CreateABlockchainFirst
           end)
  /\ (forall bc t ts,
        blockchain self = Some bc -> pending_transactions bc = t :: ts ->
        Explorer.mine_transactions fuel self blank now
        = (bc ← mine_pending_transactions fuel bc "Interactive Miner" now;
           Ok (mkExplorer (Some bc), Explorer.NothingMore))).
Proof.
  intros Hb%strip_blank.
  unfold Explorer.add_direct_block, Explorer.tamper_block, Explorer.add_transaction,
    Explorer.check_balance, Explorer.mine_transactions.
  rewrite Hb. simpl. destruct (blockchain self) as [bc|]; simpl.
  - split; [done|]. split; [intros i; by destruct (py_int i)|].
    split; [|split; [done|]].
    + intros a b. rewrite !andb_false_r. done.
    + by intros bc' t ts [= <-] ->.
  - split; [done|]. split; [done|]. split; [done|]. split; [done|]. by intros.
Qed.

Lemma count_transactions_snoc (blocks : list Block) (b : Block) :
  Explorer.count_transactions (blocks ++ [b])
  = (Explorer.count_transactions blocks
     + if (0 <? index b)%Z then length (split_sep " | " (data b)) else 0)%nat.
Proof.
  unfold Explorer.count_transactions. rewrite fold_left_app. simpl.
  destruct (0 <? index b); lia.
Qed.

(** X15.  The count of [show_stats] after a flush: the new block adds one
    for every entry that was queued and one more for the reward entry, which
    is counted as a transaction (under the conditions of X8, and on a chain
    that held a block). *)
Theorem stats_count_after_flush (fuel : nat) (self self' : Blockchain) (ts : list string)
    (miner : string) (now : Stamp) :
  ts <> [] ->
  Forall (fun t => no_bar t = true) (pending_transactions self ++ ts) ->
  no_bar miner = true ->
  mine_pending_transactions fuel (foldl add_transaction self ts) miner now = Ok self' ->
  Explorer.count_transactions (chain self')
  = (Explorer.count_transactions (chain self)
     + length (pending_transactions self) + length ts + 1)%nat.
Proof.
  intros Hne Hbar Hminer Hflush.
  destruct (foldl_add_transaction ts self) as (Hc & _ & Hr & Hp).
  apply mine_pending_transactions_Ok in Hflush
    as (latest & b & Hlast & Hchain & Hi & Hdata & _ & _ & Hpend).
  2:{ rewrite Hp. by destruct (pending_transactions self), ts. }
  rewrite Hc in Hlast, Hchain, Hi. rewrite Hr, Hp in Hdata.
  rewrite Hchain, count_transactions_snoc.
  replace (0 <? index b) with true.
  2:{ symmetry. apply Z.ltb_lt. rewrite Hi. destruct (chain self); [done | simpl; lia]. }
  rewrite Hdata, split_join.
  - rewrite !length_app. simpl. lia.
  - by destruct (pending_transactions self), ts.
  - apply Forall_app. split; [done|]. constructor; [|done]. by apply no_bar_reward_entry.
Qed.

End Sessions.

(** ** The network: what a broadcast does *)

Section Networking.
Context {rt : PyRuntime} {fm : PyFormat}.

(** Validation of a chain with one more block: the chain before validates,
    and the new block is fresh and linked to the last one. *)
Lemma is_chain_valid_snoc_eq (self : Blockchain) (latest b : Block) :
  last (chain self) = Some latest ->
  is_chain_valid (set_chain self (chain self ++ [b]))
  = is_chain_valid self && (hash b =? calculate_hash b)%string
    && (previous_hash b =? hash latest)%string.
Proof.
  intros Hlast. apply eq_true_iff_eq.
  rewrite !andb_true_iff, !String.eqb_eq. split.
  - intros Hv. pose proof Hlast as Hl. rewrite last_lookup in Hl.
    rewrite is_chain_valid_spec in Hv. simpl in Hv. rewrite length_app in Hv. simpl in Hv.
    assert (length (chain self) <> 0)%nat as Hne
      by (destruct (chain self); [done | simpl; lia]).
    destruct (Hv (length (chain self))) as (c & p & Hc & Hp & Hf & Hk); [lia|].
    replace (length (chain self) - 1)%nat with (pred (length (chain self))) in Hp by lia.
    rewrite list_lookup_middle in Hc by done. rewrite lookup_app_l in Hp by lia.
    rewrite Hl in Hp. injection Hc as <-. injection Hp as <-.
    split; [split; [|done] | done].
    apply is_chain_valid_spec. intros i Hi.
    destruct (Hv i) as (c & p & Hc & Hp & ? & ?); [lia|].
    rewrite lookup_app_l in Hc by lia. rewrite lookup_app_l in Hp by lia.
    by exists c, p.
  - intros [[Hv Hf] Hk]. by apply (is_chain_valid_snoc self latest b).
Qed.

Lemma tip_last (n : Network.NetworkNode) (latest : Block) :
  last (chain (Network.blockchain n)) = Some latest -> Network.tip n = hash latest.
Proof. unfold Network.tip. by intros ->. Qed.

Lemma validate_deliver (n : Network.NetworkNode) (b : Block) :
  chain (Network.blockchain n) <> [] ->
  Network.validate_and_add_block n b
  = Ok (if Network.accepts b n then Network.append_block n b else n, Network.accepts b n).
Proof.
  intros Hne. unfold Network.validate_and_add_block, Network.accepts, get_latest_block.
  destruct (last (chain (Network.blockchain n))) as [latest|] eqn:Hlast;
    [|by apply last_None in Hlast].
  rewrite (tip_last n latest Hlast).
  destruct (Z.of_nat _ =? index b); simpl; [|done].
  by destruct (hash latest =? previous_hash b)%string.
Qed.

(** X16.  A peer takes a block on its position and its link alone.  A block
    whose index is the length of the peer's chain and whose link is the
    peer's last digest is appended, whatever its payload, its counter and
    its stored digest: neither the digest nor the proof of work is checked,
    and the peer's chain validates afterwards exactly if it did before and
    the stored digest of the block happens to be a recomputation. *)
Theorem peer_accepts_on_link_alone (self : Network.NetworkNode) (block latest : Block) :
  last (chain (Network.blockchain self)) = Some latest ->
  Z.of_nat (length (chain (Network.blockchain self))) = index block ->
  hash latest = previous_hash block ->
  exists self',
    Network.validate_and_add_block self block = Ok (self', true)
    /\ chain (Network.blockchain self') = chain (Network.blockchain self) ++ [block]
    /\ is_chain_valid (Network.blockchain self')
       = is_chain_valid (Network.blockchain self)
         && (hash block =? calculate_hash block)%string.
Proof.
  intros Hlast Hi Hl. eexists. split; [|split].
  - unfold Network.validate_and_add_block, get_latest_block.
    rewrite Hlast. simpl. apply Z.eqb_eq in Hi. apply String.eqb_eq in Hl.
    by rewrite Hi, Hl.
  - done.
  - simpl. rewrite (is_chain_valid_snoc_eq _ latest) by done.
    rewrite <- Hl, String.eqb_refl. apply andb_true_r.
Qed.

Lemma append_block_length (n : Network.NetworkNode) (b : Block) :
  length (chain (Network.blockchain (Network.append_block n b)))
  = S (length (chain (Network.blockchain n))).
Proof. simpl. rewrite length_app. simpl. lia. Qed.

Lemma append_block_tip (n : Network.NetworkNode) (b : Block) :
  Network.tip (Network.append_block n b) = hash b.
Proof. unfold Network.tip. simpl. by rewrite last_snoc. Qed.

Lemma accepts_append_block (n : Network.NetworkNode) (b : Block) :
  Network.accepts b n = true -> Network.accepts b (Network.append_block n b) = false.
Proof.
  unfold Network.accepts. intros [Hi _]%andb_true_iff. apply Z.eqb_eq in Hi.
  rewrite append_block_length. apply andb_false_iff. left. apply Z.eqb_neq. lia.
Qed.

Lemma deliver_idempotent (b : Block) (n : Network.NetworkNode) :
  Network.deliver b (Network.deliver b n) = Network.deliver b n.
Proof.
  unfold Network.deliver.
  destruct (Network.is_online n) eqn:Ho; simpl; [|by rewrite Ho].
  destruct (Network.accepts b n) eqn:Ha; simpl; [|by rewrite Ho, Ha].
  by rewrite accepts_append_block, andb_false_r.
Qed.

Lemma deliver_nonempty (b : Block) (n : Network.NetworkNode) :
  chain (Network.blockchain n) <> [] -> chain (Network.blockchain (Network.deliver b n)) <> [].
Proof.
  unfold Network.deliver. destruct (_ && _); [|done]. simpl.
  intros _. by destruct (chain (Network.blockchain n)).
Qed.

Lemma insert_alter (store : list Network.NetworkNode) (p : nat)
    (f : Network.NetworkNode -> Network.NetworkNode) (x : Network.NetworkNode) :
  store !! p = Some x -> <[p := f x]> store = alter f p store.
Proof.
  intros Hp. apply list_eq. intros j. destruct (decide (p = j)) as [<-|Hne].
  - rewrite list_lookup_alter_eq, Hp, list_lookup_insert_eq; [done|].
    by apply lookup_lt_Some in Hp.
  - by rewrite list_lookup_alter_ne, list_lookup_insert_ne.
Qed.

Lemma alter_same (store : list Network.NetworkNode) (p : nat)
    (f : Network.NetworkNode -> Network.NetworkNode) :
  (forall x, store !! p = Some x -> f x = x) -> alter f p store = store.
Proof.
  intros Hf. apply list_eq. intros j. destruct (decide (p = j)) as [<-|Hne].
  - rewrite list_lookup_alter_eq. destruct (store !! p) eqn:E; simpl; [|done].
    by rewrite Hf.
  - by rewrite list_lookup_alter_ne.
Qed.

(** All nodes of a store hold at least one block. *)
Definition stocked (store : list Network.NetworkNode) : Prop :=
  forall j n, store !! j = Some n -> chain (Network.blockchain n) <> [].

Lemma stocked_alter_deliver (store : list Network.NetworkNode) (p : nat) (b : Block) :
  stocked store -> stocked (alter (Network.deliver b) p store).
Proof.
  intros Hs j n. destruct (decide (p = j)) as [<-|Hne].
  - rewrite list_lookup_alter_eq. destruct (store !! p) as [x|] eqn:E; simpl; [|done].
    intros [= <-]. apply deliver_nonempty. by apply (Hs p).
  - rewrite list_lookup_alter_ne by done. apply Hs.
Qed.

(** The loop of [broadcast_block] delivers the block once to every peer. *)
Lemma broadcast_loop_alter (ps : list nat) (b : Block) :
  forall store, stocked store ->
    Network.broadcast_loop store ps b
    = Ok (foldl (fun s p => alter (Network.deliver b) p s) store ps).
Proof.
  induction ps as [|p ps IH]; intros store Hs; simpl; [done|].
  destruct (store !! p) as [peer|] eqn:Hp.
  - destruct (Network.is_online peer) eqn:Ho.
    + rewrite validate_deliver by by apply (Hs p). simpl.
      rewrite (insert_alter store p (fun n => if Network.accepts b n
                                              then Network.append_block n b else n) peer Hp).
      assert (alter (fun n => if Network.accepts b n then Network.append_block n b else n)
                p store = alter (Network.deliver b) p store) as ->.
      { apply list_eq. intros j. destruct (decide (p = j)) as [<-|Hne].
        - rewrite !list_lookup_alter_eq, Hp. simpl. unfold Network.deliver. by rewrite Ho.
        - by rewrite !list_lookup_alter_ne. }
      apply IH. by apply stocked_alter_deliver.
    + rewrite (alter_same store p (Network.deliver b)); [by apply IH|].
      intros x. rewrite Hp. intros [= <-]. unfold Network.deliver. by rewrite Ho.
  - rewrite (alter_same store p (Network.deliver b)); [by apply IH|].
    intros x. by rewrite Hp.
Qed.

Lemma foldl_alter_lookup (f : Network.NetworkNode -> Network.NetworkNode) (ps : list nat) :
  (forall x, f (f x) = f x) ->
  forall (store : list Network.NetworkNode) (j : nat),
    foldl (fun s p => alter f p s) store ps !! j
    = if bool_decide (j ∈ ps) then f <$> store !! j else store !! j.
Proof.
  intros Hf. induction ps as [|p ps IH]; intros store j; cbn [foldl].
  - case_bool_decide as H; [by apply elem_of_nil in H | done].
  - rewrite IH. destruct (decide (p = j)) as [<-|Hne].
    + rewrite list_lookup_alter_eq. rewrite (bool_decide_eq_true_2 (p ∈ p :: ps)) by left.
      destruct (bool_decide (p ∈ ps)); [|done].
      destruct (store !! p); simpl; [by rewrite Hf | done].
    + rewrite list_lookup_alter_ne by done.
      destruct (decide (j ∈ ps)) as [Hin|Hnin].
      * rewrite !bool_decide_eq_true_2; [done | by right | done].
      * rewrite !bool_decide_eq_false_2; [done | | done].
        intros [->|?]%elem_of_cons; done.
Qed.

Lemma accepts_spec (b : Block) (n node : Network.NetworkNode) :
  index b = Z.of_nat (length (chain (Network.blockchain node))) ->
  previous_hash b = Network.tip node ->
  Network.accepts b n
  = (length (chain (Network.blockchain n)) =? length (chain (Network.blockchain node)))%nat
    && (Network.tip n =? Network.tip node)%string.
Proof.
  intros Hi Hp. unfold Network.accepts. rewrite Hi, Hp. f_equal.
  apply eq_true_iff_eq. rewrite Z.eqb_eq, Nat.eqb_eq. lia.
Qed.

Lemma foldl_alter_length (f : Network.NetworkNode -> Network.NetworkNode) (ps : list nat) :
  forall s : list Network.NetworkNode,
    length (foldl (fun s p => alter f p s) s ps) = length s.
Proof.
  induction ps as [|p ps IH]; intros s; simpl; [done|]. by rewrite IH, length_alter.
Qed.

(** [mine_block] of an online node: the new block, and the store after the
    loop of the broadcast has visited the miner's peers. *)
Lemma mine_block_deliver (fuel : nat) (store store' : list Network.NetworkNode)
    (self : nat) (node : Network.NetworkNode) (payload : string) (now : Stamp) :
  stocked store ->
  store !! self = Some node -> Network.is_online node = true ->
  Network.mine_block fuel store self payload now = Ok store' ->
  exists b,
    index b = Z.of_nat (length (chain (Network.blockchain node)))
    /\ data b = "[" +:+ Network.node_id node +:+ "] " +:+ payload
    /\ previous_hash b = Network.tip node
    /\ hash b = calculate_hash b
    /\ slice_to (hash b) (difficulty (Network.blockchain node))
       = str_mul "0" (difficulty (Network.blockchain node))
    /\ store' = foldl (fun s p => alter (Network.deliver b) p s)
                      (<[self := Network.append_block node b]> store)
                      (Network.peers node).
Proof.
  intros Hs Hself Ho. unfold Network.mine_block. rewrite Hself, Ho. simpl.
  unfold get_latest_block.
  destruct (last (chain (Network.blockchain node))) as [latest|] eqn:Hlast; simpl;
    [|apply last_None in Hlast; by apply (Hs self) in Hlast].
  destruct (mine_block _ _ _) as [b| |] eqn:Hb; simpl; try done.
  pose proof (mine_block_target _ _ _ _ Hb) as Ht.
  apply mine_new_block in Hb as (Hi & _ & Hd & Hp & Hf).
  pose proof (lookup_lt_Some _ _ _ Hself) as Hlt.
  unfold Network.broadcast_block. rewrite list_lookup_insert_eq by done. simpl.
  rewrite Ho. simpl.
  assert (stocked (<[self:=Network.append_block node b]> store)) as Hs0.
  { intros j n. destruct (decide (self = j)) as [<-|Hne].
    - rewrite list_lookup_insert_eq by done. intros [= <-]. simpl.
      by destruct (chain (Network.blockchain node)).
    - rewrite list_lookup_insert_ne by done. apply Hs. }
  change (Network.mkNode (Network.node_id node) (Network.stake node)
            (set_chain (Network.blockchain node)
               (chain (Network.blockchain node) ++ [b]))
            (Network.peers node) (Network.is_online node))
    with (Network.append_block node b).
  rewrite broadcast_loop_alter by done. intros [= <-].
  exists b. repeat (split; [done|]). split; [|done].
  by rewrite (tip_last node latest).
Qed.

(** The miner's own chain has moved on when the block comes back to it. *)
Lemma deliver_own (b : Block) (node : Network.NetworkNode) :
  index b = Z.of_nat (length (chain (Network.blockchain node))) ->
  previous_hash b = Network.tip node ->
  Network.deliver b (Network.append_block node b) = Network.append_block node b.
Proof.
  intros Hi Hp. unfold Network.deliver.
  rewrite (accepts_append_block node b); [by rewrite andb_false_r|].
  rewrite (accepts_spec b node node Hi Hp).
  by rewrite Nat.eqb_refl, String.eqb_refl.
Qed.

(** X17.  What [mine_block] of a node leaves in the network.  The miner's
    chain ends in a new block, mined at the miner's difficulty over the
    payload ["[<node_id>] <data>"] and linked to the miner's last digest;
    the same block is appended to the chain of every peer of the miner that
    is online and whose chain has the length and the last digest the
    miner's chain had; every other node (offline, not a peer, or on another
    chain) is left as it was. *)
Theorem mine_block_broadcast (fuel : nat) (store store' : list Network.NetworkNode)
    (self : nat) (node : Network.NetworkNode) (payload : string) (now : Stamp) :
  (forall j n, store !! j = Some n -> chain (Network.blockchain n) <> []) ->
  store !! self = Some node -> Network.is_online node = true ->
  Network.mine_block fuel store self payload now = Ok store' ->
  exists b,
    index b = Z.of_nat (length (chain (Network.blockchain node)))
    /\ data b = "[" +:+ Network.node_id node +:+ "] " +:+ payload
    /\ previous_hash b = Network.tip node
    /\ hash b = calculate_hash b
    /\ slice_to (hash b) (difficulty (Network.blockchain node))
       = str_mul "0" (difficulty (Network.blockchain node))
    /\ length store' = length store
    /\ store' !! self = Some (Network.append_block node b)
    /\ forall j n, j <> self -> store !! j = Some n ->
         store' !! j
         = Some (if bool_decide (j ∈ Network.peers node) && Network.is_online n
                    && (length (chain (Network.blockchain n))
                        =? length (chain (Network.blockchain node)))%nat
                    && (Network.tip n =? Network.tip node)%string
                 then Network.append_block n b else n).
Proof.
  intros Hs Hself Ho Hrun.
  destruct (mine_block_deliver _ _ _ _ _ _ _ Hs Hself Ho Hrun)
    as (b & Hi & Hd & Hp & Hf & Ht & ->).
  pose proof (lookup_lt_Some _ _ _ Hself) as Hlt.
  exists b. repeat (split; [done|]).
  split; [by rewrite foldl_alter_length, length_insert|].
  split.
  - rewrite (foldl_alter_lookup _ _ (deliver_idempotent b)).
    rewrite list_lookup_insert_eq by done.
    destruct (bool_decide _); [|done].
    change (Some (Network.deliver b (Network.append_block node b))
            = Some (Network.append_block node b)).
    by rewrite deliver_own.
  - intros j n Hne Hj.
    rewrite (foldl_alter_lookup _ _ (deliver_idempotent b)).
    rewrite list_lookup_insert_ne by done. rewrite Hj.
    destruct (bool_decide _); [|done].
    change (Some (Network.deliver b n)
            = Some (if true && Network.is_online n
                       && (length (chain (Network.blockchain n))
                           =? length (chain (Network.blockchain node)))%nat
                       && (Network.tip n =? Network.tip node)%string
                    then Network.append_block n b else n)).
    unfold Network.deliver. rewrite (accepts_spec b n node Hi Hp).
    by rewrite andb_true_l, andb_assoc.
Qed.

(** Consensus, as [check_consensus] computes it. *)
Lemma check_consensus_intro (net : Network.BlockchainNetwork) :
  (forall r os, List.filter Network.is_online (Network.nodes net) = r :: os ->
     forall o, In o os ->
       length (chain (Network.blockchain o)) = length (chain (Network.blockchain r))
       /\ Network.tip o = Network.tip r) ->
  Network.check_consensus net = true.
Proof.
  intros H. unfold Network.check_consensus.
  destruct (Network.nodes net) as [|n0 rest] eqn:E; [done|].
  destruct (List.filter Network.is_online (n0 :: rest)) as [|r os] eqn:F; [done|].
  apply forallb_forall. intros o Ho.
  destruct (H r os eq_refl o Ho) as [-> ->].
  by rewrite Nat.eqb_refl, String.eqb_refl, andb_false_r.
Qed.

Lemma check_consensus_elim (net : Network.BlockchainNetwork) :
  stocked (Network.nodes net) ->
  Network.check_consensus net = true ->
  forall n m, In n (List.filter Network.is_online (Network.nodes net)) ->
              In m (List.filter Network.is_online (Network.nodes net)) ->
    length (chain (Network.blockchain n)) = length (chain (Network.blockchain m))
    /\ Network.tip n = Network.tip m.
Proof.
  intros Hs. unfold Network.check_consensus.
  destruct (Network.nodes net) as [|n0 rest] eqn:E; [by intros _ n m []|].
  destruct (List.filter Network.is_online (n0 :: rest)) as [|r os] eqn:F;
    [by intros _ n m []|].
  intros Hall.
  assert (forall n, In n (r :: os) ->
            length (chain (Network.blockchain n)) = length (chain (Network.blockchain r))
            /\ Network.tip n = Network.tip r) as Href.
  { intros n [<-|Hn]; [done|].
    rewrite forallb_forall in Hall. specialize (Hall n Hn).
    assert (In n (n0 :: rest)) as Hin.
    { apply (proj1 (filter_In Network.is_online n (n0 :: rest))).
      rewrite F. by right. }
    apply list_elem_of_In, list_elem_of_lookup in Hin as [j Hj].
    apply Hs in Hj.
    destruct (length (chain (Network.blockchain n))
              =? length (chain (Network.blockchain r)))%nat eqn:E1; [|done].
    apply Nat.eqb_eq in E1. split; [done|].
    destruct (length (chain (Network.blockchain n)) =? 0)%nat eqn:E2.
    { apply Nat.eqb_eq in E2. by destruct (chain (Network.blockchain n)). }
    destruct (Network.tip n =? Network.tip r)%string eqn:E3; [|done].
    by apply String.eqb_eq. }
  intros n m [Hn1 Hn2]%Href [Hm1 Hm2]%Href. split; congruence.
Qed.

Lemma filter_online_map (h : Network.NetworkNode -> Network.NetworkNode)
    (store : list Network.NetworkNode) :
  (forall n, Network.is_online (h n) = Network.is_online n) ->
  List.filter Network.is_online (map h store)
  = map h (List.filter Network.is_online store).
Proof.
  intros Hh. induction store as [|n store IH]; simpl; [done|].
  rewrite Hh, IH. by destruct (Network.is_online n).
Qed.

Lemma online_nodes_lookup (store : list Network.NetworkNode) (choice miner : nat) :
  Network.online_nodes store !! choice = Some miner ->
  exists node, store !! miner = Some node /\ Network.is_online node = true.
Proof.
  intros Hin%list_elem_of_lookup_2%list_elem_of_In.
  apply filter_In in Hin as [_ Hon].
  destruct (store !! miner) as [node|]; [|done]. by exists node.
Qed.

(** X18.  A mining round keeps consensus.  In a network whose nodes all
    hold at least one block and in which every online node has every other
    online node among its peers (as [add_node] connects them), if
    [check_consensus] holds before [random_mining_round], it holds after
    it, whichever online node is drawn as the miner; and when a round takes
    place (the pool is not empty and a node is online), one and the same
    new block has been appended to the chain of every online node, while
    the offline nodes are left behind as they were. *)
Theorem mining_round_keeps_consensus (fuel : nat) (net net' : Network.BlockchainNetwork)
    (choice : nat) (now : Stamp) :
  (forall j n, Network.nodes net !! j = Some n -> chain (Network.blockchain n) <> []) ->
  (forall i j ni nj,
     Network.nodes net !! i = Some ni -> Network.nodes net !! j = Some nj -> i <> j ->
     Network.is_online ni = true -> Network.is_online nj = true ->
     j ∈ Network.peers ni) ->
  Network.check_consensus net = true ->
  Network.random_mining_round fuel net choice now = Ok net' ->
  Network.check_consensus net' = true
  /\ (Network.transaction_pool net <> [] ->
      Network.online_nodes (Network.nodes net) !! choice <> None ->
      Network.transaction_pool net' = []
      /\ exists b,
           Network.nodes net'
           = map (fun n => if Network.is_online n then Network.append_block n b else n)
                 (Network.nodes net)).
Proof.
  intros Hs Hmesh Hc. unfold Network.random_mining_round.
  destruct (Network.transaction_pool net) as [|t pool] eqn:Hpool;
    [intros [= <-]; by split|].
  destruct (Network.nodes net) as [|n0 rest] eqn:Hnodes; [intros [= <-]; by split|].
  rewrite <- Hnodes in *.
  destruct (Network.online_nodes (Network.nodes net) !! choice) as [miner|] eqn:Hm;
    [|intros [= <-]; by split].
  destruct (Network.mine_block _ _ _ _ _) as [store'| |] eqn:Hrun; simpl; try done.
  intros [= <-]. simpl.
  destruct (online_nodes_lookup _ _ _ Hm) as (node & Hself & Ho).
  destruct (mine_block_deliver _ _ _ _ _ _ _ Hs Hself Ho Hrun)
    as (b & Hi & _ & Hp & _ & _ & Hstore).
  pose proof (lookup_lt_Some _ _ _ Hself) as Hlt.
  assert (forall j n, Network.nodes net !! j = Some n -> Network.is_online n = true ->
            In n (List.filter Network.is_online (Network.nodes net))) as Hin.
  { intros j n Hj Hon. apply filter_In. split; [|done].
    by apply list_elem_of_lookup_2, list_elem_of_In in Hj. }
  assert (store'
          = map (fun n => if Network.is_online n then Network.append_block n b else n)
                (Network.nodes net)) as Hmap.
  { apply list_eq. intros j. rewrite list_lookup_fmap, Hstore.
    rewrite (foldl_alter_lookup _ _ (deliver_idempotent b)).
    destruct (decide (miner = j)) as [<-|Hne].
    - rewrite list_lookup_insert_eq, Hself by done. simpl. rewrite Ho.
      destruct (bool_decide _); [|done].
      change (Some (Network.deliver b (Network.append_block node b))
              = Some (Network.append_block node b)).
      by rewrite deliver_own.
    - rewrite list_lookup_insert_ne by done.
      destruct (Network.nodes net !! j) as [n|] eqn:Hj; [|by destruct (bool_decide _)].
      simpl. destruct (Network.is_online n) eqn:Hon.
      + rewrite bool_decide_eq_true_2 by by apply (Hmesh miner j node n).
        change (Some (Network.deliver b n) = Some (Network.append_block n b)).
        unfold Network.deliver. rewrite Hon, (accepts_spec b n node Hi Hp).
        destruct (check_consensus_elim net Hs Hc n node) as [-> ->];
          [by apply (Hin j) | by apply (Hin miner)|].
        by rewrite Nat.eqb_refl, String.eqb_refl.
      + destruct (bool_decide _); [|done].
        change (Some (Network.deliver b n) = Some n).
        unfold Network.deliver. by rewrite Hon. }
  split.
  - apply check_consensus_intro. simpl. rewrite Hmap. intros r os.
    rewrite filter_online_map by (intros n; by destruct (Network.is_online n) eqn:E).
    destruct (List.filter Network.is_online (Network.nodes net)) as [|r0 os0] eqn:F;
      [done|].
    assert (forall n, In n (r0 :: os0) -> Network.is_online n = true) as Hon.
    { intros n Hn. rewrite <- F in Hn. by apply filter_In in Hn as [_ ?]. }
    simpl. rewrite (Hon r0) by by left. intros [= <- <-] o Ho'.
    apply in_map_iff in Ho' as (o0 & <- & Ho0).
    rewrite (Hon o0) by by right.
    rewrite !append_block_length, !append_block_tip. split; [|done]. f_equal.
    apply (check_consensus_elim net Hs Hc); rewrite F; [by right | by left].
  - intros _ _. split; [done|]. by exists b.
Qed.

(** *** Joining the network *)

Lemma existsb_seq (k : nat) : existsb (Nat.eqb k) (seq 0 k) = false.
Proof.
  apply not_true_iff_false. intros (x & Hx & Heq)%existsb_exists.
  apply Nat.eqb_eq in Heq as <-. apply in_seq in Hx. lia.
Qed.

(** The store while [add_node] connects the new node, after it has visited
    the first [k] of the [N] nodes that were there. *)
Definition connecting (nodes0 : list Network.NetworkNode) (new : Network.NetworkNode)
    (k j : nat) : option Network.NetworkNode :=
  let N := length nodes0 in
  if (j <? k)%nat
  then (fun n => Network.set_peers n (Network.peers n ++ [N])) <$> nodes0 !! j
  else if (j <? N)%nat then nodes0 !! j
  else if (j =? N)%nat then Some (Network.set_peers new (seq 0 k))
  else None.

Lemma add_node_connecting (nodes0 : list Network.NetworkNode) (new : Network.NetworkNode)
    (k : nat) :
  (k <= length nodes0)%nat ->
  forall j,
    fold_left (fun store existing_node =>
                 Network.add_peer store (length nodes0) existing_node)
              (seq 0 k) (nodes0 ++ [Network.set_peers new []]) !! j
    = connecting nodes0 new k j.
Proof.
  induction k as [|k IH]; intros Hk j.
  - unfold connecting. simpl.
    destruct (j <? length nodes0)%nat eqn:E1.
    + apply Nat.ltb_lt in E1. by rewrite lookup_app_l.
    + apply Nat.ltb_ge in E1. destruct (j =? length nodes0)%nat eqn:E2.
      * apply Nat.eqb_eq in E2 as ->. by rewrite list_lookup_middle.
      * apply Nat.eqb_neq in E2. apply lookup_ge_None. rewrite length_app. simpl. lia.
  - rewrite seq_S, fold_left_app. simpl.
    set (S0 := fold_left _ (seq 0 k) _) in *.
    assert (forall i, S0 !! i = connecting nodes0 new k i) as HS by (intros i; apply IH; lia).
    unfold Network.add_peer.
    rewrite (HS (length nodes0)). unfold connecting at 1.
    replace (length nodes0 <? k)%nat with false by (symmetry; apply Nat.ltb_ge; lia).
    rewrite Nat.ltb_irrefl, Nat.eqb_refl. simpl. rewrite existsb_seq. simpl.
    rewrite list_lookup_alter.
    destruct (decide (k = j)) as [<-|Hkj].
    + rewrite list_lookup_alter_ne by lia. rewrite HS. unfold connecting.
      rewrite Nat.ltb_irrefl.
      replace (k <? length nodes0)%nat with true by (symmetry; apply Nat.ltb_lt; lia).
      by replace (k <? S k)%nat with true by (symmetry; apply Nat.ltb_lt; lia).
    + rewrite list_lookup_alter.
      destruct (decide (length nodes0 = j)) as [<-|HNj].
      * rewrite HS. unfold connecting.
        replace (length nodes0 <? k)%nat with false by (symmetry; apply Nat.ltb_ge; lia).
        replace (length nodes0 <? S k)%nat with false by (symmetry; apply Nat.ltb_ge; lia).
        rewrite Nat.ltb_irrefl, Nat.eqb_refl, seq_S. reflexivity.
      * rewrite HS. unfold connecting.
        replace (j <? S k)%nat with (j <? k)%nat; [|].
        { destruct (j <? k)%nat; [done|]. destruct (j <? length nodes0)%nat; [done|].
          destruct (j =? length nodes0)%nat eqn:E; [|done].
          apply Nat.eqb_eq in E. lia. }
        apply eq_true_iff_eq. rewrite !Nat.ltb_lt. lia.
Qed.

(** One [add_node]: the nodes that were there have the new node as their
    last peer, and the new node, online and on a fresh chain of difficulty
    2, has them all as its peers, in order. *)
Lemma add_node_Ok (fuel : nat) (self self' : Network.BlockchainNetwork) (me : nat)
    (node_id : string) (stake : Network.Number) (now : Stamp) :
  Network.add_node fuel self node_id stake now = Ok (self', me) ->
  me = length (Network.nodes self)
  /\ Network.transaction_pool self' = Network.transaction_pool self
  /\ exists bc,
       Blockchain_init fuel 2 now = Ok bc
       /\ Network.nodes self'
          = map (fun n => Network.set_peers n (Network.peers n ++ [me])) (Network.nodes self)
            ++ [Network.mkNode node_id stake bc (seq 0 me) true].
Proof.
  unfold Network.add_node, Network.NetworkNode_init.
  destruct (Blockchain_init fuel 2 now) as [bc| |] eqn:Hbc; simpl; try done.
  intros [= <- <-]. split; [done|]. split; [done|]. exists bc. split; [done|].
  apply list_eq. intros j.
  rewrite (add_node_connecting (Network.nodes self)
             (Network.mkNode node_id stake bc [] true) (length (Network.nodes self)))
    by done.
  unfold connecting.
  destruct (j <? length (Network.nodes self))%nat eqn:E1.
  - apply Nat.ltb_lt in E1.
    rewrite lookup_app_l by (by rewrite length_map). by rewrite list_lookup_fmap.
  - apply Nat.ltb_ge in E1. destruct (j =? length (Network.nodes self))%nat eqn:E2.
    + apply Nat.eqb_eq in E2 as ->.
      rewrite lookup_app_r by (by rewrite length_map).
      by rewrite length_map, Nat.sub_diag.
    + apply Nat.eqb_neq in E2. symmetry. apply lookup_ge_None.
      rewrite length_app, length_map. simpl. lia.
Qed.

(** What [add_node] keeps true of a network: every node is online, holds a
    chain of one block at difficulty 2, and has as its peers all the other
    nodes, those before it and then those after it. *)
Definition meshed (store : list Network.NetworkNode) : Prop :=
  forall i n, store !! i = Some n ->
    Network.is_online n = true
    /\ Network.peers n = seq 0 i ++ seq (S i) (length store - S i)
    /\ difficulty (Network.blockchain n) = 2
    /\ exists g, chain (Network.blockchain n) = [g].

Lemma meshed_add_node (fuel : nat) (self self' : Network.BlockchainNetwork) (me : nat)
    (node_id : string) (stake : Network.Number) (now : Stamp) :
  meshed (Network.nodes self) ->
  Network.add_node fuel self node_id stake now = Ok (self', me) ->
  meshed (Network.nodes self').
Proof.
  intros Hm (-> & _ & bc & Hbc & ->)%add_node_Ok i n.
  rewrite length_app, length_map. simpl.
  intros Hi. apply lookup_app_Some in Hi as [Hi|[Hge Hi]].
  - rewrite list_lookup_fmap in Hi.
    destruct (Network.nodes self !! i) as [n0|] eqn:Hn0; [|done].
    injection Hi as <-. destruct (Hm i n0 Hn0) as (Ho & Hp & Hd & Hg).
    pose proof (lookup_lt_Some _ _ _ Hn0) as Hlt.
    split; [done|]. split; [|done]. simpl. rewrite Hp, <- app_assoc. f_equal.
    replace (length (Network.nodes self) + 1 - S i)%nat
      with (S (length (Network.nodes self) - S i)) by lia.
    rewrite seq_S. do 2 f_equal. lia.
  - rewrite length_map in Hge, Hi.
    apply list_lookup_singleton_Some in Hi as [Hi <-].
    assert (i = length (Network.nodes self)) as -> by lia. simpl.
    apply Blockchain_init_Ok in Hbc as (g & Hc & _ & _ & _ & _ & _ & Hd & _).
    split; [done|]. split; [|by eauto].
    replace (length (Network.nodes self) + 1 - S (length (Network.nodes self)))%nat
      with 0%nat by lia.
    by rewrite app_nil_r.
Qed.

Lemma meshed_add_nodes (fuel : nat) (calls : list (string * Network.Number * Stamp)) :
  forall self self',
    meshed (Network.nodes self) ->
    Network.add_nodes fuel self calls = Ok self' ->
    meshed (Network.nodes self')
    /\ length (Network.nodes self') = (length (Network.nodes self) + length calls)%nat
    /\ Network.transaction_pool self' = Network.transaction_pool self.
Proof.
  induction calls as [|[[node_id stake] now] calls IH]; intros self self' Hm; simpl.
  - intros [= <-]. split; [done|]. split; [lia | done].
  - destruct (Network.add_node fuel self node_id stake now) as [[self1 me]| |] eqn:H1;
      simpl; try done.
    intros Hrest. pose proof (meshed_add_node _ _ _ _ _ _ _ Hm H1) as Hm1.
    destruct (IH _ _ Hm1 Hrest) as (Hm' & Hlen & Hpool). split; [done|].
    apply add_node_Ok in H1 as (_ & Hp1 & bc & _ & Hnodes).
    split; [|congruence].
    rewrite Hlen, Hnodes, length_app, length_map. simpl. lia.
Qed.

Lemma meshed_stocked (store : list Network.NetworkNode) : meshed store -> stocked store.
Proof. intros Hm j n Hj. destruct (Hm j n Hj) as (_ & _ & _ & g & ->). done. Qed.

Lemma meshed_peers (store : list Network.NetworkNode) (i j : nat)
    (n : Network.NetworkNode) :
  meshed store -> store !! i = Some n ->
  j ∈ Network.peers n <-> (j < length store)%nat /\ j <> i.
Proof.
  intros Hm Hi. destruct (Hm i n Hi) as (_ & -> & _).
  pose proof (lookup_lt_Some _ _ _ Hi) as Hlt.
  rewrite elem_of_app, !elem_of_seq. lia.
Qed.

Lemma meshed_mesh (store : list Network.NetworkNode) (i j : nat)
    (ni nj : Network.NetworkNode) :
  meshed store ->
  store !! i = Some ni -> store !! j = Some nj -> i <> j ->
  Network.is_online ni = true -> Network.is_online nj = true ->
  j ∈ Network.peers ni.
Proof.
  intros Hm Hi Hj Hne _ _. apply (meshed_peers store i j ni Hm Hi).
  split; [by apply lookup_lt_Some in Hj | done].
Qed.

(** X19.  [add_node] builds a full mesh.  In a network built from the empty
    one by [add_node] calls, there is one node per call, each online and on
    its own chain of one (genesis) block at difficulty 2; every node has
    every other node among its peers, exactly once, and never itself. *)
Theorem add_node_full_mesh (fuel : nat) (calls : list (string * Network.Number * Stamp))
    (net : Network.BlockchainNetwork) :
  Network.add_nodes fuel Network.BlockchainNetwork_init calls = Ok net ->
  length (Network.nodes net) = length calls
  /\ forall i n, Network.nodes net !! i = Some n ->
       Network.is_online n = true
       /\ difficulty (Network.blockchain n) = 2
       /\ length (chain (Network.blockchain n)) = 1%nat
       /\ NoDup (Network.peers n)
       /\ forall j, j ∈ Network.peers n <-> (j < length (Network.nodes net))%nat /\ j <> i.
Proof.
  intros Hrun.
  assert (meshed (Network.nodes Network.BlockchainNetwork_init)) as H0 by (by intros i n).
  destruct (meshed_add_nodes _ _ _ _ H0 Hrun) as (Hm & Hlen & _).
  split; [done|]. intros i n Hi.
  destruct (Hm i n Hi) as (Ho & Hp & Hd & g & Hg).
  split; [done|]. split; [done|]. split; [by rewrite Hg|]. split.
  - rewrite Hp. apply NoDup_app. split; [apply NoDup_seq|]. split; [|apply NoDup_seq].
    intros x. rewrite !elem_of_seq. lia.
  - intros j. by apply meshed_peers.
Qed.

(** *** Consensus, exactly *)

(** X20.  [check_consensus], in a network whose nodes all hold a block, is
    true exactly if any two online nodes have chains of the same length
    with the same last digest.  Offline nodes are not looked at, and of an
    online node nothing but the length and the last digest of its chain. *)
Theorem check_consensus_exact (net : Network.BlockchainNetwork) :
  (forall j n, Network.nodes net !! j = Some n -> chain (Network.blockchain n) <> []) ->
  Network.check_consensus net = true
  <-> forall i j ni nj,
        Network.nodes net !! i = Some ni -> Network.nodes net !! j = Some nj ->
        Network.is_online ni = true -> Network.is_online nj = true ->
        length (chain (Network.blockchain ni)) = length (chain (Network.blockchain nj))
        /\ Network.tip ni = Network.tip nj.
Proof.
  intros Hs. split.
  - intros Hc i j ni nj Hi Hj Hoi Hoj.
    apply (check_consensus_elim net Hs Hc); apply filter_In; split; try done.
    + by apply list_elem_of_lookup_2, list_elem_of_In in Hi.
    + by apply list_elem_of_lookup_2, list_elem_of_In in Hj.
  - intros H. apply check_consensus_intro. intros r os F o Ho.
    assert (In o (List.filter Network.is_online (Network.nodes net))) as Ho'
      by (rewrite F; by right).
    assert (In r (List.filter Network.is_online (Network.nodes net))) as Hr'
      by (rewrite F; by left).
    apply filter_In in Ho' as [Ho1 Ho2]. apply filter_In in Hr' as [Hr1 Hr2].
    apply list_elem_of_In, list_elem_of_lookup in Ho1 as [i Hi].
    apply list_elem_of_In, list_elem_of_lookup in Hr1 as [j Hj].
    by apply (H i j).
Qed.

End Networking.

(** ** Validation and balances over the life of a chain *)

Section Lifetime.
Context {rt : PyRuntime}.

(** X21.  What [is_chain_valid] checks, exactly: every block but the first
    has a stored digest that is a recomputation and a link that is the
    stored digest of the block before it.  So a chain of no block or of one
    block always validates, and every initial part of a chain that
    validates does. *)
Theorem is_chain_valid_exact (self : Blockchain) :
  (is_chain_valid self = true
   <-> forall i c p, chain self !! S i = Some c -> chain self !! i = Some p ->
         hash c = calculate_hash c /\ previous_hash c = hash p)
  /\ ((length (chain self) <= 1)%nat -> is_chain_valid self = true)
  /\ (forall blocks rest,
        chain self = blocks ++ rest -> is_chain_valid self = true ->
        is_chain_valid (set_chain self blocks) = true).
Proof.
  assert (is_chain_valid self = true
          <-> forall i c p, chain self !! S i = Some c -> chain self !! i = Some p ->
                hash c = calculate_hash c /\ previous_hash c = hash p) as Hiff.
  { rewrite is_chain_valid_spec. split.
    - intros H i c p Hc Hp. destruct (H (S i)) as (c' & p' & Hc' & Hp' & ? & ?).
      { apply lookup_lt_Some in Hc. lia. }
      simpl in Hp'. rewrite Nat.sub_0_r in Hp'. by simplify_eq.
    - intros H i Hi. destruct i as [|i]; [lia|].
      destruct (lookup_lt_is_Some_2 (chain self) (S i)) as [c Hc]; [lia|].
      destruct (lookup_lt_is_Some_2 (chain self) i) as [p Hp]; [lia|].
      exists c, p. simpl. rewrite Nat.sub_0_r. by destruct (H i c p Hc Hp). }
  split; [done|]. split.
  - intros Hlen. apply Hiff. intros i c p Hc Hp. apply lookup_lt_Some in Hc. lia.
  - intros blocks rest Hchain Hv. apply is_chain_valid_spec. simpl.
    rewrite is_chain_valid_spec, Hchain in Hv. intros i Hi.
    destruct (Hv i) as (c & p & Hc & Hp & ? & ?); [rewrite length_app; lia|].
    rewrite lookup_app_l in Hc by lia. rewrite lookup_app_l in Hp by lia.
    by exists c, p.
Qed.

(** X22.  Adding blocks never repairs a chain.  If a chain does not
    validate (after a tampering, or as loaded), then after any sequence of
    [add_transaction], [mine_pending_transactions] and [add_block_direct]
    calls it still does not: the new blocks link to the stored digests and
    the check that failed fails again. *)
Theorem appends_never_repair (fuel : nat) (self self' : Blockchain) (cs : list Call) :
  is_chain_valid self = false ->
  calls fuel self cs = Ok self' ->
  is_chain_valid self' = false.
Proof.
  revert self. induction cs as [|c cs IH]; intros self Hv; simpl.
  - by intros [= <-].
  - destruct (call fuel self c) as [self1| |] eqn:H1; simpl; try done.
    apply IH.
    apply call_appends in H1 as (_ & _ & [Hsame|(latest & b & Hlast & Hchain & _)]).
    + by rewrite (is_chain_valid_chain self1 self).
    + rewrite (is_chain_valid_chain self1 (set_chain self (chain self ++ [b]))) by done.
      by rewrite (is_chain_valid_snoc_eq self latest b Hlast), Hv.
Qed.

(** X23.  Balances read mined blocks only.  Queued transactions change no
    balance until they are flushed, and on a chain fresh from the
    constructor every address has the balance zero, however many
    transactions are queued: the genesis block is skipped. *)
Theorem balances_ignore_queue (ts : list string) (address : string) :
  (forall self, get_balance (foldl add_transaction self ts) address
                = get_balance self address)
  /\ (forall fuel d now bc,
        Blockchain_init fuel d now = Ok bc ->
        get_balance (foldl add_transaction bc ts) address = Ok 0%float).
Proof.
  assert (forall self, get_balance (foldl add_transaction self ts) address
                       = get_balance self address) as Hq.
  { intros self. unfold get_balance.
    by destruct (foldl_add_transaction ts self) as (-> & _). }
  split; [done|]. intros fuel d now bc Hbc. rewrite Hq.
  apply Blockchain_init_Ok in Hbc as (g & Hc & Hi & _).
  unfold get_balance. rewrite Hc. simpl. by rewrite Hi.
Qed.

End Lifetime.

(** ** The web application *)

Section Serving.
Context {rt : PyRuntime}.

(** The global holds nothing, or a chain built by the constructor at
    difficulty 2 and the methods that append. *)
Definition served (blockchain : option Blockchain) : Prop :=
  forall bc, blockchain = Some bc -> built 2 bc.

Lemma built_add_transaction (d : Z) (self : Blockchain) (transaction : string) :
  built d self -> built d (add_transaction self transaction).
Proof.
  intros Hb. by apply (built_call 0 d self _ (CallAddTransaction transaction)).
Qed.

Lemma built_flush (fuel : nat) (d : Z) (self self' : Blockchain) (miner : string)
    (now : Stamp) :
  built d self -> mine_pending_transactions fuel self miner now = Ok self' ->
  built d self'.
Proof.
  intros Hb. by apply (built_call fuel d self _ (CallMinePendingTransactions miner now)).
Qed.

Lemma get_blockchain_served (fuel : nat) (blockchain : option Blockchain) (now : Stamp)
    (bc : Blockchain) :
  served blockchain -> Web.get_blockchain fuel blockchain now = Ok bc -> built 2 bc.
Proof.
  intros Hs. destruct blockchain as [bc0|]; simpl.
  - intros [= <-]. by apply Hs.
  - apply built_init.
Qed.

Lemma served_serve (fuel : nat) (blockchain blockchain' : option Blockchain)
    (request : Web.Request) (clock : nat -> Stamp) :
  served blockchain -> Web.serve fuel blockchain request clock = Ok blockchain' ->
  served blockchain'.
Proof.
  intros Hs.
  assert (forall now,
            (bc ← Web.get_blockchain fuel blockchain now; Ok (Some bc)) = Ok blockchain' ->
            served blockchain') as Hread.
  { intros now. destruct (Web.get_blockchain fuel blockchain now) as [bc| |] eqn:Hg;
      simpl; try done.
    intros [= <-] bc' [= <-]. by apply (get_blockchain_served fuel blockchain now). }
  destruct request as [| | |sender receiver amount| |miner| | | | | |]; simpl;
    try apply Hread.
  - by intros [= <-].
  - unfold Web.add_transaction. destruct (_ && _); [|by intros [= <-]].
    destruct (Web.get_blockchain fuel blockchain (clock 0%nat)) as [bc| |] eqn:Hg;
      simpl; try done.
    intros [= <-] bc' [= <-]. apply built_add_transaction.
    by apply (get_blockchain_served fuel blockchain (clock 0%nat)).
  - unfold Web.mine_block.
    destruct (Web.get_blockchain fuel blockchain (clock 0%nat)) as [bc| |] eqn:Hg;
      simpl; try done.
    apply (get_blockchain_served _ _ _ _ Hs) in Hg.
    destruct (pending_transactions bc) as [|t ts] eqn:Hp.
    + by intros [= <-] bc' [= <-].
    + destruct (mine_pending_transactions _ _ _ _) as [bc1| |] eqn:H1; simpl; try done.
      intros [= <-] bc' [= <-]. by apply (built_flush _ _ _ _ _ _ Hg H1).
  - unfold Web.validate_chain.
    destruct (Web.get_blockchain fuel blockchain (clock 0%nat)) as [bc| |] eqn:Hg;
      simpl; try done.
    intros [= <-] bc' [= <-]. by apply (get_blockchain_served fuel blockchain (clock 0%nat)).
  - unfold Web.reset_blockchain, Web.init_blockchain.
    destruct (Blockchain_init fuel 2 (clock 0%nat)) as [bc| |] eqn:Hg; simpl; try done.
    intros [= <-] bc' [= <-]. by apply built_init in Hg.
  - unfold Web.demo, Web.init_blockchain.
    destruct (Blockchain_init fuel 2 (clock 0%nat)) as [bc| |] eqn:Hg; simpl; try done.
    apply built_init in Hg.
    destruct (mine_pending_transactions fuel _ "Miner1" _) as [bc1| |] eqn:H1;
      simpl; try done.
    pose proof (built_flush _ 2 _ _ _ _
                  (built_add_transaction _ _ _ (built_add_transaction _ _ _ Hg)) H1)
      as Hb1.
    destruct (mine_pending_transactions fuel _ "Miner2" _) as [bc2| |] eqn:H2;
      simpl; try done.
    pose proof (built_flush _ 2 _ _ _ _
                  (built_add_transaction _ _ _ (built_add_transaction _ _ _ Hb1)) H2)
      as Hb2.
    by intros [= <-] bc' [= <-].
Qed.

(** X24.  The web application never holds a chain that fails validation.
    Whatever requests are served, starting with no chain, the chain the
    application holds afterwards validates, has the difficulty 2 and the
    reward 100, and every block of it stores a fresh digest that starts
    with two zeros; so the next [/validate] answers that the chain is
    valid.  (The application has no route that tampers with a block or
    loads a chain.) *)
Theorem web_chain_always_valid (fuel : nat) (session : list (Web.Request * (nat -> Stamp)))
    (blockchain : option Blockchain) :
  Web.serve_all fuel None session = Ok blockchain ->
  (forall bc, blockchain = Some bc ->
     is_chain_valid bc = true /\ difficulty bc = 2 /\ mining_reward bc = 100
     /\ forall b, b ∈ chain bc ->
          hash b = calculate_hash b /\ slice_to (hash b) 2 = "00")
  /\ (forall fuel' now answer,
        Web.validate_chain fuel' blockchain now = Ok answer -> snd answer = true).
Proof.
  intros Hrun.
  assert (served blockchain) as Hs.
  { assert (served None) as H0 by done. revert H0 Hrun. generalize (@None Blockchain).
    induction session as [|[request clock] session IH]; intros st H0; simpl.
    - by intros [= <-].
    - destruct (Web.serve fuel st request clock) as [st1| |] eqn:H1; simpl; try done.
      apply IH. by apply (served_serve fuel st st1 request clock). }
  split.
  - intros bc Hbc. destruct (Hs bc Hbc) as (Hd & Hr & _ & Hv & Hb).
    repeat (split; [done|]). intros b [k Hk]%list_elem_of_lookup.
    by destruct (Hb k b Hk) as (_ & ? & ?).
  - intros fuel' now answer. unfold Web.validate_chain.
    destruct (Web.get_blockchain fuel' blockchain now) as [bc| |] eqn:Hg; simpl; try done.
    intros [= <-]. simpl.
    by destruct (get_blockchain_served _ _ _ _ Hs Hg) as (_ & _ & _ & Hv & _).
Qed.

End Serving.

(** ** Concrete runs on the reference runtime *)

Module Runs.
Import Reference.

(** Four readings of the clock, in whole seconds. *)
Definition t0 : Z := 1700000267.
Definition t1 : Z := 1700000388.
Definition t2 : Z := 1700000413.
Definition t3 : Z := 1700000402.

Definition empty_chain : Blockchain := mkBlockchain [] 0 [] 0.

(** [Blockchain(difficulty=1)] at clock [t0]. *)
Definition genesis_chain : Blockchain := run empty_chain (Blockchain_init 100 1 t0).

(** ... then [add_block_direct("Alice sends 5 coins to Bob")] at clock [t1]. *)
Definition two_blocks : Blockchain :=
  run empty_chain (add_block_direct 100 genesis_chain "Alice sends 5 coins to Bob" t1).

Definition second_block : Block :=
  default (Block_init 0 EmptyString EmptyString None t0) (chain two_blocks !! Z.to_nat 1).

(** The constructor and two [add_block_direct] calls. *)
Definition three_blocks : Blockchain :=
  run empty_chain
      (bc0 ← Blockchain_init 100 1 t0;
       add_blocks 100 bc0 [("Alice sends 5 coins to Bob", t1);
                           ("Bob sends 2 coins to Carol", t2)]).

(** [two_blocks] with the payload of block 1 overwritten. *)
Definition tampered : Blockchain :=
  fst (tamper_with_block two_blocks 1 "Alice sends 5000 coins to Bob").

(** [genesis_chain] after queueing one transfer and flushing to "Miner". *)
Definition flushed : Blockchain :=
  run empty_chain
      (mine_pending_transactions 100
         (add_transaction genesis_chain "A sends 10 coins to B") "Miner" t1).

(** The same flush with the reward address "sends". *)
Definition flushed_to_sends : Blockchain :=
  run empty_chain
      (mine_pending_transactions 100
         (add_transaction genesis_chain "A sends 10 coins to B") "sends" t1).

(** [genesis_chain] extended by a transfer written in five words. *)
Definition short_transfer : Blockchain :=
  run empty_chain (add_block_direct 100 genesis_chain "A sends 10 to B" t1).

(** [genesis_chain] extended by a transfer whose amount is a word. *)
Definition worded_transfer : Blockchain :=
  run empty_chain (add_block_direct 100 genesis_chain "A sends ten coins to B" t1).

(** A new block whose digest at counter 0 already starts with a zero, and
    the same block after its payload was overwritten. *)
Definition lucky_block : Block :=
  Block_init 1 "Alice sends 33 coins to Bob" "previous_hash_123" None t0.

Definition stale_block : Block := set_data lucky_block "Alice sends 9000 coins to Bob".

(** A new genesis block at clock [t3], and what mining it at difficulty 2 gives. *)
Definition new_block : Block :=
  Block_init 0 "Genesis Block - The beginning of BlockSim" "0" None t3.

Definition mined_block : Block := run new_block (mine_block 100 new_block 2).

(** [Blockchain(difficulty=0)]. *)
Definition zero_difficulty_chain : Blockchain :=
  run empty_chain (Blockchain_init 0 0 t0).

(** A chain whose only block carries the timestamp 0. *)
Definition epoch_chain : Blockchain :=
  mkBlockchain
    [Block_init 0 "Genesis Block - The beginning of BlockSim" "0" None 0] 2 [] 100.

(** A document with its first record rewritten: index 7 and a link that is
    not the sentinel. *)
Definition forge (doc : list BlockDict) : list BlockDict :=
  match doc with
  | r :: rest =>
      mkBlockDict (Some 7) (d_timestamp r) (d_data r) (Some "feedbeef") (d_hash r)
                  (d_nonce r) :: rest
  | [] => []
  end.

Definition forged_document : list BlockDict := forge (export_chain two_blocks).

(** Loading [doc] at clock [t3], and the chain the explorer holds afterwards. *)
Definition load (doc : list BlockDict) : outcome (BlockchainExplorer * LoadReport) :=
  load_blockchain 100 (mkExplorer None) doc t3 (fun _ => t3).

Definition loaded (doc : list BlockDict) : Blockchain :=
  default empty_chain (blockchain (fst (run (mkExplorer None, LoadFailed) (load doc)))).

Lemma genesis_chain_built : Blockchain_init 100 1 t0 = Ok genesis_chain.
Proof. apply run_Ok. vm_compute. reflexivity. Qed.

Lemma two_blocks_built :
  add_block_direct 100 genesis_chain "Alice sends 5 coins to Bob" t1 = Ok two_blocks.
Proof. apply run_Ok. vm_compute. reflexivity. Qed.

(** The digests are those CPython computes for the same fields. *)
Example two_blocks_digests :
  map nonce (chain two_blocks) = [1; 2]
  /\ map hash (chain two_blocks)
     = ["0aeb64e5dc82a1d96d3d5009dccdca56043de84e73fdcddfcfe351d5a6ed87fd";
        "02514138069c860850ba6a3dac245c212bcc94e41721ce7f159dd1c435afd473"].
Proof. vm_compute. split; reflexivity. Qed.

(** C1, counterexample: after [tamper_with_block(0, "HACKED")] on a valid chain
    of two blocks, block 0 holds the new payload and its old digest, and
    [is_chain_valid] still returns true.  So it does after block 1 is
    overwritten with the payload it has; and [tampered], which fails
    validation, passes again after its block 1, whose digest is stale, is
    overwritten with another payload, the one that was digested. *)
Lemma tamper_genesis_undetected :
  is_chain_valid two_blocks = true
  /\ map data (chain (fst (tamper_with_block two_blocks 0 "HACKED")))
     = ["HACKED"; "Alice sends 5 coins to Bob"]
  /\ map hash (chain (fst (tamper_with_block two_blocks 0 "HACKED")))
     = map hash (chain two_blocks)
  /\ snd (tamper_with_block two_blocks 0 "HACKED")
     = Tampering 0 "Genesis Block - The beginning of BlockSim" "HACKED" true
  /\ is_chain_valid (fst (tamper_with_block two_blocks 0 "HACKED")) = true
  /\ is_chain_valid (fst (tamper_with_block two_blocks 1 "Alice sends 5 coins to Bob"))
     = true
  /\ is_chain_valid tampered = false
  /\ map data (chain tampered)
     = ["Genesis Block - The beginning of BlockSim"; "Alice sends 5000 coins to Bob"]
  /\ is_chain_valid (fst (tamper_with_block tampered 1 "Alice sends 5 coins to Bob"))
     = true.
Proof. vm_compute. repeat split; reflexivity. Qed.

Lemma tamper_detected_witness :
  0 <= 1
  /\ chain two_blocks !! Z.to_nat 1 = Some second_block
  /\ hash second_block = calculate_hash second_block
  /\ ("Alice sends 5000 coins to Bob" =? data second_block)%string = false
  /\ block_string (set_data second_block "Alice sends 5000 coins to Bob")
     <> block_string second_block
  /\ is_chain_valid (fst (tamper_with_block two_blocks 1 "Alice sends 5000 coins to Bob"))
     = false.
Proof.
  assert (0 <= 1) as H0 by lia.
  assert (chain two_blocks !! Z.to_nat 1 = Some second_block) as Hb.
  { unfold second_block. apply lookup_default. vm_compute. reflexivity. }
  assert (hash second_block = calculate_hash second_block) as Hsealed
    by (vm_compute; reflexivity).
  assert (("Alice sends 5000 coins to Bob" =? data second_block)%string = false) as Hne
    by (vm_compute; reflexivity).
  assert ((sha256_hexdigest
             (block_string (set_data second_block "Alice sends 5000 coins to Bob"))
           =? sha256_hexdigest (block_string second_block))%string = false) as Hdigests
    by (vm_compute; reflexivity).
  destruct (proj1 (tamper_detected (rt:=runtime) two_blocks 1
                     "Alice sends 5000 coins to Bob" second_block H0 Hb)
              ltac:(lia) Hsealed (proj1 (String.eqb_neq _ _) Hne))
    as [Htexts [Hfalse|Hsame]].
  - split; [exact H0|]. split; [exact Hb|]. split; [exact Hsealed|].
    split; [exact Hne|]. split; [exact Htexts | exact Hfalse].
  - exfalso. apply (proj1 (String.eqb_neq _ _) Hdigests). exact Hsame.
Defined.

(** C2, counterexample: a document whose first record has index 7 and a
    link other than "0" loads into a chain that [is_chain_valid] accepts. *)
Lemma forged_genesis_accepted :
  returned (load forged_document) = true
  /\ map index (chain (loaded forged_document)) = [7; 1]
  /\ map previous_hash (chain (loaded forged_document))
     = ["feedbeef"; "0aeb64e5dc82a1d96d3d5009dccdca56043de84e73fdcddfcfe351d5a6ed87fd"]
  /\ is_chain_valid (loaded forged_document) = true.
Proof. vm_compute. repeat split; reflexivity. Qed.

(** C3, counterexample: [stale_block] has search counter 0 and a stored
    digest that starts with a zero but was computed over another payload;
    [mine_block(1)] returns it unchanged, so afterwards the stored digest
    differs from a recomputation, and the recomputed digest at the final
    counter does not have the zero prefix. *)
Lemma mine_block_keeps_stale_digest :
  nonce stale_block = 0
  /\ mine_block 100 stale_block 1 = Ok stale_block
  /\ (hash stale_block =? calculate_hash stale_block)%string = false
  /\ (slice_to (calculate_hash stale_block) 1 =? str_mul "0" 1)%string = false.
Proof.
  split; [reflexivity|]. split; [apply mine_block_immediate|];
    vm_compute; repeat split; reflexivity.
Qed.

Lemma mine_block_sealed_witness :
  nonce new_block = 0
  /\ hash new_block = calculate_hash new_block
  /\ mine_block 100 new_block 2 = Ok mined_block
  /\ hash mined_block = calculate_hash mined_block
  /\ slice_to (hash mined_block) 2 = "00"
  /\ nonce mined_block = 3.
Proof.
  assert (nonce new_block = 0) as Hn by apply Block_init_nonce.
  assert (hash new_block = calculate_hash new_block) as Hf by apply Block_init_fresh.
  assert (mine_block 100 new_block 2 = Ok mined_block) as Hrun
    by (apply run_Ok; vm_compute; reflexivity).
  destruct (proj1 (mine_block_sealed (rt:=runtime) new_block 2 Hn Hf) 100%nat _ Hrun)
    as (Hfresh & Hprefix & _).
  split; [exact Hn|]. split; [exact Hf|]. split; [exact Hrun|].
  split; [exact Hfresh|]. split; [exact Hprefix|]. vm_compute. reflexivity.
Defined.

Lemma scenario_balances_witness :
  py_float "10" = Some 10%float
  /\ py_float "100" = Some 100%float
  /\ Blockchain_init 100 1 t0 = Ok genesis_chain
  /\ mine_pending_transactions 100
       (add_transaction genesis_chain "A sends 10 coins to B") "Miner" t1 = Ok flushed
  /\ length (chain flushed) = 2%nat
  /\ get_balance flushed "A" = Ok (-10)%float
  /\ get_balance flushed "B" = Ok 10%float
  /\ get_balance flushed "Miner" = Ok 100%float.
Proof.
  assert (py_float "10" = Some 10%float) as H10 by (vm_compute; reflexivity).
  assert (py_float "100" = Some 100%float) as H100 by (vm_compute; reflexivity).
  assert (mine_pending_transactions 100
            (add_transaction genesis_chain "A sends 10 coins to B") "Miner" t1
          = Ok flushed) as Hflush by (apply run_Ok; vm_compute; reflexivity).
  destruct (proj1 (scenario_balances (rt:=runtime) t0 t1 H10 H100) 100%nat genesis_chain
              flushed genesis_chain_built Hflush) as (_ & Hlen & HA & HB & HM).
  split; [exact H10|]. split; [exact H100|]. split; [exact genesis_chain_built|].
  split; [exact Hflush|]. split; [exact Hlen|]. split; [exact HA|].
  split; [exact HB | exact HM].
Defined.

Lemma append_direct_valid_witness :
  (bc0 ← Blockchain_init 100 1 t0;
   add_blocks 100 bc0 [("Alice sends 5 coins to Bob", t1);
                       ("Bob sends 2 coins to Carol", t2)]) = Ok three_blocks
  /\ length (chain three_blocks) = 3%nat
  /\ is_chain_valid three_blocks = true.
Proof.
  assert ((bc0 ← Blockchain_init 100 1 t0;
           add_blocks 100 bc0 [("Alice sends 5 coins to Bob", t1);
                               ("Bob sends 2 coins to Carol", t2)]) = Ok three_blocks)
    as Hrun by (apply run_Ok; vm_compute; reflexivity).
  split; [exact Hrun|].
  exact (proj1 (append_direct_valid (rt:=runtime) 1 t0 _) 100%nat three_blocks Hrun).
Defined.

(** C6, the failing inputs.  A chain holding the payload "A sends 10 to B"
    (five words, with "sends" and "to"): [get_balance] passes the test
    [len(parts) >= 5] and then reads [parts[5]], which raises [IndexError].
    A chain holding "A sends ten coins to B": [float("ten")] raises
    [ValueError].  Neither entry is ignored. *)
Theorem get_balance_raises :
  returned (add_block_direct 100 genesis_chain "A sends 10 to B" t1) = true
  /\ map data (chain short_transfer)
     = ["Genesis Block - The beginning of BlockSim"; "A sends 10 to B"]
  /\ split_ws "A sends 10 to B" = ["A"; "sends"; "10"; "to"; "B"]
  /\ get_balance short_transfer "A" = Raise IndexError
  /\ get_balance short_transfer "Carol" = Raise IndexError
  /\ returned (add_block_direct 100 genesis_chain "A sends ten coins to B" t1) = true
  /\ get_balance worded_transfer "A" = Raise ValueError.
Proof. vm_compute. repeat split; reflexivity. Qed.

(** C7, counterexample: with an index that is out of range the call fails
    with nothing.  On the chain of two blocks the calls with the indices 2
    and -1 return, as the call with the index 1 does, having reported that
    the block does not exist; the chain is as it was, and still valid. *)
Lemma tamper_out_of_range_returns :
  length (chain two_blocks) = 2%nat
  /\ snd (tamper_with_block two_blocks 2 "HACKED") = BlockDoesNotExist 2
  /\ snd (tamper_with_block two_blocks (-1) "HACKED") = BlockDoesNotExist (-1)
  /\ snd (tamper_with_block two_blocks 1 "HACKED")
     = Tampering 1 "Alice sends 5 coins to Bob" "HACKED" false
  /\ map data (chain (fst (tamper_with_block two_blocks 2 "HACKED")))
     = map data (chain two_blocks)
  /\ map data (chain (fst (tamper_with_block two_blocks (-1) "HACKED")))
     = map data (chain two_blocks)
  /\ is_chain_valid (fst (tamper_with_block two_blocks 2 "HACKED")) = true.
Proof. vm_compute. repeat split; reflexivity. Qed.

Lemma tamper_with_block_spec_witness :
  tamper_with_block two_blocks 2 "X" = (two_blocks, BlockDoesNotExist 2)
  /\ tamper_with_block two_blocks (-1) "X" = (two_blocks, BlockDoesNotExist (-1))
  /\ length (chain (fst (tamper_with_block two_blocks 1 "X"))) = length (chain two_blocks).
Proof.
  assert (length (chain two_blocks) = 2%nat) as Hlen by (vm_compute; reflexivity).
  split; [|split].
  - apply (proj1 (tamper_with_block_spec (rt:=runtime) two_blocks 2 "X")). rewrite Hlen. lia.
  - apply (proj1 (tamper_with_block_spec (rt:=runtime) two_blocks (-1) "X")). lia.
  - apply (proj2 (tamper_with_block_spec (rt:=runtime) two_blocks 1 "X")). rewrite Hlen. lia.
Defined.

(** C8, counterexample: the constructor called with difficulty 0, which is
    outside 1..6, returns a chain. *)
Lemma constructor_accepts_difficulty_zero :
  Blockchain_init 0 0 t0 = Ok zero_difficulty_chain
  /\ difficulty zero_difficulty_chain = 0
  /\ map index (chain zero_difficulty_chain) = [0]
  /\ is_chain_valid zero_difficulty_chain = true.
Proof.
  split; [apply run_Ok|]; vm_compute; repeat split; reflexivity.
Qed.

Lemma create_blockchain_checks_range_witness :
  create_blockchain 100 (mkExplorer None) " 9 " t0
  = Ok (mkExplorer None, DifficultyOutOfRange)
  /\ create_blockchain 100 (mkExplorer None) "0" t0
     = Ok (mkExplorer None, DifficultyOutOfRange)
  /\ create_blockchain 100 (mkExplorer None) "1" t0
     = Ok (mkExplorer (Some genesis_chain), Created 1)
  /\ exists bc g,
       (mkExplorer (Some genesis_chain), Created 1) = (mkExplorer (Some bc), Created 1)
       /\ chain bc = [g] /\ difficulty bc = 1
       /\ pending_transactions bc = [] /\ mining_reward bc = 100
       /\ index g = 0 /\ previous_hash g = "0"
       /\ data g = "Genesis Block - The beginning of BlockSim"
       /\ timestamp g = t0 /\ 0 <= nonce g
       /\ hash g = calculate_hash g
       /\ slice_to (hash g) 1 = str_mul "0" 1
       /\ (forall k, (k < Z.to_nat 1)%nat -> String.get k (hash g) = Some "0"%char)
       /\ is_chain_valid bc = true.
Proof.
  pose proof (create_blockchain_checks_range (rt:=runtime) 100 (mkExplorer None) " 9 " t0)
    as (_ & H9 & _).
  pose proof (create_blockchain_checks_range (rt:=runtime) 100 (mkExplorer None) "0" t0)
    as (_ & H0 & _).
  pose proof (create_blockchain_checks_range (rt:=runtime) 100 (mkExplorer None) "1" t0)
    as (_ & _ & H1 & _).
  assert ((if (strip "1" =? EmptyString)%string then Some 2 else py_int (strip "1"))
          = Some 1) as Hparse by (vm_compute; reflexivity).
  assert (1 <= 1 <= 6) as Hrange by lia.
  destruct (H1 1 Hparse Hrange) as (Hcreate & Hmined & _).
  split; [|split; [|split]].
  - apply (H9 9); [vm_compute; reflexivity | lia].
  - apply (H0 0); [vm_compute; reflexivity | lia].
  - exact (Hcreate genesis_chain genesis_chain_built).
  - exact (Hmined _ (Hcreate genesis_chain genesis_chain_built)).
Defined.

(** Why the clock of a session must not read zero for the round trip: the
    block of [epoch_chain] was built at the clock reading 0, and in the
    chain loaded from its export the block carries the clock reading of the
    load instead. *)
Example roundtrip_loses_zero_timestamp :
  map timestamp (chain epoch_chain) = [0]
  /\ returned (load (export_chain epoch_chain)) = true
  /\ map timestamp (chain (loaded (export_chain epoch_chain))) = [t3]
  /\ map hash (chain (loaded (export_chain epoch_chain)))
     = map hash (chain epoch_chain).
Proof. vm_compute. repeat split; reflexivity. Qed.

(** C10, counterexample: all blocks after genesis come from one flush, with
    reward amount 100 and reward address "sends".  The reward entry matches
    the transfer pattern, so it is read as a transfer from "Mining": the
    balance of "Mining" is debited 100, not credited. *)
Lemma reward_to_sends_debits_mining :
  returned (mine_pending_transactions 100
              (add_transaction genesis_chain "A sends 10 coins to B") "sends" t1) = true
  /\ map data (chain flushed_to_sends)
     = ["Genesis Block - The beginning of BlockSim";
        "A sends 10 coins to B | Mining Reward: 100 coins to sends"]
  /\ get_balance flushed_to_sends "Mining" = Ok (-100)%float
  /\ get_balance flushed_to_sends "sends" = Ok 100%float.
Proof. vm_compute. repeat split; reflexivity. Qed.

Lemma reward_credits_substring_witness :
  contains "sends" "Miner" = false
  /\ py_float (str_of_int 100) = Some 100%float
  /\ balance_step "Mining" 0%float (reward_entry 100 "Miner") = Ok 100%float
  /\ get_balance flushed "Mining" = Ok 100%float.
Proof.
  assert (contains "sends" "Miner" = false) as Hs by reflexivity.
  assert (py_float (str_of_int 100) = Some 100%float) as Hf by (vm_compute; reflexivity).
  split; [exact Hs|]. split; [exact Hf|]. split.
  - exact (proj2 (proj2 (reward_credits_substring (rt:=runtime))) 100 "Miner" 0%float 100%float Hs Hf).
  - vm_compute. reflexivity.
Defined.

End Runs.

(** ** Runs of the histories, the ledger and the explorer on the reference
    runtime *)

Module Examples.
Import Reference Repr Runs.

(** Queueing one transfer on [genesis_chain] and flushing it to "Miner". *)
Definition history : list Call :=
  [CallAddTransaction "A sends 10 coins to B"; CallMinePendingTransactions "Miner" t1].

Definition ledger : Blockchain := run empty_chain (calls 100 genesis_chain history).

(** What the explorer holds after loading a document without records. *)
Definition emptied : BlockchainExplorer * LoadReport :=
  run (mkExplorer None, LoadFailed)
    (load_blockchain 100 (mkExplorer None) [] t3 (fun _ => t3)).




(** A session: create a chain of difficulty 1, enter a transfer of 10 from
    A to B, and mine it with the miner's name left blank. *)
Definition session : list Explorer.Command :=
  [Explorer.CreateNewBlockchain "1" t0;
   Explorer.AddTransaction " A " "B" "10";
   Explorer.MinePendingTransactions "" t1].

Definition session_end : BlockchainExplorer :=
  run (mkExplorer None) (Explorer.run 100 (mkExplorer None) session).

Definition session_chain : Blockchain := default empty_chain (blockchain session_end).





Lemma default_Some {A : Type} (dflt : A) (o : option A) :
  match o with Some _ => true | None => false end = true -> o = Some (default dflt o).
Proof. by destruct o. Qed.

Lemma history_run : calls 100 genesis_chain history = Ok ledger.
Proof. apply run_Ok. vm_compute. reflexivity. Qed.

Lemma flushed_built :
  mine_pending_transactions 100
    (foldl add_transaction genesis_chain ["A sends 10 coins to B"]) "Miner" t1
  = Ok flushed.
Proof. apply run_Ok. vm_compute. reflexivity. Qed.

Lemma genesis_chain_nonempty : chain genesis_chain <> [].
Proof.
  destruct (Blockchain_init_Ok _ _ _ _ genesis_chain_built) as (g & Hc & _).
  rewrite Hc. discriminate.
Qed.

Lemma queue_no_bar :
  Forall (fun t => no_bar t = true)
    (pending_transactions genesis_chain ++ ["A sends 10 coins to B"]).
Proof. apply (Forall_forallb no_bar). vm_compute. reflexivity. Qed.

(** Every digest of the reference runtime has 64 characters. *)
Lemma sha256_length (s : string) : String.length (sha256 s) = 64%nat.
Proof.
  unfold sha256.
  generalize (fold_left compress
                (chunks16 (length (words_of_bytes (length (pad (bytes_of_string s)))
                                     (pad (bytes_of_string s))))
                   (words_of_bytes (length (pad (bytes_of_string s)))
                      (pad (bytes_of_string s))))
                initial_regs).
  intros h. reflexivity.
Qed.

(** The texts [float_repr] writes are those of CPython's [repr]. *)
Example float_repr_texts :
  map float_repr [10; 2.5; 1 / 10; 1 / 3; 10000000000000000; 1 / 65536; - (100); 0]%float
  = ["10.0"; "2.5"; "0.1"; "0.3333333333333333"; "1e+16"; "1.52587890625e-05";
     "-100.0"; "0.0"].
Proof. vm_compute. reflexivity. Qed.

Lemma history_valid_witness :
  Blockchain_init 100 1 t0 = Ok genesis_chain
  /\ calls 100 genesis_chain history = Ok ledger
  /\ is_chain_valid ledger = true
  /\ (forall k b, chain ledger !! k = Some b -> index b = Z.of_nat k)
  /\ difficulty ledger = 1 /\ mining_reward ledger = 100.
Proof.
  split; [exact genesis_chain_built|]. split; [exact history_run|].
  exact (history_valid (rt:=runtime) 100 100 1 t0 history genesis_chain ledger
           genesis_chain_built history_run).
Defined.

Lemma history_proof_of_work_witness :
  Blockchain_init 100 1 t0 = Ok genesis_chain
  /\ calls 100 genesis_chain history = Ok ledger
  /\ forall b, b ∈ chain ledger ->
       hash b = calculate_hash b
       /\ slice_to (hash b) 1 = str_mul "0" 1
       /\ forall i, (i < Z.to_nat 1)%nat -> String.get i (hash b) = Some "0"%char.
Proof.
  split; [exact genesis_chain_built|]. split; [exact history_run|].
  exact (history_proof_of_work (rt:=runtime) 100 100 1 t0 history genesis_chain ledger
           genesis_chain_built history_run).
Defined.

Lemma history_append_only_witness :
  calls 100 genesis_chain history = Ok ledger
  /\ (length (chain genesis_chain) <= length (chain ledger)
      <= length (chain genesis_chain) + length history)%nat
  /\ forall k b, chain genesis_chain !! k = Some b -> chain ledger !! k = Some b.
Proof.
  split; [exact history_run|].
  exact (history_append_only (rt:=runtime) 100 genesis_chain ledger history history_run).
Defined.

Lemma history_never_raises_witness :
  returned (calls 100 genesis_chain history) = true
  /\ (forall fuel e, calls fuel genesis_chain history <> Raise e)
  /\ (minable (difficulty genesis_chain) ->
      exists fuel self', calls fuel genesis_chain history = Ok self').
Proof.
  split; [by rewrite history_run|].
  exact (history_never_raises (rt:=runtime) genesis_chain history genesis_chain_nonempty).
Defined.

Lemma mine_block_settles_witness :
  mine_block 100 new_block 2 = Ok mined_block
  /\ index mined_block = index new_block /\ timestamp mined_block = timestamp new_block
  /\ data mined_block = data new_block
  /\ previous_hash mined_block = previous_hash new_block
  /\ nonce new_block <= nonce mined_block
  /\ forall fuel', mine_block fuel' mined_block 2 = Ok mined_block.
Proof.
  assert (mine_block 100 new_block 2 = Ok mined_block) as Hrun
    by (apply run_Ok; vm_compute; reflexivity).
  split; [exact Hrun|].
  exact (mine_block_settles (rt:=runtime) 100 new_block mined_block 2 Hrun).
Defined.

Lemma constructor_outside_digest_range_witness :
  (forall s, String.length (sha256 s) = 64%nat)
  /\ (forall fuel, Blockchain_init fuel (-1) t0 = OutOfFuel)
  /\ (forall fuel, Blockchain_init fuel 65 t0 = OutOfFuel)
  /\ exists bc, Blockchain_init 0 (-64) t0 = Ok bc /\ map nonce (chain bc) = [0].
Proof.
  split; [exact sha256_length|]. split; [|split].
  - apply (proj2 (constructor_outside_digest_range (rt:=runtime) (-1) t0 sha256_length)).
    right. lia.
  - apply (proj2 (constructor_outside_digest_range (rt:=runtime) 65 t0 sha256_length)).
    left. lia.
  - apply (proj1 (constructor_outside_digest_range (rt:=runtime) (-64) t0 sha256_length)).
    right. lia.
Defined.

Lemma payload_roundtrip_witness :
  Forall (fun t => no_bar t = true)
    ["A sends 10 coins to B"; "B sends 2 coins to C"; "Mining Reward: 100 coins to Miner"]
  /\ split_sep " | "
       (join " | " ["A sends 10 coins to B"; "B sends 2 coins to C";
                    "Mining Reward: 100 coins to Miner"])
     = ["A sends 10 coins to B"; "B sends 2 coins to C";
        "Mining Reward: 100 coins to Miner"].
Proof.
  assert (Forall (fun t => no_bar t = true)
            ["A sends 10 coins to B"; "B sends 2 coins to C";
             "Mining Reward: 100 coins to Miner"]) as Hbar
    by (repeat constructor).
  split; [exact Hbar|].
  refine (proj1 (payload_roundtrip _ _ Hbar)). discriminate.
Defined.

Lemma flush_records_queue_witness :
  Forall (fun t => no_bar t = true)
    (pending_transactions genesis_chain ++ ["A sends 10 coins to B"])
  /\ no_bar "Miner" = true
  /\ mine_pending_transactions 100
       (foldl add_transaction genesis_chain ["A sends 10 coins to B"]) "Miner" t1
     = Ok flushed
  /\ pending_transactions flushed = []
  /\ exists b,
       chain flushed = chain genesis_chain ++ [b]
       /\ split_sep " | " (data b)
          = pending_transactions genesis_chain ++ ["A sends 10 coins to B"]
            ++ [reward_entry (mining_reward genesis_chain) "Miner"]
       /\ forall address,
            get_balance flushed address
            = (get_balance genesis_chain address
               ≫= fun balance =>
                    balance_transactions address balance
                      (pending_transactions genesis_chain ++ ["A sends 10 coins to B"]
                         ++ [reward_entry (mining_reward genesis_chain) "Miner"])).
Proof.
  assert (no_bar "Miner" = true) as Hminer by reflexivity.
  split; [exact queue_no_bar|]. split; [exact Hminer|]. split; [exact flushed_built|].
  apply (flush_records_queue (rt:=runtime) 100 genesis_chain flushed
           ["A sends 10 coins to B"] "Miner" t1);
    [discriminate | exact queue_no_bar | exact Hminer | exact flushed_built].
Defined.

Lemma transfer_block_balances_witness :
  word "Alice" = true /\ word "5" = true /\ word "Bob" = true
  /\ py_float "5" = Some 5%float
  /\ add_block_direct 100 genesis_chain (transfer_entry "Alice" "5" "Bob") t1
     = Ok two_blocks
  /\ get_balance two_blocks "Alice"
     = (get_balance genesis_chain "Alice"
        ≫= fun balance =>
             let balance := if ("Alice" =? "Alice")%string then (balance - 5)%float
                            else balance in
             Ok (if ("Bob" =? "Alice")%string then (balance + 5)%float else balance))
  /\ get_balance two_blocks "Carol" = get_balance genesis_chain "Carol".
Proof.
  assert (word "Alice" = true) as Ha by reflexivity.
  assert (word "5" = true) as H5 by reflexivity.
  assert (word "Bob" = true) as Hb by reflexivity.
  assert (py_float "5" = Some 5%float) as Hf by (vm_compute; reflexivity).
  split; [exact Ha|]. split; [exact H5|]. split; [exact Hb|]. split; [exact Hf|].
  split; [exact two_blocks_built|]. split.
  - exact (proj1 (transfer_block_balances (rt:=runtime) 100 genesis_chain two_blocks
                    "Alice" "5" "Bob" 5%float t1 Ha H5 Hb Hf two_blocks_built "Alice")).
  - apply (proj2 (transfer_block_balances (rt:=runtime) 100 genesis_chain two_blocks
                    "Alice" "5" "Bob" 5%float t1 Ha H5 Hb Hf two_blocks_built "Carol"));
      discriminate.
Defined.

Lemma tamper_restore_witness :
  0 <= 1
  /\ chain two_blocks !! Z.to_nat 1 = Some second_block
  /\ tamper_with_block (fst (tamper_with_block two_blocks 1 "Alice sends 5000 coins to Bob"))
       1 (data second_block)
     = (two_blocks,
        Tampering 1 "Alice sends 5000 coins to Bob" (data second_block)
          (is_chain_valid two_blocks)).
Proof.
  assert (0 <= 1) as H0 by lia.
  assert (chain two_blocks !! Z.to_nat 1 = Some second_block) as Hb.
  { unfold second_block. apply lookup_default. vm_compute. reflexivity. }
  split; [exact H0|]. split; [exact Hb|].
  exact (proj2 (tamper_restore (rt:=runtime) two_blocks 1 "Alice sends 5000 coins to Bob"
                  second_block H0 Hb)).
Defined.


Lemma load_empty_document_witness :
  load_blockchain 100 (mkExplorer None) [] t3 (fun _ => t3) = Ok emptied
  /\ exists bc,
       blockchain (fst emptied) = Some bc /\ chain bc = []
       /\ is_chain_valid bc = true
       /\ (forall address, get_balance bc address = Ok 0%float)
       /\ (forall fuel' data now', add_block_direct fuel' bc data now' = Raise IndexError)
       /\ (forall fuel' transaction miner now',
             mine_pending_transactions fuel' (add_transaction bc transaction) miner now'
             = Raise IndexError)
       /\ snd emptied = Loaded 0.
Proof.
  assert (load_blockchain 100 (mkExplorer None) [] t3 (fun _ => t3) = Ok emptied) as Hload
    by (apply run_Ok; vm_compute; reflexivity).
  split; [exact Hload|].
  exact (load_empty_document (rt:=runtime) 100 (mkExplorer None) emptied t3 (fun _ => t3)
           Hload).
Defined.

(** The session leaves a chain of two blocks; the amount typed as [10] is
    recorded as [10.0], and the reward went to the default miner. *)
Example session_chain_payloads :
  map data (chain session_chain)
  = ["Genesis Block - The beginning of BlockSim";
     "A sends 10.0 coins to B | Mining Reward: 100 coins to Interactive Miner"].
Proof. vm_compute. reflexivity. Qed.

Lemma explorer_session_difficulty_witness :
  Explorer.run 100 (mkExplorer None) session = Ok session_end
  /\ blockchain session_end = Some session_chain
  /\ 1 <= difficulty session_chain <= 6 /\ mining_reward session_chain = 100.
Proof.
  assert (Explorer.run 100 (mkExplorer None) session = Ok session_end) as Hrun
    by (apply run_Ok; vm_compute; reflexivity).
  assert (blockchain session_end = Some session_chain) as Hbc
    by (apply default_Some; vm_compute; reflexivity).
  split; [exact Hrun|]. split; [exact Hbc|].
  exact (explorer_session_difficulty (rt:=runtime) (fm:=format) 100 session session_end
           session_chain Hrun Hbc).
Defined.


Lemma explorer_blank_input_witness :
  all_chars isspace "   " = true
  /\ Explorer.add_direct_block 100 (mkExplorer (Some genesis_chain)) "   " t1
     = Ok (mkExplorer (Some genesis_chain), Explorer.BlockDataCannotBeEmpty)
  /\ Explorer.check_balance (mkExplorer (Some genesis_chain)) "   "
     = Ok Explorer.AddressCannotBeEmpty.
Proof.
  assert (all_chars isspace "   " = true) as Hb by reflexivity.
  pose proof (explorer_blank_input (rt:=runtime) (fm:=format) 100
                (mkExplorer (Some genesis_chain)) "   " t1 Hb) as (H1 & _ & _ & H4 & _).
  split; [exact Hb|]. split; [exact H1 | exact H4].
Defined.

Lemma stats_count_after_flush_witness :
  Forall (fun t => no_bar t = true)
    (pending_transactions genesis_chain ++ ["A sends 10 coins to B"])
  /\ no_bar "Miner" = true
  /\ mine_pending_transactions 100
       (foldl add_transaction genesis_chain ["A sends 10 coins to B"]) "Miner" t1
     = Ok flushed
  /\ Explorer.count_transactions (chain flushed)
     = (Explorer.count_transactions (chain genesis_chain)
        + length (pending_transactions genesis_chain)
        + length ["A sends 10 coins to B"] + 1)%nat.
Proof.
  assert (no_bar "Miner" = true) as Hminer by reflexivity.
  split; [exact queue_no_bar|]. split; [exact Hminer|]. split; [exact flushed_built|].
  apply (stats_count_after_flush (rt:=runtime) 100 genesis_chain flushed
           ["A sends 10 coins to B"] "Miner" t1);
    [discriminate | exact queue_no_bar | exact Hminer | exact flushed_built].
Defined.

(** *** A network of two nodes *)

Definition t4 : Z := 1700000425.

(** Alice and Bob join at the same reading of the clock, so that their
    genesis blocks are the same. *)
Definition joining : list (string * Network.Number * Stamp) :=
  [("Alice", Network.Int 100, t3); ("Bob", Network.Int 75, t3)].

Definition network : Network.BlockchainNetwork :=
  run Network.BlockchainNetwork_init
      (Network.add_nodes 100 Network.BlockchainNetwork_init joining).

Definition alice : Network.NetworkNode :=
  default (Network.mkNode EmptyString (Network.Int 0) empty_chain [] false)
          (Network.nodes network !! 0%nat).

Definition alice_tip : Block := default new_block (last (chain (Network.blockchain alice))).

(** A block nobody mined: the position and the link fit Alice's chain, the
    stored digest is not one. *)
Definition forged_block : Block :=
  mkBlock 1 t4 "Mallory sends 1000000 coins to Mallory" (Network.tip alice) 7
          "not a digest".

(** The store after Alice mined one block at clock [t4]. *)
Definition mined_store : list Network.NetworkNode :=
  run [] (Network.mine_block 100 (Network.nodes network) 0 "A sends 10 coins to B" t4).

(** A network with one transaction in the pool when Alice and Bob join, and
    the network after a round in which the first online node is drawn. *)
Definition pooled : Network.BlockchainNetwork :=
  Network.simulate_transaction Network.BlockchainNetwork_init "A" "B" (Network.Int 10).

Definition funded : Network.BlockchainNetwork :=
  run Network.BlockchainNetwork_init (Network.add_nodes 100 pooled joining).

Definition after_round : Network.BlockchainNetwork :=
  run Network.BlockchainNetwork_init (Network.random_mining_round 100 funded 0 t4).

Lemma network_built :
  Network.add_nodes 100 Network.BlockchainNetwork_init joining = Ok network.
Proof. apply run_Ok. vm_compute. reflexivity. Qed.

Lemma network_meshed : meshed (Network.nodes network).
Proof.
  apply (meshed_add_nodes (rt:=runtime) 100 joining
           Network.BlockchainNetwork_init network); [|exact network_built].
  by intros i n.
Qed.

Lemma alice_lookup : Network.nodes network !! 0%nat = Some alice.
Proof. unfold alice. apply lookup_default. vm_compute. reflexivity. Qed.

Lemma alice_online : Network.is_online alice = true.
Proof. exact (proj1 (network_meshed 0%nat alice alice_lookup)). Qed.

Lemma alice_last : last (chain (Network.blockchain alice)) = Some alice_tip.
Proof. apply default_Some. vm_compute. reflexivity. Qed.

Lemma funded_built : Network.add_nodes 100 pooled joining = Ok funded.
Proof. apply run_Ok. vm_compute. reflexivity. Qed.

Lemma funded_meshed : meshed (Network.nodes funded).
Proof.
  apply (meshed_add_nodes (rt:=runtime) 100 joining pooled funded); [|exact funded_built].
  by intros i n.
Qed.

(** The digests of the round are those CPython computes for the same
    fields; both nodes hold the same two blocks afterwards. *)
Example after_round_digests :
  map (fun n => map hash (chain (Network.blockchain n))) (Network.nodes after_round)
  = [["00f38720b34d79ea93633855391e0480f475dc6cb9ef83bdf9c812195c6211e7";
      "003a2f9c8f1ca1a061ee739a1b4b49f29867b6a9f847e083c2302fa0f4f455cd"];
     ["00f38720b34d79ea93633855391e0480f475dc6cb9ef83bdf9c812195c6211e7";
      "003a2f9c8f1ca1a061ee739a1b4b49f29867b6a9f847e083c2302fa0f4f455cd"]].
Proof. vm_compute. reflexivity. Qed.

Lemma peer_accepts_on_link_alone_witness :
  last (chain (Network.blockchain alice)) = Some alice_tip
  /\ Z.of_nat (length (chain (Network.blockchain alice))) = index forged_block
  /\ hash alice_tip = previous_hash forged_block
  /\ (hash forged_block =? calculate_hash forged_block)%string = false
  /\ exists self',
       Network.validate_and_add_block alice forged_block = Ok (self', true)
       /\ chain (Network.blockchain self') = chain (Network.blockchain alice) ++ [forged_block]
       /\ is_chain_valid (Network.blockchain self')
          = is_chain_valid (Network.blockchain alice)
            && (hash forged_block =? calculate_hash forged_block)%string.
Proof.
  assert (Z.of_nat (length (chain (Network.blockchain alice))) = index forged_block) as Hi
    by (vm_compute; reflexivity).
  assert (hash alice_tip = previous_hash forged_block) as Hl
    by (symmetry; exact (tip_last alice alice_tip alice_last)).
  assert ((hash forged_block =? calculate_hash forged_block)%string = false) as Hstale
    by (vm_compute; reflexivity).
  split; [exact alice_last|]. split; [exact Hi|]. split; [exact Hl|].
  split; [exact Hstale|].
  exact (peer_accepts_on_link_alone (rt:=runtime) alice forged_block alice_tip
           alice_last Hi Hl).
Defined.

Lemma mine_block_broadcast_witness :
  (forall j n, Network.nodes network !! j = Some n -> chain (Network.blockchain n) <> [])
  /\ Network.nodes network !! 0%nat = Some alice
  /\ Network.is_online alice = true
  /\ Network.mine_block 100 (Network.nodes network) 0 "A sends 10 coins to B" t4
     = Ok mined_store
  /\ exists b,
       index b = Z.of_nat (length (chain (Network.blockchain alice)))
       /\ data b = "[" +:+ Network.node_id alice +:+ "] " +:+ "A sends 10 coins to B"
       /\ previous_hash b = Network.tip alice
       /\ hash b = calculate_hash b
       /\ slice_to (hash b) (difficulty (Network.blockchain alice))
          = str_mul "0" (difficulty (Network.blockchain alice))
       /\ length mined_store = length (Network.nodes network)
       /\ mined_store !! 0%nat = Some (Network.append_block alice b)
       /\ forall j n, j <> 0%nat -> Network.nodes network !! j = Some n ->
            mined_store !! j
            = Some (if bool_decide (j ∈ Network.peers alice) && Network.is_online n
                       && (length (chain (Network.blockchain n))
                           =? length (chain (Network.blockchain alice)))%nat
                       && (Network.tip n =? Network.tip alice)%string
                    then Network.append_block n b else n).
Proof.
  assert (Network.mine_block 100 (Network.nodes network) 0 "A sends 10 coins to B" t4
          = Ok mined_store) as Hrun by (apply run_Ok; vm_compute; reflexivity).
  split; [exact (meshed_stocked _ network_meshed)|]. split; [exact alice_lookup|].
  split; [exact alice_online|]. split; [exact Hrun|].
  exact (mine_block_broadcast (rt:=runtime) 100 (Network.nodes network)
           mined_store 0 alice "A sends 10 coins to B" t4
           (meshed_stocked _ network_meshed) alice_lookup alice_online Hrun).
Defined.

Lemma mining_round_keeps_consensus_witness :
  Network.check_consensus funded = true
  /\ Network.random_mining_round 100 funded 0 t4 = Ok after_round
  /\ Network.check_consensus after_round = true
  /\ (Network.transaction_pool funded <> [] ->
      Network.online_nodes (Network.nodes funded) !! 0%nat <> None ->
      Network.transaction_pool after_round = []
      /\ exists b,
           Network.nodes after_round
           = map (fun n => if Network.is_online n then Network.append_block n b else n)
                 (Network.nodes funded)).
Proof.
  assert (Network.check_consensus funded = true) as Hc by (vm_compute; reflexivity).
  assert (Network.random_mining_round 100 funded 0 t4 = Ok after_round) as Hrun
    by (apply run_Ok; vm_compute; reflexivity).
  split; [exact Hc|]. split; [exact Hrun|].
  exact (mining_round_keeps_consensus (rt:=runtime) 100 funded after_round
           0 t4 (meshed_stocked _ funded_meshed)
           (fun i j ni nj => meshed_mesh _ i j ni nj funded_meshed) Hc Hrun).
Defined.

Lemma add_node_full_mesh_witness :
  Network.add_nodes 100 Network.BlockchainNetwork_init joining = Ok network
  /\ length (Network.nodes network) = length joining
  /\ forall i n, Network.nodes network !! i = Some n ->
       Network.is_online n = true
       /\ difficulty (Network.blockchain n) = 2
       /\ length (chain (Network.blockchain n)) = 1%nat
       /\ NoDup (Network.peers n)
       /\ forall j, j ∈ Network.peers n <-> (j < length (Network.nodes network))%nat /\ j <> i.
Proof.
  split; [exact network_built|].
  exact (add_node_full_mesh (rt:=runtime) 100 joining network network_built).
Defined.

Lemma check_consensus_exact_witness :
  (forall j n, Network.nodes funded !! j = Some n -> chain (Network.blockchain n) <> [])
  /\ Network.check_consensus funded = true
  /\ (Network.check_consensus funded = true
      <-> forall i j ni nj,
            Network.nodes funded !! i = Some ni -> Network.nodes funded !! j = Some nj ->
            Network.is_online ni = true -> Network.is_online nj = true ->
            length (chain (Network.blockchain ni)) = length (chain (Network.blockchain nj))
            /\ Network.tip ni = Network.tip nj).
Proof.
  assert (Network.check_consensus funded = true) as Hc by (vm_compute; reflexivity).
  split; [exact (meshed_stocked _ funded_meshed)|]. split; [exact Hc|].
  exact (check_consensus_exact (rt:=runtime) funded (meshed_stocked _ funded_meshed)).
Defined.

(** *** A tampered chain, extended *)

Definition extended : Blockchain :=
  run empty_chain (calls 100 tampered [CallAddBlockDirect "Bob sends 2 coins to Carol" t2]).

Lemma appends_never_repair_witness :
  is_chain_valid tampered = false
  /\ calls 100 tampered [CallAddBlockDirect "Bob sends 2 coins to Carol" t2] = Ok extended
  /\ length (chain extended) = 3%nat
  /\ is_chain_valid extended = false.
Proof.
  assert (is_chain_valid tampered = false) as Hv by (vm_compute; reflexivity).
  assert (calls 100 tampered [CallAddBlockDirect "Bob sends 2 coins to Carol" t2]
          = Ok extended) as Hrun by (apply run_Ok; vm_compute; reflexivity).
  split; [exact Hv|]. split; [exact Hrun|]. split; [vm_compute; reflexivity|].
  exact (appends_never_repair (rt:=runtime) 100 tampered extended _ Hv Hrun).
Defined.

(** *** Two requests to the web application *)

Definition t5 : Z := 1700000683.

(** A transaction is posted at clock [t3], which builds the chain, and mined
    at clock [t5] by the default miner. *)
Definition requests : list (Web.Request * (nat -> Stamp)) :=
  [(Web.PostAddTransaction "Alice" "Bob" "5", fun _ => t3);
   (Web.PostMine None, fun _ => t5)].

Definition held : option Blockchain := run None (Web.serve_all 100 None requests).

Example held_payloads :
  map data (chain (default empty_chain held))
  = ["Genesis Block - The beginning of BlockSim";
     "Alice sends 5 coins to Bob | Mining Reward: 100 coins to Web Miner"]
  /\ map nonce (chain (default empty_chain held)) = [3; 1].
Proof. vm_compute. split; reflexivity. Qed.

Lemma web_chain_always_valid_witness :
  Web.serve_all 100 None requests = Ok held
  /\ (forall bc, held = Some bc ->
        is_chain_valid bc = true /\ difficulty bc = 2 /\ mining_reward bc = 100
        /\ forall b, b ∈ chain bc ->
             hash b = calculate_hash b /\ slice_to (hash b) 2 = "00")
  /\ (forall fuel' now answer,
        Web.validate_chain fuel' held now = Ok answer -> snd answer = true).
Proof.
  assert (Web.serve_all 100 None requests = Ok held) as Hrun
    by (apply run_Ok; vm_compute; reflexivity).
  split; [exact Hrun|].
  exact (web_chain_always_valid (rt:=runtime) 100 requests held Hrun).
Defined.

End Examples.
